(** * ptp-stats: a shallow embedding of [main.py]

    The script reads the ptp4l logs of four hosts, extracts the clock offset
    and the path delay of every line that matches a fixed pattern, prints
    descriptive statistics, renders plots and, when a second directory is
    given, compares the two data sets host by host.

    Conventions of the embedding.
    - Text is a list of 8-bit characters ([list ascii]); the character
      classes of the pattern are Python's classes restricted to the code
      points below 256.
    - A Python [float] is an IEEE 754 binary64 value, [spec_float] with
      precision 53 and maximal exponent 1024.
    - [numpy], [scipy.stats], [matplotlib.pyplot] and the file system are
      interfaces (type classes); the program is written against them. A
      call of a library returns or raises, as the library decides.
    - Printing, plotting and raising are effects of a small writer/error
      monad [M]: every computation yields the effects it performed, in
      order, together with a value or the exception that ended it. *)

From Stdlib Require Import Ascii String List Bool Arith ZArith Lia.
From Stdlib Require Import Floats.SpecFloat DecimalString.
Import ListNotations.

(** ** Text *)

Definition str := list ascii.

Definition s (lit : string) : str := list_ascii_of_string lit.

Definition code (c : ascii) : nat := nat_of_ascii c.

Definition str_eqb (a b : str) : bool :=
  if list_eq_dec ascii_dec a b then true else false.

(** [str.lower] on the code points below 256: the ASCII capitals and the
    Latin-1 capitals (all of 0xC0..0xDE but the multiplication sign). *)
Definition lower_char (c : ascii) : ascii :=
  let n := code c in
  if ((65 <=? n) && (n <=? 90)) || ((192 <=? n) && (n <=? 222) && negb (n =? 215))
  then ascii_of_nat (n + 32) else c.

Definition lower (t : str) : str := map lower_char t.

(** [os.path.join] of two components (posixpath). *)
Definition path_join (a b : str) : str :=
  match b with
  | "/"%char :: _ => b
  | _ => match a with
         | [] => b
         | _ => if Ascii.eqb (last a " "%char) "/"%char then a ++ b
                else a ++ "/"%char :: b
         end
  end.

(** ** The pattern language

    The constructs of [re] that the script's pattern uses. Groups are the
    pair of marks that the compiled pattern carries, as in [sre]. *)

Inductive charset : Type :=
| CsChar (c : ascii)   (* a literal character *)
| CsDigit              (* \d *)
| CsSpace              (* \s *)
| CsSign               (* [+-] *)
| CsAny.               (* .  (no DOTALL) *)

Inductive node : Type :=
| One (cs : charset)        (* one character of the set *)
| Optional (cs : charset)   (* cs?  greedy *)
| Repeat1 (cs : charset)    (* cs+  greedy *)
| Mark.                     (* a group boundary *)

Definition is_digit (c : ascii) : bool :=
  (48 <=? code c) && (code c <=? 57).

(** Unicode white space below 256: TAB..CR, FS..US, space, NEL, NBSP. *)
Definition is_space (c : ascii) : bool :=
  let n := code c in
  ((9 <=? n) && (n <=? 13)) || ((28 <=? n) && (n <=? 32))
  || (n =? 133) || (n =? 160).

Definition is_sign (c : ascii) : bool :=
  Ascii.eqb c "+"%char || Ascii.eqb c "-"%char.

Definition mem (cs : charset) (c : ascii) : bool :=
  match cs with
  | CsChar d => Ascii.eqb c d
  | CsDigit => is_digit c
  | CsSpace => is_space c
  | CsSign => is_sign c
  | CsAny => negb (Ascii.eqb c "010"%char)
  end.

Definition lit (t : string) : list node := map (fun c => One (CsChar c)) (s t).

(** [cs+] after its first character: the longest run of [cs] is tried
    first, then the shorter ones, until the rest of the pattern, [cont],
    matches. *)
Fixpoint greedy {R : Type} (cs : charset) (cont : str -> option R) (u : str)
  : option R :=
  match u with
  | c :: u' =>
      if mem cs c
      then match greedy cs cont u' with
           | Some r => Some r
           | None => cont u
           end
      else cont u
  | [] => cont u
  end.

(** A backtracking run of a pattern on the text [t]. [marks] collects the
    text that remained at every group boundary, the latest first. The
    result is the marks and the text left after the match. *)
Fixpoint exec (prog : list node) (t : str) (marks : list str)
  : option (list str * str) :=
  match prog with
  | [] => Some (marks, t)
  | One cs :: k =>
      match t with
      | c :: t' => if mem cs c then exec k t' marks else None
      | [] => None
      end
  | Optional cs :: k =>
      match t with
      | c :: t' =>
          if mem cs c
          then match exec k t' marks with
               | Some r => Some r
               | None => exec k t marks
               end
          else exec k t marks
      | [] => exec k t marks
      end
  | Repeat1 cs :: k =>
      match t with
      | c :: t' =>
          if mem cs c then greedy cs (fun u => exec k u marks) t' else None
      | [] => None
      end
  | Mark :: k => exec k t (t :: marks)
  end.

(** The text between two marks: what [a] has in front of [b]. *)
Definition between (a b : str) : str := firstn (length a - length b) a.

(** A match object of a pattern with three groups. *)
Record re_match : Type := MkMatch {
  m_line : str;            (* the string searched *)
  m_start : nat;           (* where the match starts *)
  m_marks : list str;      (* the marks, latest first *)
  m_rest : str             (* the text after the match *)
}.

Definition mark (m : re_match) (i : nat) : str :=
  nth (length (m_marks m) - 1 - i) (m_marks m) [].

(** [match.group(n)], [match.start(n)] for n = 1, 2, 3. *)
Definition group (m : re_match) (n : nat) : str :=
  between (mark m (2 * n - 2)) (mark m (2 * n - 1)).

Definition group_start (m : re_match) (n : nat) : nat :=
  length (m_line m) - length (mark m (2 * n - 2)).

(** [pattern.search(line)]: the first position, from the left, where the
    pattern matches. *)
Fixpoint search_from (prog : list node) (line t : str) (pos : nat)
  : option re_match :=
  match exec prog t [] with
  | Some (marks, rest) => Some (MkMatch line pos marks rest)
  | None =>
      match t with
      | _ :: t' => search_from prog line t' (S pos)
      | [] => None
      end
  end.

Definition search (prog : list node) (line : str) : option re_match :=
  search_from prog line line 0.

(** The pattern of [parse_file]:
    [ptp4l\[\d+\]: ptp4l\[\d+.\d+\]: master offset\s+([+-]?\d+)\s+s2 freq\s+([+-]?\d+)\s+path delay\s+(\d+)] *)
Definition re_pattern : list node :=
  lit "ptp4l[" ++ [Repeat1 CsDigit] ++ lit "]: ptp4l["
  ++ [Repeat1 CsDigit; One CsAny; Repeat1 CsDigit]
  ++ lit "]: master offset" ++ [Repeat1 CsSpace]
  ++ [Mark; Optional CsSign; Repeat1 CsDigit; Mark]
  ++ [Repeat1 CsSpace] ++ lit "s2 freq" ++ [Repeat1 CsSpace]
  ++ [Mark; Optional CsSign; Repeat1 CsDigit; Mark]
  ++ [Repeat1 CsSpace] ++ lit "path delay" ++ [Repeat1 CsSpace]
  ++ [Mark; Repeat1 CsDigit; Mark].

(** ** Floats *)

Definition float := spec_float.

Definition prec : Z := 53.
Definition emax : Z := 1024.

(** The binary64 value nearest to an integer (ties to even). *)
Definition float_of_Z (z : Z) : float := binary_normalize prec emax z 0 false.

Definition digit_val (c : ascii) : Z := Z.of_nat (code c) - 48.

Definition digits_val (t : str) : Z :=
  fold_left (fun acc c => 10 * acc + digit_val c)%Z t 0%Z.

(** [float(text)] for the texts the groups capture: an optional sign and
    decimal digits. The conversion is correctly rounded; a value too large
    for binary64 gives an infinity and ["-0"] gives the negative zero. *)
Definition float_of_str (t : str) : float :=
  match t with
  | "-"%char :: ds =>
      match digits_val ds with
      | Z0 => S754_zero true
      | z => float_of_Z (- z)
      end
  | "+"%char :: ds => float_of_Z (digits_val ds)
  | _ => float_of_Z (digits_val t)
  end.

(** The integer a float denotes, when it denotes one. *)
Definition Z_of_float (x : float) : option Z :=
  match x with
  | S754_zero _ => Some 0%Z
  | S754_finite sg m (Zneg p) =>
      if (Z.modulo (Zpos m) (Z.pow 2 (Zpos p)) =? 0)%Z
      then Some (cond_Zopp sg (Z.div (Zpos m) (Z.pow 2 (Zpos p))))
      else None
  | S754_finite sg m e => Some (cond_Zopp sg (Zpos m * Z.pow 2 e)%Z)
  | _ => None
  end.

(** The literal [0.05]: 0x3FA999999999999A. *)
Definition alpha : float := S754_finite false 7205759403792794 (-57).

Definition flt (x y : float) : bool := SFltb x y.

(** Neither an infinity nor a NaN. *)
Definition is_finite (x : float) : bool :=
  match x with
  | S754_zero _ | S754_finite _ _ _ => true
  | _ => false
  end.

(** Binary64 arithmetic: rounding to nearest, ties to even. *)
Definition fadd (x y : float) : float := SFadd prec emax x y.
Definition fsub (x y : float) : float := SFsub prec emax x y.
Definition fmul (x y : float) : float := SFmul prec emax x y.
Definition fdiv (x y : float) : float := SFdiv prec emax x y.

(** The squares of the deviations from [mu]. *)
Definition squared_deviations (mu : float) (xs : list float) : list float :=
  map (fun x => fmul (fsub x mu) (fsub x mu)) xs.





(** ** Exceptions and effects *)

(** The exceptions the script meets; all of them derive from [Exception]. *)
Inductive exn : Type :=
| OSError (msg : str)            (* open: missing or unreadable file *)
| UnicodeDecodeError (msg : str) (* readlines: undecodable bytes *)
| TypeError (msg : str)
| ValueError (msg : str)
| KeyError (key : str).

Inductive result (A : Type) : Type :=
| Ret (a : A)
| Raise (e : exn).

Arguments Ret {A} a.
Arguments Raise {A} e.

(** A piece of a formatted string: literal text, a float under [:.Nf],
    or the text of an exception. *)
Inductive seg : Type :=
| Txt (t : str)
| Num (digits : nat) (x : float)
| Err (e : exn).

(** What the script does to the outside: [print], [os.makedirs] and the
    calls of [matplotlib.pyplot], each recorded when it has returned. *)
Inductive effect : Type :=
| Print (line : list seg)
| MakeDirs (dir : str)
| PltFigure (width height : nat)
| PltPlot (data : list float) (color : str)
| PltTitle (t : str)
| PltXlabel (t : str)
| PltYlabel (t : str)
| PltYlim (lo hi : float)
| PltGrid
| PltSavefig (file : str)
| PltClose.

Definition M (A : Type) : Type := (list effect * result A)%type.

Definition ret {A} (a : A) : M A := ([], Ret a).

Definition raise {A} (e : exn) : M A := ([], Raise e).

Definition bind {A B} (m : M A) (f : A -> M B) : M B :=
  match m with
  | (out, Ret a) => let (out', r) := f a in (out ++ out', r)
  | (out, Raise e) => (out, Raise e)
  end.

Definition lift {A} (r : result A) : M A := ([], r).

Definition emit (e : effect) : M unit := ([e], Ret tt).

Definition print (line : list seg) : M unit := emit (Print line).

(** [try: body except Exception as err: handler err]. What [body] did
    before it raised stays done. *)
Definition try_except {A} (body : M A) (handler : exn -> M A) : M A :=
  match body with
  | (out, Raise e) => let (out', r) := handler e in (out ++ out', r)
  | ok => ok
  end.

Definition output {A} (m : M A) : list effect := fst m.
Definition outcome {A} (m : M A) : result A := snd m.

Declare Scope monad_scope.
Delimit Scope monad_scope with monad.
Notation "x <- m ;; k" := (bind m (fun x => k))
  (at level 61, m at next level, right associativity) : monad_scope.
Notation "' p <- m ;; k" := (bind m (fun x => let p := x in k))
  (at level 61, p pattern, m at next level, right associativity) : monad_scope.
Notation "m ;; k" := (bind m (fun _ => k))
  (at level 61, right associativity) : monad_scope.
Open Scope monad_scope.

(** [for x in xs: body] threading the loop's variables [st]. *)
Fixpoint for_each {A St} (xs : list A) (body : St -> A -> M St) (st : St)
  : M St :=
  match xs with
  | [] => ret st
  | x :: xs' => st' <- body st x ;; for_each xs' body st'
  end.

(** ** The libraries the script calls *)

Definition zero_size (op : string) : exn :=
  ValueError (s "zero-size array to reduction operation " ++ s op
              ++ s " which has no identity").

(** What [matplotlib] raises when an axis limit is not a finite number. *)
Definition axis_limits : exn :=
  ValueError (s "Axis limits cannot be NaN or Inf").

(** [numpy] on one-dimensional float arrays. The reductions [min] and
    [max] have no identity: they raise on an empty array and return a
    value otherwise. [std] is the population deviation (ddof = 0): the
    square root of the [mean] of the squared deviations from the [mean].
    How [mean] sums is left to the library; the mean of zeros is zero. *)
Class NumPy : Type := {
  np_mean : list float -> float;
  np_std : list float -> float;
  np_min : list float -> result float;
  np_max : list float -> result float;
  np_min_empty : np_min [] = Raise (zero_size "minimum");
  np_max_empty : np_max [] = Raise (zero_size "maximum");
  np_min_some : forall x xs, exists v, np_min (x :: xs) = Ret v;
  np_max_some : forall x xs, exists v, np_max (x :: xs) = Ret v;
  np_std_mean :
    forall xs,
      np_std xs
      = SFsqrt prec emax (np_mean (squared_deviations (np_mean xs) xs));
  np_mean_zeros :
    forall n, np_mean (repeat (S754_zero false) (S n)) = S754_zero false
}.

(** [scipy.stats]: a test returns a pair (statistic, p-value) or raises;
    [mannwhitneyu] returns on two samples of nonzero size. *)
Class SciPy : Type := {
  shapiro : list float -> result (float * float);
  mannwhitneyu : list float -> list float -> result (float * float);
  mannwhitneyu_some :
    forall x xs y ys, exists r, mannwhitneyu (x :: xs) (y :: ys) = Ret r
}.

(** [matplotlib.pyplot]: the two calls of the script that can fail.
    [ylim lo hi] raises a [ValueError] when a limit is an infinity or a
    NaN. [savefig] draws the current figure, which holds the data, a title
    and the limits, and writes it to the file; when it returns and when
    it raises is the library's business. *)
Class PyPlot : Type := {
  plt_ylim : float -> float -> result unit;
  plt_savefig : list float -> str -> float -> float -> str -> result unit;
  plt_ylim_finite :
    forall lo hi,
      is_finite lo && is_finite hi = false -> plt_ylim lo hi = Raise axis_limits
}.

(** [open(path, 'r').readlines()]: the lines of the file, or the
    exception that opening or decoding raised. *)
Class FileSystem : Type := {
  readlines : str -> result (list str)
}.

(** [os.path.dirname] (posixpath). *)
Fixpoint rstrip_slash_rev (r : str) : str :=
  match r with
  | "/"%char :: r' => rstrip_slash_rev r'
  | _ => r
  end.

Fixpoint head_rev (r : str) : str :=
  match r with
  | [] => []
  | "/"%char :: _ => r
  | _ :: r' => head_rev r'
  end.

Definition dirname (p : str) : str :=
  let head := head_rev (rev p) in
  match rstrip_slash_rev head with
  | [] => rev head
  | stripped => rev stripped
  end.

Definition tab : str := ["009"%char].
Definition nl : str := ["010"%char].

(** ** The script *)

Section Script.

Context {NP : NumPy} {SP : SciPy} {PP : PyPlot} {FS : FileSystem}.

Definition create_plot (data : list float) (device_name plot_type : str)
  : M unit :=
  let filename :=
    s "plots/" ++ lower device_name ++ s "-" ++ lower plot_type ++ s ".png" in
  emit (MakeDirs (dirname filename)) ;;
  max_value <- lift (np_max data) ;;
  min_value <- lift (np_min data) ;;
  emit (PltFigure 8 6) ;;
  emit (PltPlot data (s "red")) ;;
  emit (PltTitle (device_name ++ s " " ++ plot_type)) ;;
  emit (PltXlabel (s "Sample Number")) ;;
  emit (PltYlabel (s "Value (nanoseconds)")) ;;
  lift (plt_ylim min_value max_value) ;;
  emit (PltYlim min_value max_value) ;;
  emit PltGrid ;;
  lift (plt_savefig data (device_name ++ s " " ++ plot_type)
          min_value max_value filename) ;;
  emit (PltSavefig filename) ;;
  emit PltClose.

Definition create_offset_plot (data : list float) (device_name : str)
  : M unit :=
  create_plot data device_name (s "Offset").

Definition create_delay_plot (data : list float) (device_name : str)
  : M unit :=
  create_plot data device_name (s "Delay").

Definition not_enough (label : str) : list seg :=
  [Txt (tab ++ s "  Not enough data to perform Shapiro-Wilk test for ");
   Txt label; Txt (s ".")].

Definition looks_normal : list seg :=
  [Txt (tab ++ s "    Sample appears to be normally distributed.")].

Definition looks_not_normal : list seg :=
  [Txt (tab ++ s "    Sample does NOT appear to be normally distributed.")].

Definition test_line (stat p_value : float) : list seg :=
  [Txt (tab ++ s "    Statistic: "); Num 4 stat;
   Txt (s ", p-value: "); Num 4 p_value].

(** Runs the Shapiro-Wilk test and prints the results. *)
Definition run_shapiro_wilk (data : list float) (label : str) : M unit :=
  if length data <? 3 then
    print (not_enough label)
  else
    '(stat, p_value) <- lift (shapiro data) ;;
    print [Txt (tab ++ s "  Shapiro-Wilk Test for "); Txt label; Txt (s ":")] ;;
    print (test_line stat p_value) ;;
    if flt alpha p_value then print looks_normal
    else print looks_not_normal.

Definition reject_null : list seg :=
  [Txt (s "Reject Null Hypothesis (Significant difference between two samples)")].

Definition keep_null : list seg :=
  [Txt (s "Do not Reject Null Hypothesis (No significant difference between two samples)")].

Definition run_mannwhiteneyu_test (data1 data2 : list float) (label : str)
  : M unit :=
  '(stat, p_value) <- lift (mannwhitneyu data1 data2) ;;
  print [Txt (tab ++ s "  Mann-Whitney U Test for "); Txt label; Txt (s ":")] ;;
  print (test_line stat p_value) ;;
  if flt p_value alpha then print reject_null
  else print keep_null.

(** The loop of [parse_file] over the lines: the two lists grow by one
    value each at every line the pattern matches. *)
Definition scan_line (acc : list float * list float) (line : str)
  : list float * list float :=
  let (offsets, delays) := acc in
  match search re_pattern line with
  | Some m =>
      let offset := group m 1 in
      let frequency := group m 2 in
      let path_delay := group m 3 in
      (offsets ++ [float_of_str offset], delays ++ [float_of_str path_delay])
  | None => (offsets, delays)
  end.

Definition scan (lines : list str) : list float * list float :=
  fold_left scan_line lines ([], []).

Definition truthy {A} (l : list A) : bool :=
  match l with [] => false | _ => true end.

Definition no_valid_data : list seg :=
  [Txt (s "No valid offset or delay data found.")].

Definition stats_lines (title : str) (data : list float) : M unit :=
  print [Txt title] ;;
  print [Txt (tab ++ s "  Mean: "); Num 2 (np_mean data)] ;;
  lo <- lift (np_min data) ;;
  print [Txt (tab ++ s "  Min: "); Num 2 lo] ;;
  hi <- lift (np_max data) ;;
  print [Txt (tab ++ s "  Max: "); Num 2 hi] ;;
  print [Txt (tab ++ s "  Std Dev: "); Num 2 (np_std data)].

Definition parse_file (path name : str)
  : M (option (list float * list float)) :=
  lines <- lift (readlines path) ;;
  let (offsets, delays) := scan lines in
  if truthy offsets && truthy delays then
    let offset_data := offsets in
    let delay_data := delays in
    stats_lines (tab ++ s "Offset Stats:") offset_data ;;
    run_shapiro_wilk offset_data (s "Offsets") ;;
    create_offset_plot offset_data name ;;
    stats_lines (nl ++ tab ++ s "Delay Stats:") delay_data ;;
    run_shapiro_wilk delay_data (s "Delays") ;;
    create_delay_plot delay_data name ;;
    ret (Some (offset_data, delay_data))
  else
    print no_valid_data ;;
    ret None.

(** A [dict] from host names to arrays; it keeps the order in which the
    keys were inserted. *)
Definition dict : Type := list (str * list float).

Fixpoint dict_set (d : dict) (k : str) (v : list float) : dict :=
  match d with
  | [] => [(k, v)]
  | (k', v') :: d' =>
      if str_eqb k' k then (k', v) :: d' else (k', v') :: dict_set d' k v
  end.

Fixpoint dict_get (d : dict) (k : str) : result (list float) :=
  match d with
  | [] => Raise (KeyError k)
  | (k', v) :: d' => if str_eqb k' k then Ret v else dict_get d' k
  end.

Definition keys (d : dict) : list str := map fst d.

(** [offset, delay = value]: unpacking [None] is a [TypeError]. *)
Definition unpack (value : option (list float * list float))
  : result (list float * list float) :=
  match value with
  | Some value => Ret value
  | None => Raise (TypeError (s "cannot unpack non-iterable NoneType object"))
  end.

Definition machines (dir : str) : list (str * str) :=
  [(s "Beta", path_join dir (s "beta.log"));
   (s "Charlie", path_join dir (s "charlie.log"));
   (s "Delta", path_join dir (s "delta.log"));
   (s "Echo", path_join dir (s "echo.log"))].

(** The body of the two parsing loops of [main]; [st] holds the offset
    and the delay dictionary being filled. *)
Definition parse_host (st : dict * dict) (machine : str * str)
  : M (dict * dict) :=
  let (name, path) := machine in
  let (offset_data, delay_data) := st in
  print [Txt name] ;;
  try_except
    (value <- parse_file path name ;;
     '(offset, delay) <- lift (unpack value) ;;
     let offset_data := dict_set offset_data name offset in
     let delay_data := dict_set delay_data name delay in
     print [] ;;
     ret (offset_data, delay_data))
    (fun err =>
       print [Txt (s "["); Txt name; Txt (s "] Error: "); Err err] ;;
       ret (offset_data, delay_data)).

Definition comparing (name : str) (metric : string) : list seg :=
  [Txt (s "Comparing Control vs Experimental for "); Txt name;
   Txt (s " " ++ s metric ++ s ":")].

(** The body of the comparison loop of [main]. *)
Definition compare_host (control experimental : dict * dict) (name : str)
  : M unit :=
  print (comparing name "Offsets") ;;
  print [] ;;
  c <- lift (dict_get (fst control) name) ;;
  e <- lift (dict_get (fst experimental) name) ;;
  run_mannwhiteneyu_test c e (name ++ s " Offsets") ;;
  print [] ;;
  print (comparing name "Delays") ;;
  c <- lift (dict_get (snd control) name) ;;
  e <- lift (dict_get (snd experimental) name) ;;
  run_mannwhiteneyu_test c e (name ++ s " Delays") ;;
  print [].

Definition main (control_path : str) (experimental_path : option str)
  : M unit :=
  control <- for_each (machines control_path) parse_host ([], []) ;;
  match experimental_path with
  | Some experimental_path =>
      experimental <-
        for_each (machines experimental_path) parse_host ([], []) ;;
      for_each (keys (fst control))
        (fun _ name => compare_host control experimental name) tt
  | None => ret tt
  end.

Definition usage : list seg :=
  [Txt (s "Usage: python main.py <control> [experimental]")].

(** The [__main__] block: what is printed and done, and the exit status
    of the process. An exception that leaves [main] ends the process
    with status 1. *)
Definition script (argv : list str) : list effect * Z :=
  if (4 <? length argv) || (length argv <? 2) then
    ([Print usage], 1%Z)
  else
    let run :=
      if length argv =? 2 then main (nth 1 argv []) None
      else main (nth 1 argv []) (Some (nth 2 argv [])) in
    match run with
    | (out, Ret _) => (out, 0%Z)
    | (out, Raise _) => (out, 1%Z)
    end.

End Script.

(** * The vocabulary of the properties

    What the statements below are written with: the match objects of a
    file, the report of the parser, what a batch compares, the shape of a
    matching line, and example data. *)

Section Vocabulary.

Context {NP : NumPy} {SP : SciPy} {PP : PyPlot} {FS : FileSystem}.

(** The match objects of the lines that match, in the order of the lines. *)
Definition matches (lines : list str) : list re_match :=
  flat_map (fun line => match search re_pattern line with
                        | Some m => [m]
                        | None => []
                        end) lines.

Definition offset_of (m : re_match) : float := float_of_str (group m 1).
Definition delay_of (m : re_match) : float := float_of_str (group m 3).

Definition shapiro_header (label : str) : list seg :=
  [Txt (tab ++ s "  Shapiro-Wilk Test for "); Txt label; Txt (s ":")].

Definition mannwhitney_header (label : str) : list seg :=
  [Txt (tab ++ s "  Mann-Whitney U Test for "); Txt label; Txt (s ":")].

(** The report of [parse_file] on a sample that is not empty. *)
Definition report (name : str) (offsets delays : list float) : M unit :=
  stats_lines (tab ++ s "Offset Stats:") offsets ;;
  run_shapiro_wilk offsets (s "Offsets") ;;
  create_offset_plot offsets name ;;
  stats_lines (nl ++ tab ++ s "Delay Stats:") delays ;;
  run_shapiro_wilk delays (s "Delays") ;;
  create_delay_plot delays name.

Definition sample_line : str :=
  s "ptp4l[100]: ptp4l[1.5]: master offset   10 s2 freq   5 path delay   20".

Definition log_line (offset freq delay : string) : str :=
  s "ptp4l[100]: ptp4l[1.5]: master offset   " ++ s offset
  ++ s " s2 freq   " ++ s freq ++ s " path delay   " ++ s delay ++ nl.

Definition good_log : list str :=
  [log_line "10" "5" "20"; s "ptp4l[100]: selected best master clock" ++ nl;
   log_line "-3" "+7" "21"].

Definition junk_log : list str :=
  [s "ptp4l[100]: selected best master clock" ++ nl; nl].

(** Control logs of Beta (two samples) and Echo (nothing that matches);
    an experimental log of Charlie only. *)
Definition demo_files : list (str * list str) :=
  [(s "ctl/beta.log", good_log); (s "ctl/echo.log", junk_log);
   (s "exp/charlie.log", good_log)].

(** Both directories hold good logs of Beta and Delta. *)
Definition paired_files : list (str * list str) :=
  [(s "ctl/beta.log", good_log); (s "ctl/delta.log", good_log);
   (s "ctl/echo.log", junk_log);
   (s "exp/beta.log", good_log); (s "exp/delta.log", good_log);
   (s "exp/echo.log", good_log)].

Definition one : float := float_of_Z 1.

Definition matching (line : str) : bool :=
  match search re_pattern line with
  | Some _ => true
  | None => false
  end.

(** The binary64 values 10.0 and 20.0. *)
Definition ten : float := S754_finite false 5629499534213120 (-49).
Definition twenty : float := S754_finite false 5629499534213120 (-48).

(** The labels under which the comparator printed its heading, in order:
    one for every call of [run_mannwhiteneyu_test] in which the test
    returned. *)
Definition compared (out : list effect) : list str :=
  flat_map (fun e => match e with
                     | Print [Txt h; Txt label; Txt _] =>
                         if str_eqb h (tab ++ s "  Mann-Whitney U Test for ")
                         then [label] else []
                     | _ => []
                     end) out.

Definition hosts : list str := [s "Beta"; s "Charlie"; s "Delta"; s "Echo"].

Definition comparisons_of (names : list str) : list str :=
  flat_map (fun name => [name ++ s " Offsets"; name ++ s " Delays"]) names.

(** A run with both directories that ends normally after a comparison
    of each metric for every host. *)
Definition compares_every_host
  {NP : NumPy} {SP : SciPy} {PP : PyPlot} {FS : FileSystem}
  (control experimental : str) : Prop :=
  outcome (main control (Some experimental)) = Ret tt
  /\ compared (output (main control (Some experimental)))
     = comparisons_of hosts.

(** The parse of a host, a name and the path of its log, went through:
    [parse_file] returned the two samples. For that the log must have been
    read, one of its lines must have matched, and the report on the
    samples, with its two plots, must have come to its end. *)
Definition parsed (machine : str * str) : bool :=
  match outcome (parse_file (snd machine) (fst machine)) with
  | Ret (Some _) => true
  | _ => false
  end.

(** The hosts of a directory whose log was parsed, in the order of the
    batch. *)
Definition parsed_hosts (dir : str) : list str :=
  map fst (filter parsed (machines dir)).

Definition samples (path : str) : list float * list float :=
  match readlines path with
  | Ret lines => scan lines
  | Raise _ => ([], [])
  end.

(** The limits that [create_plot] passes to [ylim] are finite numbers. *)
Definition finite_limits (data : list float) : bool :=
  match np_min data, np_max data with
  | Ret lo, Ret hi => is_finite lo && is_finite hi
  | _, _ => false
  end.

(** What one turn of a parsing loop does to the two dictionaries. *)
Definition record_host (st : dict * dict) (machine : str * str)
  : dict * dict :=
  if parsed machine
  then (dict_set (fst st) (fst machine) (fst (samples (snd machine))),
        dict_set (snd st) (fst machine) (snd (samples (snd machine))))
  else st.

(** The entries a parsing loop adds for the machines [ms]; [sel] picks
    the offsets or the delays. *)
Definition entries (sel : list float * list float -> list float)
  (ms : list (str * str)) : dict :=
  map (fun m => (fst m, sel (samples (snd m)))) (filter parsed ms).

Definition error_line (name : str) (err : exn) : list seg :=
  [Txt (s "["); Txt name; Txt (s "] Error: "); Err err].

(** A run of the pattern [p] that consumes a prefix of [t]: it leaves [t']
    and pushes the marks that turn [mk] into [mk']. Unlike [exec] it says
    nothing about which run the matcher takes. *)
Fixpoint steps (p : list node) (t : str) (mk : list str) (t' : str)
  (mk' : list str) : Prop :=
  match p with
  | [] => t = t' /\ mk = mk'
  | One cs :: k =>
      exists c u, t = c :: u /\ mem cs c = true /\ steps k u mk t' mk'
  | Optional cs :: k =>
      (exists c u, t = c :: u /\ mem cs c = true /\ steps k u mk t' mk')
      \/ steps k t mk t' mk'
  | Repeat1 cs :: k =>
      exists c w u,
        t = c :: w ++ u /\ mem cs c = true /\ forallb (mem cs) w = true
        /\ steps k u mk t' mk'
  | Mark :: k => steps k t (t :: mk) t' mk'
  end.

(** The pattern in four parts: up to ["master offset"], the offset group
    and what follows it up to the frequency, the frequency group, and the
    rest. *)
Definition pat_head : list node :=
  lit "ptp4l[" ++ [Repeat1 CsDigit] ++ lit "]: ptp4l["
  ++ [Repeat1 CsDigit; One CsAny; Repeat1 CsDigit]
  ++ lit "]: master offset".

Definition pat_offset : list node :=
  [Repeat1 CsSpace; Mark; Optional CsSign; Repeat1 CsDigit; Mark;
   Repeat1 CsSpace] ++ lit "s2 freq" ++ [Repeat1 CsSpace; Mark].

Definition pat_freq : list node := [Optional CsSign; Repeat1 CsDigit; Mark].

Definition pat_delay : list node :=
  [Repeat1 CsSpace] ++ lit "path delay" ++ [Repeat1 CsSpace]
  ++ [Mark; Repeat1 CsDigit; Mark].

(** A non-empty run of characters of one class. *)
Definition run (P : ascii -> bool) (w : str) : Prop :=
  w <> [] /\ forallb P w = true.

(** An optional sign. *)
Definition sign_part (w : str) : Prop :=
  w = [] \/ exists c, w = [c] /\ is_sign c = true.

Definition unmarked (n : node) : bool :=
  match n with Mark => false | _ => true end.

(** A text that starts with a character outside the class [P]. *)
Definition stops (P : ascii -> bool) (b : str) : Prop :=
  match b with
  | c :: _ => P c = false
  | [] => False
  end.

(** Two lines that are the same but for the frequency field: neither
    matches and they are equal, or both match and they are one text
    around the second group of each. *)
Definition freq_variant (l1 l2 : str) : Prop :=
  match search re_pattern l1, search re_pattern l2 with
  | Some m1, Some m2 =>
      exists before after,
        l1 = before ++ group m1 2 ++ after
        /\ l2 = before ++ group m2 2 ++ after
        /\ group_start m1 2 = length before
        /\ group_start m2 2 = length before
  | None, None => l1 = l2
  | _, _ => False
  end.

Definition retuned_log : list str :=
  [log_line "10" "-40000" "20";
   s "ptp4l[100]: selected best master clock" ++ nl;
   log_line "-3" "8" "21"].

(** The files that were saved, in the order of the [savefig] calls. *)
Definition saved (out : list effect) : list str :=
  flat_map (fun e => match e with
                     | PltSavefig file => [file]
                     | _ => []
                     end) out.

(** The file of a plot, and the two files of a host. *)
Definition plot_file (device_name plot_type : str) : str :=
  s "plots/" ++ lower device_name ++ s "-" ++ lower plot_type ++ s ".png".

Definition plot_files (name : str) : list str :=
  [plot_file name (s "Offset"); plot_file name (s "Delay")].

(** The files saved while the log of a host was parsed. *)
Definition host_files (machine : str * str) : list str :=
  saved (output (parse_file (snd machine) (fst machine))).

(** What [create_plot] has done when it reaches [ylim]. *)
Definition plot_setup (data : list float) (device_name plot_type : str)
  : list effect :=
  [MakeDirs (dirname (plot_file device_name plot_type));
   PltFigure 8 6;
   PltPlot data (s "red");
   PltTitle (device_name ++ s " " ++ plot_type);
   PltXlabel (s "Sample Number");
   PltYlabel (s "Value (nanoseconds)")].

(** The exception [e] was raised by one of the calls of [scipy] or
    [matplotlib] that [parse_file] makes on a sample. *)
Definition library_raised (e : exn) : Prop :=
  (exists data, shapiro data = Raise e)
  \/ (exists lo hi, plt_ylim lo hi = Raise e)
  \/ (exists data title lo hi file,
        plt_savefig data title lo hi file = Raise e).

Definition known (names : list str) (name : str) : bool :=
  existsb (str_eqb name) names.

(** The names of [names] in front of the first one that [have] lacks,
    and that one. *)
Fixpoint until_missing (names have : list str) : list str * option str :=
  match names with
  | [] => ([], None)
  | name :: rest =>
      if known have name
      then let (done, miss) := until_missing rest have in (name :: done, miss)
      else ([], Some name)
  end.

Definition unpack_none : exn :=
  TypeError (s "cannot unpack non-iterable NoneType object").

(** What is left of [u] after its longest prefix in the class [P]. *)
Fixpoint skip (P : ascii -> bool) (u : str) : str :=
  match u with
  | c :: u' => if P c then skip P u' else u
  | [] => []
  end.

(** The sign bit of a float; a NaN has none. *)
Definition is_negative (x : float) : bool :=
  match x with
  | S754_zero sg | S754_infinity sg | S754_finite sg _ _ => sg
  | S754_nan => false
  end.

(** The integer that a text of an optional sign and digits denotes. *)
Definition int_of_str (t : str) : Z :=
  match t with
  | "-"%char :: ds => (- digits_val ds)%Z
  | "+"%char :: ds => digits_val ds
  | _ => digits_val t
  end.

(** The pattern [prog] has a run on the text [t]. *)
Definition has_run (prog : list node) (t : str) : Prop :=
  exists t' mk', steps prog t [] t' mk'.

(** The last part of the pattern in front of its group, and that group. *)
Definition pat_delay_head : list node :=
  [Repeat1 CsSpace] ++ lit "path delay" ++ [Repeat1 CsSpace].

Definition pat_delay_group : list node := [Mark; Repeat1 CsDigit; Mark].

(** No digit comes next in [t]. *)
Definition no_digit_ahead (t : str) : Prop :=
  match t with
  | c :: _ => is_digit c = false
  | [] => True
  end.

(** A text without a slash. *)
Definition no_slash (t : str) : bool :=
  forallb (fun c => negb (Ascii.eqb c "/"%char)) t.

(** An optional sign and digits. *)
Definition signed_digits (g : str) : Prop :=
  exists sg dg, sign_part sg /\ run is_digit dg /\ g = sg ++ dg.

(** The text of a record: what the pattern matches, piece by piece. *)
Definition record_text (d1 d2 : str) (c : ascii)
  (d3 w1 g1 w2 w3 g2 w4 w5 g3 : str) : str :=
  s "ptp4l[" ++ d1 ++ s "]: ptp4l[" ++ d2 ++ c :: d3
  ++ s "]: master offset" ++ w1 ++ g1 ++ w2 ++ s "s2 freq" ++ w3 ++ g2
  ++ w4 ++ s "path delay" ++ w5 ++ g3.

Definition is_record (d1 d2 : str) (c : ascii)
  (d3 w1 g1 w2 w3 g2 w4 w5 g3 : str) : Prop :=
  run is_digit d1 /\ run is_digit d2 /\ c <> "010"%char /\ run is_digit d3
  /\ run is_space w1 /\ signed_digits g1 /\ run is_space w2
  /\ run is_space w3 /\ signed_digits g2 /\ run is_space w4
  /\ run is_space w5 /\ run is_digit g3.

(** The dictionaries the two parsing loops leave. *)
Definition loaded (dir : str) : dict * dict :=
  (entries fst (machines dir), entries snd (machines dir)).

(** A line that holds two records. *)
Definition two_records : str :=
  s "ptp4l[1]: ptp4l[1.5]: master offset 1 s2 freq 2 path delay 3 "
  ++ s "ptp4l[1]: ptp4l[2.5]: master offset 4 s2 freq 5 path delay 6".

(** The exact value of a finite float, counted in units of 2^-1074, the
    least positive binary64 number: an integer. *)
Definition units (x : float) : Z :=
  match x with
  | S754_finite sg m e => (cond_Zopp sg (Zpos m) * 2 ^ (e + 1074))%Z
  | _ => 0%Z
  end.

(** The unit in the last place of a finite float, in the same units. *)
Definition ulp (x : float) : Z :=
  match x with
  | S754_finite _ _ e => (2 ^ (e + 1074))%Z
  | _ => 0%Z
  end.

(** [x] is a binary64 number nearest to the fraction [num / den]: a
    number of 53 significant bits within half a unit in the last place
    of the fraction. *)
Definition nearest (num den : Z) (x : float) : Prop :=
  valid_binary prec emax x = true
  /\ (2 ^ 52 * ulp x <= Z.abs (units x))%Z
  /\ (2 * Z.abs (den * units x - num * 2 ^ 1074) <= den * ulp x)%Z.

(** What the literal [0.05] denotes: 0.05000000000000000277... *)
Definition five_hundredths : float :=
  S754_finite false 7205759403792794 (-57).

(** The order of the values: [x] is above, or below, the finite number
    [t]. A NaN is neither. *)
Definition above (t x : float) : bool :=
  match x with
  | S754_nan => false
  | S754_infinity sg => negb sg
  | _ => (units t <? units x)%Z
  end.

Definition below (t x : float) : bool :=
  match x with
  | S754_nan => false
  | S754_infinity sg => sg
  | _ => (units x <? units t)%Z
  end.

(** A number of 310 digits, beyond the range of binary64, and a log whose
    one record has it as offset. *)
Definition huge : str := "1"%char :: repeat "0"%char 309.

Definition overflow_log : list str :=
  [s "ptp4l[100]: ptp4l[1.5]: master offset   " ++ huge
   ++ s " s2 freq   5 path delay   20" ++ nl].

(** A good control log of Beta; the experimental one overflows. *)
Definition overflow_files : list (str * list str) :=
  [(s "ctl/beta.log", good_log); (s "exp/beta.log", overflow_log)].



End Vocabulary.

(** * Instances of the interfaces

    One implementation of each interface, to run the script on examples:
    sequential binary64 arithmetic for [numpy] (that it obeys the laws of
    the interface is shown with the properties), tests that answer with a
    fixed p-value, a [pyplot] that fails on limits that are not finite and
    nowhere else, and a file system given by a table. *)

Definition fsum (xs : list float) : float :=
  fold_left fadd xs (S754_zero false).

Definition fcount (xs : list float) : float :=
  float_of_Z (Z.of_nat (length xs)).

Definition seq_mean (xs : list float) : float := fdiv (fsum xs) (fcount xs).

Definition seq_std (xs : list float) : float :=
  SFsqrt prec emax (seq_mean (squared_deviations (seq_mean xs) xs)).

Definition fmin (x y : float) : float := if SFltb y x then y else x.
Definition fmax (x y : float) : float := if SFltb x y then y else x.

Definition seq_reduce (op : float -> float -> float) (name : string)
  (xs : list float) : result float :=
  match xs with
  | [] => Raise (zero_size name)
  | x :: xs' => Ret (fold_left op xs' x)
  end.

Definition fixed_shapiro (p : float) (xs : list float)
  : result (float * float) :=
  if length xs <? 3 then Raise (ValueError (s "Data must be at least length 3."))
  else Ret (float_of_Z 1, p).

Definition fixed_mannwhitneyu (p : float) (xs ys : list float)
  : result (float * float) :=
  Ret (float_of_Z 0, p).

#[refine] Instance fixed_scipy (p : float) : SciPy := {
  shapiro := fixed_shapiro p;
  mannwhitneyu := fixed_mannwhitneyu p
}.
Proof.
  intros. eexists. reflexivity.
Defined.

#[refine] Instance plain_pyplot : PyPlot := {
  plt_ylim lo hi :=
    if is_finite lo && is_finite hi then Ret tt else Raise axis_limits;
  plt_savefig _ _ _ _ _ := Ret tt
}.
Proof.
  intros lo hi H. now rewrite H.
Defined.

(** A file system holding the files of [table]; any other path is
    missing. *)
Fixpoint lookup_file (table : list (str * list str)) (path : str)
  : result (list str) :=
  match table with
  | [] => Raise (OSError (s "[Errno 2] No such file or directory"))
  | (p, lines) :: table' =>
      if str_eqb p path then Ret lines else lookup_file table' path
  end.

Instance table_fs (table : list (str * list str)) : FileSystem := {
  readlines := lookup_file table
}.

(** * Properties *)

Arguments s : simpl never.

(** ** Sequential arithmetic as an instance of [numpy] *)

(** The float of a positive integer is a positive number or the positive
    infinity: rounding it yields neither a zero nor a NaN. *)

Lemma shr_1_positive (q : positive) (r s : bool) :
  (1 < Zpos (digits2_pos q))%Z ->
  exists q' r' s',
    shr_1 {| shr_m := Zpos q; shr_r := r; shr_s := s |}
    = {| shr_m := Zpos q'; shr_r := r'; shr_s := s' |}
    /\ Zpos (digits2_pos q') = (Zpos (digits2_pos q) - 1)%Z.
Proof.
  destruct q as [q | q |]; cbn [digits2_pos shr_1]; intros H.
  - eexists _, _, _. split; [reflexivity | lia].
  - eexists _, _, _. split; [reflexivity | lia].
  - simpl in H. lia.
Qed.

Lemma iter_shr_1_positive (k : positive) :
  forall (q : positive) (r s : bool),
    (Zpos k < Zpos (digits2_pos q))%Z ->
    exists q' r' s',
      iter_pos shr_1 k {| shr_m := Zpos q; shr_r := r; shr_s := s |}
      = {| shr_m := Zpos q'; shr_r := r'; shr_s := s' |}
      /\ Zpos (digits2_pos q') = (Zpos (digits2_pos q) - Zpos k)%Z.
Proof.
  induction k as [k IH | k IH |]; intros q r s H; cbn [iter_pos].
  - destruct (shr_1_positive q r s) as (q1 & r1 & s1 & -> & H1); [lia |].
    destruct (IH q1 r1 s1) as (q2 & r2 & s2 & -> & H2); [lia |].
    destruct (IH q2 r2 s2) as (q3 & r3 & s3 & -> & H3); [lia |].
    exists q3, r3, s3. split; [reflexivity | lia].
  - destruct (IH q r s) as (q2 & r2 & s2 & -> & H2); [lia |].
    destruct (IH q2 r2 s2) as (q3 & r3 & s3 & -> & H3); [lia |].
    exists q3, r3, s3. split; [reflexivity | lia].
  - apply shr_1_positive. exact H.
Qed.

Lemma shr_fexp_positive (q : positive) (e : Z) (l : location) :
  (-1074 <= e)%Z ->
  exists q' r' s' e',
    shr_fexp prec emax (Zpos q) e l
    = ({| shr_m := Zpos q'; shr_r := r'; shr_s := s' |}, e')
    /\ (-1074 <= e')%Z.
Proof.
  intros He. unfold shr_fexp, shr.
  assert (Hrec : exists r s,
             shr_record_of_loc (Zpos q) l
             = {| shr_m := Zpos q; shr_r := r; shr_s := s |})
    by (destruct l as [| []]; eexists _, _; reflexivity).
  destruct Hrec as (r & s & ->).
  destruct (fexp prec emax (Zdigits2 (Zpos q) + e) - e)%Z as [| k | k] eqn:Hk.
  - now exists q, r, s, e.
  - destruct (iter_shr_1_positive k q r s) as (q' & r' & s' & -> & _).
    + revert Hk. unfold fexp, emin, prec, emax, Zdigits2. lia.
    + exists q', r', s', (e + Zpos k)%Z. split; [reflexivity | lia].
  - now exists q, r, s, e.
Qed.

Lemma binary_round_aux_positive (sx : bool) (q : positive) (e : Z)
  (l : location) :
  (-1074 <= e)%Z ->
  (exists m' e', binary_round_aux prec emax sx (Zpos q) e l
                 = S754_finite sx m' e')
  \/ binary_round_aux prec emax sx (Zpos q) e l = S754_infinity sx.
Proof.
  intros He. unfold binary_round_aux.
  destruct (shr_fexp_positive q e l He) as (q1 & r1 & s1 & e1 & -> & He1).
  cbn [shr_m].
  assert (Hpos : exists q2,
             round_nearest_even (Zpos q1)
               (loc_of_shr_record
                  {| shr_m := Zpos q1; shr_r := r1; shr_s := s1 |})
             = Zpos q2).
  { unfold round_nearest_even.
    destruct (loc_of_shr_record _) as [| []];
      try destruct (IntDef.Z.even (Zpos q1));
      try (now exists q1); now exists (q1 + 1)%positive. }
  destruct Hpos as (q2 & ->).
  destruct (shr_fexp_positive q2 e1 loc_Exact He1)
    as (q3 & r3 & s3 & e3 & -> & _).
  cbn [shr_m]. destruct (Z.leb e3 (emax - prec)); [left | now right].
  now exists q3, e3.
Qed.

Lemma float_of_Z_positive (p : positive) :
  (exists m e, float_of_Z (Zpos p) = S754_finite false m e)
  \/ float_of_Z (Zpos p) = S754_infinity false.
Proof.
  unfold float_of_Z, binary_normalize, binary_round, shl_align.
  destruct (fexp prec emax (Zpos (digits2_pos p) + 0) - 0)%Z as [| k | k] eqn:Hk;
    apply binary_round_aux_positive; try lia.
  revert Hk. unfold fexp, emin, prec, emax. lia.
Qed.

Lemma fsum_zeros (n : nat) :
  fold_left fadd (repeat (S754_zero false) n) (S754_zero false)
  = S754_zero false.
Proof. induction n as [| n IH]; [reflexivity | exact IH]. Qed.

Lemma seq_mean_zeros (n : nat) :
  seq_mean (repeat (S754_zero false) (S n)) = S754_zero false.
Proof.
  unfold seq_mean, fsum, fcount. rewrite fsum_zeros, repeat_length.
  cbn [Z.of_nat].
  destruct (float_of_Z_positive (Pos.of_succ_nat n)) as [(m & e & ->) | ->];
    reflexivity.
Qed.

#[export, refine] Instance seq_numpy : NumPy := {
  np_mean := seq_mean;
  np_std := seq_std;
  np_min := seq_reduce fmin "minimum";
  np_max := seq_reduce fmax "maximum"
}.
Proof.
  - reflexivity.
  - reflexivity.
  - intros x xs. eexists. reflexivity.
  - intros x xs. eexists. reflexivity.
  - reflexivity.
  - exact seq_mean_zeros.
Defined.

(** ** The monad *)

Lemma outcome_bind {A B} (m : M A) (f : A -> M B) :
  outcome (bind m f) =
  match outcome m with
  | Ret a => outcome (f a)
  | Raise e => Raise e
  end.
Proof.
  destruct m as [out [a | e]]; simpl; [| reflexivity].
  destruct (f a); reflexivity.
Qed.

Lemma output_bind {A B} (m : M A) (f : A -> M B) :
  output (bind m f) =
  output m ++ match outcome m with
              | Ret a => output (f a)
              | Raise _ => []
              end.
Proof.
  destruct m as [out [a | e]]; simpl.
  - destruct (f a); reflexivity.
  - now rewrite app_nil_r.
Qed.

Lemma M_eta {A} (m : M A) : m = (output m, outcome m).
Proof. now destruct m. Qed.



Lemma bind_ret_l {A B} (out : list effect) (a : A) (f : A -> M B) :
  bind (out, Ret a) f = (out ++ output (f a), outcome (f a)).
Proof. simpl. now destruct (f a). Qed.

Lemma bind_assoc {A B C} (m : M A) (f : A -> M B) (g : B -> M C) :
  bind (bind m f) g = bind m (fun a => bind (f a) g).
Proof.
  destruct m as [out [a | e]]; simpl; [| reflexivity].
  destruct (f a) as [out' [b | e]]; simpl; [| reflexivity].
  destruct (g b). now rewrite app_assoc.
Qed.

Lemma bind_ext {A B} (m : M A) (f g : A -> M B) :
  (forall a, f a = g a) -> bind m f = bind m g.
Proof.
  intros H. destruct m as [out [a | e]]; simpl; [now rewrite H | reflexivity].
Qed.

Lemma bind_ret_r {A B} (m : M A) (b : B) :
  bind m (fun _ => ret b)
  = (output m, match outcome m with
               | Ret _ => Ret b
               | Raise e => Raise e
               end).
Proof.
  destruct m as [out [a | e]]; simpl; [now rewrite app_nil_r | reflexivity].
Qed.

(** ** The lines that match *)

Lemma scan_from (lines : list str) (offsets delays : list float) :
  fold_left scan_line lines (offsets, delays) =
  (offsets ++ map offset_of (matches lines),
   delays ++ map delay_of (matches lines)).
Proof.
  revert offsets delays.
  induction lines as [| line lines IH]; intros offsets delays; simpl.
  - now rewrite !app_nil_r.
  - rewrite map_app, map_app.
    destruct (search re_pattern line) as [m |]; simpl.
    + rewrite IH, <- !app_assoc. reflexivity.
    + apply IH.
Qed.

Lemma scan_matches (lines : list str) :
  scan lines = (map offset_of (matches lines), map delay_of (matches lines)).
Proof. unfold scan. now rewrite scan_from. Qed.

Lemma matches_none (lines : list str) :
  (forall line, In line lines -> search re_pattern line = None) ->
  matches lines = [].
Proof.
  induction lines as [| line lines IH]; intros H; simpl; [reflexivity |].
  rewrite (H line (or_introl eq_refl)). simpl.
  apply IH. intros l Hl. apply H. now right.
Qed.

(** ** What a call of the script's functions yields *)

Section Calls.

Context {NP : NumPy} {SP : SciPy} {PP : PyPlot} {FS : FileSystem}.

Lemma stats_lines_ok (title : str) (x : float) (xs : list float) :
  outcome (stats_lines title (x :: xs)) = Ret tt.
Proof.
  unfold stats_lines, lift, print, emit.
  destruct (np_min_some x xs) as [lo Hlo].
  destruct (np_max_some x xs) as [hi Hhi].
  rewrite Hlo, Hhi. reflexivity.
Qed.

Lemma create_plot_empty (dev ty : str) :
  outcome (create_plot [] dev ty) = Raise (zero_size "maximum").
Proof.
  unfold create_plot, lift, emit. rewrite np_max_empty. reflexivity.
Qed.

(** [create_plot] on an array whose reductions return: what it does and
    how it ends is decided by [ylim] and then by [savefig]. *)
Lemma create_plot_eq (data : list float) (dev ty : str) (lo hi : float) :
  np_min data = Ret lo ->
  np_max data = Ret hi ->
  create_plot data dev ty =
  match plt_ylim lo hi with
  | Raise e => (plot_setup data dev ty, Raise e)
  | Ret _ =>
      match plt_savefig data (dev ++ s " " ++ ty) lo hi (plot_file dev ty) with
      | Raise e =>
          (plot_setup data dev ty ++ [PltYlim lo hi; PltGrid], Raise e)
      | Ret _ =>
          (plot_setup data dev ty
           ++ [PltYlim lo hi; PltGrid; PltSavefig (plot_file dev ty); PltClose],
           Ret tt)
      end
  end.
Proof.
  intros Hlo Hhi. unfold create_plot, plot_setup, plot_file, lift, emit.
  rewrite Hlo, Hhi. simpl.
  destruct (plt_ylim lo hi) as [[] | e]; [| reflexivity].
  simpl.
  destruct (plt_savefig _ _ _ _ _) as [[] | e]; reflexivity.
Qed.

Lemma create_plot_outcome (data : list float) (dev ty : str) (lo hi : float) :
  np_min data = Ret lo ->
  np_max data = Ret hi ->
  outcome (create_plot data dev ty) =
  match plt_ylim lo hi with
  | Raise e => Raise e
  | Ret _ =>
      match plt_savefig data (dev ++ s " " ++ ty) lo hi (plot_file dev ty) with
      | Raise e => Raise e
      | Ret _ => Ret tt
      end
  end.
Proof.
  intros Hlo Hhi. rewrite (create_plot_eq data dev ty lo hi Hlo Hhi).
  destruct (plt_ylim lo hi) as [[] | e]; [| reflexivity].
  destruct (plt_savefig _ _ _ _ _) as [[] | e]; reflexivity.
Qed.

Lemma create_plot_not_finite (data : list float) (dev ty : str)
  (lo hi : float) :
  np_min data = Ret lo ->
  np_max data = Ret hi ->
  is_finite lo && is_finite hi = false ->
  create_plot data dev ty = (plot_setup data dev ty, Raise axis_limits).
Proof.
  intros Hlo Hhi Hfin.
  rewrite (create_plot_eq data dev ty lo hi Hlo Hhi).
  now rewrite (plt_ylim_finite lo hi Hfin).
Qed.

(** A plot that was drawn had finite limits. *)
Lemma create_plot_drawn (data : list float) (dev ty : str) :
  outcome (create_plot data dev ty) = Ret tt -> finite_limits data = true.
Proof.
  unfold finite_limits.
  destruct data as [| x xs]; [now rewrite create_plot_empty |].
  destruct (np_min_some x xs) as [lo Hlo].
  destruct (np_max_some x xs) as [hi Hhi].
  rewrite Hlo, Hhi.
  destruct (is_finite lo && is_finite hi) eqn:Hfin; [reflexivity |].
  now rewrite (create_plot_not_finite _ dev ty lo hi Hlo Hhi Hfin).
Qed.

Lemma create_plot_raises (x : float) (xs : list float) (dev ty : str)
  (e : exn) :
  outcome (create_plot (x :: xs) dev ty) = Raise e -> library_raised e.
Proof.
  destruct (np_min_some x xs) as [lo Hlo].
  destruct (np_max_some x xs) as [hi Hhi].
  rewrite (create_plot_outcome _ dev ty lo hi Hlo Hhi).
  destruct (plt_ylim lo hi) as [[] | e1] eqn:Hy.
  - destruct (plt_savefig _ _ _ _ _) as [[] | e2] eqn:Hs; [discriminate |].
    intros [= <-]. right. right. eexists _, _, _, _, _. exact Hs.
  - intros [= <-]. right. left. now exists lo, hi.
Qed.

Lemma run_shapiro_wilk_small (data : list float) (label : str) :
  length data < 3 ->
  run_shapiro_wilk data label = ([Print (not_enough label)], Ret tt).
Proof.
  intros H. unfold run_shapiro_wilk.
  destruct (Nat.ltb_spec (length data) 3); [reflexivity | lia].
Qed.

Lemma run_shapiro_wilk_large (data : list float) (label : str)
  (stat p : float) :
  3 <= length data ->
  shapiro data = Ret (stat, p) ->
  run_shapiro_wilk data label =
  ([Print (shapiro_header label); Print (test_line stat p);
    Print (if flt alpha p then looks_normal else looks_not_normal)],
   Ret tt).
Proof.
  intros H Hs. unfold run_shapiro_wilk, lift, print, emit.
  destruct (Nat.ltb_spec (length data) 3); [lia |].
  rewrite Hs. simpl. now destruct (flt alpha p).
Qed.

Lemma run_shapiro_wilk_failed (data : list float) (label : str) (e : exn) :
  3 <= length data ->
  shapiro data = Raise e ->
  run_shapiro_wilk data label = ([], Raise e).
Proof.
  intros H Hs. unfold run_shapiro_wilk, lift.
  destruct (Nat.ltb_spec (length data) 3); [lia |].
  now rewrite Hs.
Qed.

Lemma run_shapiro_wilk_raises (data : list float) (label : str) (e : exn) :
  outcome (run_shapiro_wilk data label) = Raise e -> library_raised e.
Proof.
  destruct (Nat.lt_ge_cases (length data) 3) as [Hlt | Hge].
  - now rewrite run_shapiro_wilk_small.
  - destruct (shapiro data) as [[stat p] | e'] eqn:Hs.
    + now rewrite (run_shapiro_wilk_large data label stat p Hge Hs).
    + rewrite (run_shapiro_wilk_failed data label e' Hge Hs).
      intros [= <-]. left. now exists data.
Qed.

Lemma run_mannwhiteneyu_test_eq (d1 d2 : list float) (label : str)
  (stat p : float) :
  mannwhitneyu d1 d2 = Ret (stat, p) ->
  run_mannwhiteneyu_test d1 d2 label =
  ([Print (mannwhitney_header label); Print (test_line stat p);
    Print (if flt p alpha then reject_null else keep_null)],
   Ret tt).
Proof.
  intros Hs. unfold run_mannwhiteneyu_test, lift, print, emit.
  rewrite Hs. simpl. now destruct (flt p alpha).
Qed.

(** The report on samples that are not empty ends as the first of its
    two tests and two plots that raises does, and returns when none
    does. *)
Lemma report_outcome (name : str) (o : float) (os : list float)
  (d : float) (ds : list float) :
  outcome (report name (o :: os) (d :: ds)) =
  match outcome (run_shapiro_wilk (o :: os) (s "Offsets")) with
  | Raise e => Raise e
  | Ret _ =>
      match outcome (create_plot (o :: os) name (s "Offset")) with
      | Raise e => Raise e
      | Ret _ =>
          match outcome (run_shapiro_wilk (d :: ds) (s "Delays")) with
          | Raise e => Raise e
          | Ret _ => outcome (create_plot (d :: ds) name (s "Delay"))
          end
      end
  end.
Proof.
  unfold report, create_offset_plot, create_delay_plot.
  rewrite !outcome_bind, !stats_lines_ok. reflexivity.
Qed.

Lemma report_output (name : str) (o : float) (os : list float)
  (d : float) (ds : list float) :
  output (report name (o :: os) (d :: ds)) =
  output (stats_lines (tab ++ s "Offset Stats:") (o :: os))
  ++ output (run_shapiro_wilk (o :: os) (s "Offsets"))
  ++ match outcome (run_shapiro_wilk (o :: os) (s "Offsets")) with
     | Raise _ => []
     | Ret _ =>
         output (create_plot (o :: os) name (s "Offset"))
         ++ match outcome (create_plot (o :: os) name (s "Offset")) with
            | Raise _ => []
            | Ret _ =>
                output (stats_lines (nl ++ tab ++ s "Delay Stats:") (d :: ds))
                ++ output (run_shapiro_wilk (d :: ds) (s "Delays"))
                ++ match outcome (run_shapiro_wilk (d :: ds) (s "Delays")) with
                   | Raise _ => []
                   | Ret _ => output (create_plot (d :: ds) name (s "Delay"))
                   end
            end
     end.
Proof.
  unfold report, create_offset_plot, create_delay_plot.
  rewrite !output_bind, !stats_lines_ok. reflexivity.
Qed.

Lemma report_raises (name : str) (o : float) (os : list float)
  (d : float) (ds : list float) (e : exn) :
  outcome (report name (o :: os) (d :: ds)) = Raise e -> library_raised e.
Proof.
  rewrite report_outcome.
  destruct (outcome (run_shapiro_wilk (o :: os) _)) as [[] | e1] eqn:H1;
    [| intros [= <-]; exact (run_shapiro_wilk_raises _ _ _ H1)].
  destruct (outcome (create_plot (o :: os) _ _)) as [[] | e2] eqn:H2;
    [| intros [= <-]; exact (create_plot_raises _ _ _ _ _ H2)].
  destruct (outcome (run_shapiro_wilk (d :: ds) _)) as [[] | e3] eqn:H3;
    [| intros [= <-]; exact (run_shapiro_wilk_raises _ _ _ H3)].
  apply create_plot_raises.
Qed.

(** A report that came to its end drew both plots, so the limits of both
    samples were finite. *)
Lemma report_done (name : str) (o : float) (os : list float)
  (d : float) (ds : list float) :
  outcome (report name (o :: os) (d :: ds)) = Ret tt ->
  outcome (create_plot (o :: os) name (s "Offset")) = Ret tt
  /\ outcome (create_plot (d :: ds) name (s "Delay")) = Ret tt.
Proof.
  rewrite report_outcome.
  destruct (outcome (run_shapiro_wilk (o :: os) _)) as [[] |]; [| discriminate].
  destruct (outcome (create_plot (o :: os) _ _)) as [[] |]; [| discriminate].
  destruct (outcome (run_shapiro_wilk (d :: ds) _)) as [[] |]; [| discriminate].
  now split.
Qed.

End Calls.

Lemma parse_file_read
  {NP : NumPy} {SP : SciPy} {PP : PyPlot} {FS : FileSystem}
  (path name : str) (lines : list str) :
  readlines path = Ret lines ->
  parse_file path name =
  match matches lines with
  | [] => ([Print no_valid_data], Ret None)
  | _ => let offsets := map offset_of (matches lines) in
         let delays := map delay_of (matches lines) in
         (output (report name offsets delays),
          match outcome (report name offsets delays) with
          | Ret _ => Ret (Some (offsets, delays))
          | Raise e => Raise e
          end)
  end.
Proof.
  intros Hr. unfold parse_file, lift. rewrite Hr, bind_ret_l. simpl.
  rewrite scan_matches.
  destruct (matches lines) as [| m ms] eqn:Hm; [reflexivity |].
  cbv zeta.
  change (truthy (map offset_of (m :: ms)) && truthy (map delay_of (m :: ms)))
    with true.
  cbv iota.
  rewrite <- M_eta, <- bind_ret_r.
  unfold report.
  repeat (rewrite bind_assoc; apply bind_ext; intros _).
  reflexivity.
Qed.

Lemma parse_file_unread
  {NP : NumPy} {SP : SciPy} {PP : PyPlot} {FS : FileSystem}
  (path name : str) (e : exn) :
  readlines path = Raise e -> parse_file path name = ([], Raise e).
Proof. intros Hr. unfold parse_file, lift. now rewrite Hr. Qed.

(** When [parse_file] returns the samples: the log was read, a line
    matched, the samples are those of the lines and the report on them
    came to its end. *)
Lemma parse_file_returns
  {NP : NumPy} {SP : SciPy} {PP : PyPlot} {FS : FileSystem}
  (path name : str) (r : list float * list float) :
  outcome (parse_file path name) = Ret (Some r) ->
  exists lines,
    readlines path = Ret lines
    /\ matches lines <> []
    /\ r = scan lines
    /\ outcome (report name (fst (scan lines)) (snd (scan lines))) = Ret tt.
Proof.
  destruct (readlines path) as [lines | e] eqn:Hr;
    [| now rewrite (parse_file_unread path name e Hr)].
  rewrite (parse_file_read path name lines Hr).
  intros H. exists lines. rewrite scan_matches. cbn [fst snd].
  destruct (matches lines) as [| m ms]; [discriminate |].
  cbv zeta in H. unfold outcome at 1 in H. cbn [snd fst] in H.
  destruct (outcome (report _ _ _)) as [[] | e]; [| discriminate].
  injection H as <-. repeat split. discriminate.
Qed.

(** ** The parser *)

Lemma search_from_line (prog : list node) (line t : str) (pos : nat)
  (m : re_match) :
  search_from prog line t pos = Some m -> m_line m = line.
Proof.
  revert pos. induction t as [| c t IH]; intros pos; simpl.
  - destruct (exec prog [] []) as [[marks rest] |]; [| discriminate].
    intros [= <-]. reflexivity.
  - destruct (exec prog (c :: t) []) as [[marks rest] |].
    + intros [= <-]. reflexivity.
    + apply IH.
Qed.

Lemma matches_lines (lines : list str) :
  map m_line (matches lines) = filter matching lines.
Proof.
  induction lines as [| line lines IH]; simpl; [reflexivity |].
  unfold matching at 1.
  destruct (search re_pattern line) as [m |] eqn:Hs; simpl.
  - f_equal; [| exact IH]. exact (search_from_line _ _ _ _ _ Hs).
  - exact IH.
Qed.

(** C3. A file that was read and has no line matching the pattern: the
    parser prints the "no valid data" report, and nothing else, and returns
    [None]; it does not raise. *)
Theorem C3_no_match_returns_none
  {NP : NumPy} {SP : SciPy} {PP : PyPlot} {FS : FileSystem}
  (path name : str) (lines : list str) :
  readlines path = Ret lines ->
  (forall line, In line lines -> search re_pattern line = None) ->
  parse_file path name = ([Print no_valid_data], Ret None).
Proof.
  intros Hr Hnone.
  rewrite (parse_file_read path name lines Hr), (matches_none lines Hnone).
  reflexivity.
Qed.

Lemma C3_witness :
  @parse_file seq_numpy (fixed_scipy one) plain_pyplot (table_fs demo_files)
    (s "ctl/echo.log") (s "Echo")
  = ([Print no_valid_data], Ret None).
Proof.
  apply (@C3_no_match_returns_none seq_numpy (fixed_scipy one) plain_pyplot
           (table_fs demo_files) (s "ctl/echo.log") (s "Echo") junk_log).
  - reflexivity.
  - intros line [<- | [<- | []]]; vm_compute; reflexivity.
Defined.

(** C4. For a file that was read, the offsets and the delays that the
    parser collects have one element each for every matching line, so the
    same length, and they follow the order of the matching lines of the
    file. When a line matched and the report on the two sequences comes
    to its end, the parser returns the pair of them; it returns [None]
    when no line matched, and when the report raises it raises the same
    and returns nothing. *)
Theorem C4_equal_length_line_order
  {NP : NumPy} {SP : SciPy} {PP : PyPlot} {FS : FileSystem}
  (path name : str) (lines : list str) :
  readlines path = Ret lines ->
  let (offsets, delays) := scan lines in
  length offsets = length (filter matching lines)
  /\ length delays = length offsets
  /\ map m_line (matches lines) = filter matching lines
  /\ offsets = map offset_of (matches lines)
  /\ delays = map delay_of (matches lines)
  /\ outcome (parse_file path name) =
     match matches lines with
     | [] => Ret None
     | _ => match outcome (report name offsets delays) with
            | Ret _ => Ret (Some (offsets, delays))
            | Raise e => Raise e
            end
     end.
Proof.
  intros Hr. rewrite scan_matches.
  rewrite <- matches_lines, !length_map.
  repeat split.
  rewrite (parse_file_read path name lines Hr).
  now destruct (matches lines).
Qed.

Lemma C4_witness :
  length (fst (scan good_log)) = 2
  /\ length (snd (scan good_log)) = 2
  /\ outcome (@parse_file seq_numpy (fixed_scipy one) plain_pyplot
                (table_fs demo_files) (s "ctl/beta.log") (s "Beta"))
     = Ret (Some (scan good_log)).
Proof.
  pose proof (@C4_equal_length_line_order seq_numpy (fixed_scipy one)
                plain_pyplot (table_fs demo_files) (s "ctl/beta.log")
                (s "Beta") good_log eq_refl) as H.
  destruct (scan good_log) as [offsets delays] eqn:Hscan.
  destruct H as (Ho & Hd & _ & _ & _ & Hout).
  rewrite Hout. cbn [fst snd]. rewrite Hd, Ho.
  injection Hscan as <- <-.
  vm_compute. repeat split.
Defined.

(** C5. The pattern matches the sample line of the specification; the
    offset it yields is the float 10.0 and the path delay the float 20.0. *)
Theorem C5_sample_line :
  exists m,
    search re_pattern sample_line = Some m
    /\ group m 1 = s "10" /\ group m 3 = s "20"
    /\ float_of_str (group m 1) = ten /\ Z_of_float ten = Some 10%Z
    /\ float_of_str (group m 3) = twenty /\ Z_of_float twenty = Some 20%Z
    /\ scan [sample_line] = ([ten], [twenty]).
Proof.
  eexists. split; [vm_compute; reflexivity |].
  repeat split; vm_compute; reflexivity.
Qed.

(** ** The tests *)

(** The order of binary64 numbers, [SFltb], against the order of the
    values they denote. *)

Lemma digits2_pos_lower (m : positive) :
  (2 ^ (Zpos (digits2_pos m) - 1) <= Zpos m)%Z.
Proof.
  induction m as [m IH | m IH |]; cbn [digits2_pos].
  - rewrite Pos2Z.inj_succ.
    replace (Z.succ (Zpos (digits2_pos m)) - 1)%Z
      with (Z.succ (Zpos (digits2_pos m) - 1))%Z by lia.
    rewrite Z.pow_succ_r by lia. lia.
  - rewrite Pos2Z.inj_succ.
    replace (Z.succ (Zpos (digits2_pos m)) - 1)%Z
      with (Z.succ (Zpos (digits2_pos m) - 1))%Z by lia.
    rewrite Z.pow_succ_r by lia. lia.
  - simpl. lia.
Qed.

Lemma digits2_pos_upper (m : positive) :
  (Zpos m < 2 ^ Zpos (digits2_pos m))%Z.
Proof.
  induction m as [m IH | m IH |]; cbn [digits2_pos].
  - rewrite Pos2Z.inj_succ, Z.pow_succ_r by lia. lia.
  - rewrite Pos2Z.inj_succ, Z.pow_succ_r by lia. lia.
  - simpl. lia.
Qed.

(** A valid finite float: its exponent is at least -1074, its mantissa
    is below 2^53, and at least 2^52 unless the exponent is -1074. *)
Lemma valid_finite (sg : bool) (m : positive) (e : Z) :
  valid_binary prec emax (S754_finite sg m e) = true ->
  (-1074 <= e)%Z /\ (Zpos m < 2 ^ 53)%Z
  /\ (-1074 < e -> 2 ^ 52 <= Zpos m)%Z.
Proof.
  cbn [valid_binary]. unfold bounded, canonical_mantissa.
  intros H. apply andb_true_iff in H. destruct H as [H _].
  apply Z.eqb_eq in H. unfold fexp, emin, prec, emax in H.
  change IntDef.Z.max with Z.max in H.
  assert (Hd : (Zpos (digits2_pos m) <= 53)%Z) by lia.
  assert (He : (-1074 <= e)%Z) by lia.
  assert (Hn : (-1074 < e -> Zpos (digits2_pos m) = 53)%Z) by lia.
  clear H.
  pose proof (digits2_pos_lower m) as Hl.
  pose proof (digits2_pos_upper m) as Hu.
  split; [exact He |]. split.
  - assert (2 ^ Zpos (digits2_pos m) <= 2 ^ 53)%Z
      by (apply Z.pow_le_mono_r; lia).
    lia.
  - intros He'. rewrite (Hn He') in Hl. exact Hl.
Qed.

Lemma units_order (m : positive) (e : Z) :
  valid_binary prec emax (S754_finite false m e) = true ->
  match Z.compare (-57) e with
  | Lt => (7205759403792794 * 2 ^ 1017 < Zpos m * 2 ^ (e + 1074))%Z
  | Eq => True
  | Gt => (Zpos m * 2 ^ (e + 1074) < 7205759403792794 * 2 ^ 1017)%Z
  end.
Proof.
  intros Hv. destruct (valid_finite false m e Hv) as (He & Hm & Hn).
  destruct (Z.compare_spec (-57) e) as [_ | Hlt | Hgt]; [exact I | |].
  - replace (e + 1074)%Z with ((e + 57) + 1017)%Z by lia.
    rewrite (Z.pow_add_r 2 (e + 57) 1017) by lia.
    assert (H2 : (2 ^ 1 <= 2 ^ (e + 57))%Z) by (apply Z.pow_le_mono_r; lia).
    assert (Hp : (0 < 2 ^ 1017)%Z) by (apply Z.pow_pos_nonneg; lia).
    assert (Hm52 : (2 ^ 52 <= Zpos m)%Z) by (apply Hn; lia).
    rewrite Z.mul_assoc. apply (proj1 (Z.mul_lt_mono_pos_r _ _ _ Hp)).
    change (2 ^ 1)%Z with 2%Z in H2. change (2 ^ 52)%Z with 4503599627370496%Z in Hm52.
    nia.
  - replace 1017%Z with ((-57 - e) + (e + 1074))%Z by lia.
    rewrite (Z.pow_add_r 2 (-57 - e) (e + 1074)) by lia.
    assert (H2 : (2 ^ 1 <= 2 ^ (-57 - e))%Z) by (apply Z.pow_le_mono_r; lia).
    assert (Hp : (0 < 2 ^ (e + 1074))%Z) by (apply Z.pow_pos_nonneg; lia).
    rewrite Z.mul_assoc. apply (proj1 (Z.mul_lt_mono_pos_r _ _ _ Hp)).
    change (2 ^ 1)%Z with 2%Z in H2. change (2 ^ 53)%Z with 9007199254740992%Z in Hm.
    nia.
Qed.

Lemma flt_alpha_above (p : float) :
  valid_binary prec emax p = true ->
  flt alpha p = above five_hundredths p.
Proof.
  intros Hv. destruct p as [sg | sg | | sg m e]; try (now destruct sg).
  - reflexivity.
  - destruct sg.
    + cbn [flt SFltb alpha SFcompare above units five_hundredths cond_Zopp].
      symmetry. apply Z.ltb_ge.
      assert (0 < 2 ^ (e + 1074))%Z
        by (apply Z.pow_pos_nonneg; [lia | destruct (valid_finite _ _ _ Hv); lia]).
      assert (0 < 2 ^ (-57 + 1074))%Z by (apply Z.pow_pos_nonneg; lia).
      nia.
    + pose proof (units_order m e Hv) as Ho.
      unfold flt, SFltb, alpha, SFcompare, above, units, five_hundredths,
        cond_Zopp.
      change (-57 + 1074)%Z with 1017%Z.
      destruct (Z.compare_spec (-57) e) as [<- | Hlt | Hgt].
      * change (-57 + 1074)%Z with 1017%Z.
        rewrite Pos.compare_cont_spec. cbn [Pos.switch_Eq].
        assert (Hp : (0 < 2 ^ 1017)%Z) by (apply Z.pow_pos_nonneg; lia).
        generalize dependent (2 ^ 1017)%Z. intros P Hp.
        destruct (Pos.compare_spec 7205759403792794 m) as [<- | Hc | Hc];
          symmetry.
        -- apply Z.ltb_irrefl.
        -- apply Z.ltb_lt.
           apply (proj1 (Z.mul_lt_mono_pos_r P _ _ Hp)). exact Hc.
        -- apply Z.ltb_ge, Z.lt_le_incl.
           apply (proj1 (Z.mul_lt_mono_pos_r P _ _ Hp)). exact Hc.
      * symmetry. apply Z.ltb_lt. exact Ho.
      * symmetry. apply Z.ltb_ge. lia.
Qed.

Lemma flt_below_alpha (p : float) :
  valid_binary prec emax p = true ->
  flt p alpha = below five_hundredths p.
Proof.
  intros Hv. destruct p as [sg | sg | | sg m e]; try (now destruct sg).
  - reflexivity.
  - destruct sg.
    + cbn [flt SFltb alpha SFcompare below units five_hundredths cond_Zopp].
      symmetry. apply Z.ltb_lt.
      assert (0 < 2 ^ (e + 1074))%Z
        by (apply Z.pow_pos_nonneg; [lia | destruct (valid_finite _ _ _ Hv); lia]).
      assert (0 < 2 ^ (-57 + 1074))%Z by (apply Z.pow_pos_nonneg; lia).
      nia.
    + pose proof (units_order m e Hv) as Ho.
      unfold flt, SFltb, alpha, SFcompare, below, units, five_hundredths,
        cond_Zopp.
      change (-57 + 1074)%Z with 1017%Z.
      rewrite (Z.compare_antisym e (-57)) in Ho.
      destruct (Z.compare_spec e (-57)) as [-> | Hlt | Hgt]; cbn [CompOpp] in Ho.
      * change (-57 + 1074)%Z with 1017%Z.
        rewrite Pos.compare_cont_spec. cbn [Pos.switch_Eq].
        assert (Hp : (0 < 2 ^ 1017)%Z) by (apply Z.pow_pos_nonneg; lia).
        generalize dependent (2 ^ 1017)%Z. intros P Hp.
        destruct (Pos.compare_spec m 7205759403792794) as [-> | Hc | Hc];
          symmetry.
        -- apply Z.ltb_irrefl.
        -- apply Z.ltb_lt.
           apply (proj1 (Z.mul_lt_mono_pos_r P _ _ Hp)). exact Hc.
        -- apply Z.ltb_ge, Z.lt_le_incl.
           apply (proj1 (Z.mul_lt_mono_pos_r P _ _ Hp)). exact Hc.
      * symmetry. apply Z.ltb_lt. exact Ho.
      * symmetry. apply Z.ltb_ge. lia.
Qed.

Lemma five_hundredths_nearest : nearest 1 20 five_hundredths.
Proof.
  unfold nearest. split; [reflexivity |].
  cbn [ulp units five_hundredths cond_Zopp].
  change (-57 + 1074)%Z with 1017%Z.
  assert (Hp : (0 < 2 ^ 1017)%Z) by (apply Z.pow_pos_nonneg; lia).
  replace (2 ^ 1074)%Z with (2 ^ 57 * 2 ^ 1017)%Z
    by (rewrite <- Z.pow_add_r by lia; reflexivity).
  change (2 ^ 57)%Z with 144115188075855872%Z.
  change (2 ^ 52)%Z with 4503599627370496%Z.
  split; [rewrite Z.abs_mul, (Z.abs_eq (2 ^ 1017)) by lia; nia |].
  replace (20 * (7205759403792794 * 2 ^ 1017) - 1 * (144115188075855872 * 2 ^ 1017))%Z
    with (8 * 2 ^ 1017)%Z by lia.
  rewrite Z.abs_eq by lia. lia.
Qed.

Lemma verdict_in (first second : list seg) (b : bool)
  (before : list effect) :
  first <> second ->
  ~ In (Print first) before -> ~ In (Print second) before ->
  (In (Print first) (before ++ [Print (if b then first else second)])
   <-> b = true)
  /\ (In (Print second) (before ++ [Print (if b then first else second)])
      <-> b = false).
Proof.
  intros Hne H1 H2. rewrite !in_app_iff. cbn [In].
  destruct b; split; split; intros H; try reflexivity; try discriminate;
    try tauto;
    destruct H as [H | [H | []]]; try contradiction;
    injection H as H; congruence.
Qed.

(** C6. On fewer than three values the normality routine prints the "not
    enough data" line and returns; [shapiro] plays no part in it, whatever
    the library would answer. On three values or more it calls [shapiro]
    on the data: when that raises the routine raises the same, and when
    it returns a statistic and a p-value both are printed and the sample
    is reported normal exactly when the p-value is greater than 0.05,
    not normal in every other case. The order is that of the values, and
    0.05 is the binary64 number nearest to 1/20, which is not greater
    than itself. *)
Theorem C6_shapiro_wilk_guard (SP SP' : SciPy) (data : list float)
  (label : str) :
  (length data < 3 ->
     @run_shapiro_wilk SP data label = ([Print (not_enough label)], Ret tt)
     /\ @run_shapiro_wilk SP' data label = @run_shapiro_wilk SP data label)
  /\ (3 <= length data ->
      (forall e,
         @shapiro SP data = Raise e ->
         @run_shapiro_wilk SP data label = ([], Raise e))
      /\ (forall stat p,
            @shapiro SP data = Ret (stat, p) ->
            valid_binary prec emax p = true ->
            @run_shapiro_wilk SP data label =
            ([Print (shapiro_header label); Print (test_line stat p);
              Print (if above five_hundredths p
                     then looks_normal else looks_not_normal)],
             Ret tt)
            /\ (In (Print looks_normal)
                  (output (@run_shapiro_wilk SP data label))
                <-> above five_hundredths p = true)
            /\ (In (Print looks_not_normal)
                  (output (@run_shapiro_wilk SP data label))
                <-> above five_hundredths p = false)))
  /\ nearest 1 20 five_hundredths
  /\ above five_hundredths five_hundredths = false.
Proof.
  split; [| split; [| split; [exact five_hundredths_nearest | reflexivity]]].
  - intros Hlt. now rewrite !run_shapiro_wilk_small.
  - intros Hge. split.
    + intros e Hs. exact (run_shapiro_wilk_failed data label e Hge Hs).
    + intros stat p Hs Hv.
      rewrite (run_shapiro_wilk_large data label stat p Hge Hs).
      rewrite (flt_alpha_above p Hv).
      split; [reflexivity |].
      unfold output. cbn [fst].
      apply (verdict_in looks_normal looks_not_normal
               (above five_hundredths p)
               [Print (shapiro_header label); Print (test_line stat p)]).
      * discriminate.
      * intros [H | [H | []]]; discriminate.
      * intros [H | [H | []]]; discriminate.
Qed.

Lemma C6_witness :
  @run_shapiro_wilk (fixed_scipy one) [ten; twenty; ten] (s "Offsets")
  = ([Print (shapiro_header (s "Offsets")); Print (test_line one one);
      Print looks_normal], Ret tt)
  /\ @run_shapiro_wilk (fixed_scipy five_hundredths) [ten; twenty; ten]
       (s "Offsets")
     = ([Print (shapiro_header (s "Offsets"));
         Print (test_line one five_hundredths);
         Print looks_not_normal], Ret tt).
Proof.
  split.
  - destruct (C6_shapiro_wilk_guard (fixed_scipy one) (fixed_scipy one)
                [ten; twenty; ten] (s "Offsets")) as (_ & H & _).
    destruct H as [_ H]; [simpl; lia |].
    exact (proj1 (H one one eq_refl eq_refl)).
  - destruct (C6_shapiro_wilk_guard (fixed_scipy five_hundredths)
                (fixed_scipy one) [ten; twenty; ten] (s "Offsets"))
      as (_ & H & _).
    destruct H as [_ H]; [simpl; lia |].
    exact (proj1 (H one five_hundredths eq_refl eq_refl)).
Defined.

(** C8. When the Mann-Whitney test returns, the comparator prints its
    statistic and p-value and then one verdict: "reject" exactly when the
    p-value is below 0.05, "do not reject" in every other case. The order
    is that of the values, and 0.05 is the binary64 number nearest to
    1/20: a p-value equal to it is not below it. *)
Theorem C8_mann_whitney_verdict {SP : SciPy} (data1 data2 : list float)
  (label : str) (stat p : float) :
  mannwhitneyu data1 data2 = Ret (stat, p) ->
  valid_binary prec emax p = true ->
  run_mannwhiteneyu_test data1 data2 label =
    ([Print (mannwhitney_header label); Print (test_line stat p);
      Print (if below five_hundredths p then reject_null else keep_null)],
     Ret tt)
  /\ (In (Print reject_null)
        (output (run_mannwhiteneyu_test data1 data2 label))
      <-> below five_hundredths p = true)
  /\ (In (Print keep_null)
        (output (run_mannwhiteneyu_test data1 data2 label))
      <-> below five_hundredths p = false)
  /\ below five_hundredths five_hundredths = false
  /\ nearest 1 20 five_hundredths.
Proof.
  intros Hs Hv.
  rewrite (run_mannwhiteneyu_test_eq data1 data2 label stat p Hs).
  rewrite (flt_below_alpha p Hv).
  split; [reflexivity |].
  unfold output. cbn [fst].
  rewrite <- and_assoc.
  split; [| split; [reflexivity | exact five_hundredths_nearest]].
  apply (verdict_in reject_null keep_null
           (below five_hundredths p)
           [Print (mannwhitney_header label); Print (test_line stat p)]).
  - discriminate.
  - intros [H | [H | []]]; discriminate.
  - intros [H | [H | []]]; discriminate.
Qed.

Lemma C8_witness :
  @run_mannwhiteneyu_test (fixed_scipy five_hundredths) [ten] [twenty]
    (s "Beta Offsets")
  = ([Print (mannwhitney_header (s "Beta Offsets"));
      Print (test_line (float_of_Z 0) five_hundredths); Print keep_null],
     Ret tt)
  /\ @run_mannwhiteneyu_test
       (fixed_scipy (S754_finite false 7205759403792793 (-57)))
       [ten] [twenty] (s "Beta Offsets")
     = ([Print (mannwhitney_header (s "Beta Offsets"));
         Print (test_line (float_of_Z 0)
                  (S754_finite false 7205759403792793 (-57)));
         Print reject_null], Ret tt).
Proof.
  split.
  - exact (proj1 (@C8_mann_whitney_verdict (fixed_scipy five_hundredths)
                    [ten] [twenty] (s "Beta Offsets") (float_of_Z 0)
                    five_hundredths eq_refl eq_refl)).
  - exact (proj1 (@C8_mann_whitney_verdict
                    (fixed_scipy (S754_finite false 7205759403792793 (-57)))
                    [ten] [twenty] (s "Beta Offsets") (float_of_Z 0)
                    (S754_finite false 7205759403792793 (-57))
                    eq_refl eq_refl)).
Defined.

(** ** The statistics *)






(** What these floats are is [numpy]'s business, and rounding shows in
    it. In sequential binary64 arithmetic the mean of three copies of
    14411518807585588 is not that number but the next float, and the
    standard deviation of this constant sample is 2. *)
Remark seq_std_of_a_constant_sample :
  let c := float_of_Z 14411518807585588 in
  Z_of_float c = Some 14411518807585588%Z
  /\ Z_of_float (seq_mean [c; c; c]) = Some 14411518807585590%Z
  /\ Z_of_float (seq_std [c; c; c]) = Some 2%Z.
Proof. vm_compute. repeat split. Qed.


(** ** The plots *)

Lemma parse_file_raises
  {NP : NumPy} {SP : SciPy} {PP : PyPlot} {FS : FileSystem}
  (path name : str) (e : exn) :
  outcome (parse_file path name) = Raise e ->
  readlines path = Raise e \/ library_raised e.
Proof.
  destruct (readlines path) as [lines | e'] eqn:Hr.
  - rewrite (parse_file_read path name lines Hr).
    destruct (matches lines) as [| m ms]; [discriminate |].
    cbv zeta. unfold outcome at 1. cbn [snd map].
    destruct (outcome (report _ _ _)) as [[] | e1] eqn:Hrep; [discriminate |].
    intros [= <-]. right. exact (report_raises _ _ _ _ _ _ Hrep).
  - rewrite (parse_file_unread path name e' Hr). intros [= <-]. now left.
Qed.

(** C10. [create_plot] fails on an empty array, at its [np.max]. On any
    other array the two reductions return, and how [create_plot] ends is
    what [ylim] and [savefig] make of the limits and of the figure;
    limits that are not finite end it with the [ValueError] of [ylim].
    [parse_file], its only caller, plots the two samples only where both
    are non-empty: it does what [report] does on non-empty samples. So
    what [parse_file] raises is what reading the file raised, or what
    [shapiro], [ylim] or [savefig] raised on a non-empty sample: the
    failure of a reduction on an empty array is not among them. *)
Theorem C10_plot_never_sees_empty_data
  {NP : NumPy} {SP : SciPy} {PP : PyPlot} {FS : FileSystem} :
  (forall dev ty, outcome (create_plot [] dev ty) = Raise (zero_size "maximum"))
  /\ (forall x xs dev ty,
        exists lo hi,
          np_min (x :: xs) = Ret lo
          /\ np_max (x :: xs) = Ret hi
          /\ outcome (create_plot (x :: xs) dev ty) =
             match plt_ylim lo hi with
             | Raise e => Raise e
             | Ret _ =>
                 match plt_savefig (x :: xs) (dev ++ s " " ++ ty) lo hi
                         (plot_file dev ty) with
                 | Raise e => Raise e
                 | Ret _ => Ret tt
                 end
             end
          /\ (is_finite lo && is_finite hi = false ->
              outcome (create_plot (x :: xs) dev ty) = Raise axis_limits))
  /\ (forall path name lines,
        readlines path = Ret lines ->
        (matches lines = []
         /\ parse_file path name = ([Print no_valid_data], Ret None))
        \/ (exists o os d ds,
              scan lines = (o :: os, d :: ds)
              /\ output (parse_file path name)
                 = output (report name (o :: os) (d :: ds))
              /\ outcome (parse_file path name)
                 = match outcome (report name (o :: os) (d :: ds)) with
                   | Ret _ => Ret (Some (o :: os, d :: ds))
                   | Raise e => Raise e
                   end))
  /\ (forall path name e,
        outcome (parse_file path name) = Raise e ->
        readlines path = Raise e \/ library_raised e).
Proof.
  split; [exact create_plot_empty |].
  split.
  { intros x xs dev ty.
    destruct (np_min_some x xs) as [lo Hlo].
    destruct (np_max_some x xs) as [hi Hhi].
    exists lo, hi. split; [exact Hlo |]. split; [exact Hhi |].
    split; [exact (create_plot_outcome _ dev ty lo hi Hlo Hhi) |].
    intros Hfin.
    now rewrite (create_plot_not_finite _ dev ty lo hi Hlo Hhi Hfin). }
  split; [| exact parse_file_raises].
  intros path name lines Hr.
  rewrite (parse_file_read path name lines Hr), scan_matches.
  destruct (matches lines) as [| m ms]; [left; now split | right].
  exists (offset_of m), (map offset_of ms), (delay_of m), (map delay_of ms).
  repeat split.
Qed.

Lemma C10_witness :
  outcome (@parse_file seq_numpy (fixed_scipy one) plain_pyplot
             (table_fs overflow_files) (s "exp/beta.log") (s "Beta"))
  = Raise axis_limits
  /\ outcome (@parse_file seq_numpy (fixed_scipy one) plain_pyplot
                (table_fs overflow_files) (s "ctl/beta.log") (s "Beta"))
     = Ret (Some (scan good_log)).
Proof.
  destruct (@C10_plot_never_sees_empty_data seq_numpy (fixed_scipy one)
              plain_pyplot (table_fs overflow_files)) as (_ & _ & H & _).
  split.
  - destruct (H (s "exp/beta.log") (s "Beta") overflow_log eq_refl)
      as [[Hm _] | (o & os & d & ds & Hs & _ & ->)];
      [vm_compute in Hm; discriminate |].
    vm_compute in Hs. injection Hs as <- <- <- <-. vm_compute. reflexivity.
  - destruct (H (s "ctl/beta.log") (s "Beta") good_log eq_refl)
      as [[Hm _] | (o & os & d & ds & Hs & _ & ->)];
      [vm_compute in Hm; discriminate |].
    rewrite Hs. vm_compute in Hs. injection Hs as <- <- <- <-.
    vm_compute. reflexivity.
Defined.

(** ** The command line *)

Lemma parse_host_starts
  {NP : NumPy} {SP : SciPy} {PP : PyPlot} {FS : FileSystem}
  (st : dict * dict) (name path : str) :
  exists rest, output (parse_host st (name, path)) = Print [Txt name] :: rest.
Proof.
  unfold parse_host. destruct st as [od dd]. rewrite output_bind.
  eexists. reflexivity.
Qed.

Lemma main_prints_first_host
  {NP : NumPy} {SP : SciPy} {PP : PyPlot} {FS : FileSystem}
  (control : str) (experimental : option str) :
  hd_error (output (main control experimental)) = Some (Print [Txt (s "Beta")]).
Proof.
  unfold main, machines. cbn [for_each].
  rewrite output_bind, output_bind.
  destruct (parse_host_starts ([], []) (s "Beta")
              (path_join control (s "beta.log"))) as [rest ->].
  reflexivity.
Qed.

Lemma script_output (r : M unit) :
  fst (match r with
       | (out, Ret _) => (out, 0%Z)
       | (out, Raise _) => (out, 1%Z)
       end) = output r.
Proof. now destruct r as [out [[] | e]]. Qed.

(** C2. The usage message and status 1 come with fewer than two or more
    than four arguments. With four arguments (three paths) the script does
    not stop: it behaves as with the first three, printing the first host
    name as the pipeline starts. *)
Theorem C2_four_arguments_accepted
  {NP : NumPy} {SP : SciPy} {PP : PyPlot} {FS : FileSystem} :
  (forall argv,
     script argv = ([Print usage], 1%Z)
     <-> (length argv < 2 \/ 4 < length argv))
  /\ (forall prog control experimental extra,
        script [prog; control; experimental; extra]
        = script [prog; control; experimental]
        /\ hd_error (fst (script [prog; control; experimental; extra]))
           = Some (Print [Txt (s "Beta")])).
Proof.
  split.
  - intros argv. unfold script.
    destruct (Nat.ltb_spec 4 (length argv)) as [H4 | H4];
      destruct (Nat.ltb_spec (length argv) 2) as [H2 | H2]; simpl;
      try (split; [intros _ | reflexivity]; lia).
    split; [| lia]. intros H. exfalso.
    apply (f_equal (fun r => hd_error (fst r))) in H.
    rewrite script_output in H.
    destruct (length argv =? 2);
      rewrite main_prints_first_host in H; discriminate.
  - intros prog control experimental extra. split; [reflexivity |].
    unfold script. simpl negb. cbn [length Nat.ltb Nat.leb orb Nat.eqb nth].
    rewrite script_output. apply main_prints_first_host.
Qed.

(** ** The batch *)

Section Batch.

Context {NP : NumPy} {SP : SciPy} {PP : PyPlot} {FS : FileSystem}.

Lemma compared_app (a b : list effect) :
  compared (a ++ b) = compared a ++ compared b.
Proof. apply flat_map_app. Qed.

Lemma existsb_matching (lines : list str) :
  existsb matching lines = truthy (matches lines).
Proof.
  induction lines as [| line lines IH]; simpl; [reflexivity |].
  unfold matching at 1.
  destruct (search re_pattern line); simpl; [reflexivity | exact IH].
Qed.

(** No comparison is printed by a computation whose parts print none. *)
Lemma quiet_bind {A B} (m : M A) (f : A -> M B) :
  compared (output m) = [] ->
  (forall a, compared (output (f a)) = []) ->
  compared (output (bind m f)) = [].
Proof.
  intros Hm Hf. rewrite output_bind, compared_app, Hm.
  destruct (outcome m); [apply Hf | reflexivity].
Qed.

Lemma stats_lines_quiet (title : str) (data : list float) :
  compared (output (stats_lines title data)) = [].
Proof.
  unfold stats_lines, lift, print, emit.
  destruct (np_min data), (np_max data); reflexivity.
Qed.

Lemma create_plot_quiet (data : list float) (dev ty : str) :
  compared (output (create_plot data dev ty)) = [].
Proof.
  unfold create_plot, lift, emit.
  destruct (np_max data) as [hi |]; [| reflexivity].
  destruct (np_min data) as [lo |]; [| reflexivity].
  simpl.
  destruct (plt_ylim lo hi) as [[] |]; [| reflexivity].
  simpl.
  destruct (plt_savefig _ _ _ _ _) as [[] |]; reflexivity.
Qed.

Lemma run_shapiro_wilk_quiet (data : list float) (label : str) :
  compared (output (run_shapiro_wilk data label)) = [].
Proof.
  unfold run_shapiro_wilk, lift, print, emit.
  destruct (length data <? 3); [reflexivity |].
  destruct (shapiro data) as [[stat p] |]; [| reflexivity].
  simpl. now destruct (flt alpha p).
Qed.

Lemma report_quiet (name : str) (offsets delays : list float) :
  compared (output (report name offsets delays)) = [].
Proof.
  unfold report, create_offset_plot, create_delay_plot.
  apply quiet_bind; [apply stats_lines_quiet | intros _].
  apply quiet_bind; [apply run_shapiro_wilk_quiet | intros _].
  apply quiet_bind; [apply create_plot_quiet | intros _].
  apply quiet_bind; [apply stats_lines_quiet | intros _].
  apply quiet_bind; [apply run_shapiro_wilk_quiet | intros _].
  apply create_plot_quiet.
Qed.

Lemma parse_file_quiet (path name : str) :
  compared (output (parse_file path name)) = [].
Proof.
  destruct (readlines path) as [lines | e] eqn:Hr.
  - rewrite (parse_file_read path name lines Hr).
    destruct (matches lines); [reflexivity |].
    cbv zeta. unfold output at 1. cbn [fst]. apply report_quiet.
  - now rewrite (parse_file_unread path name e Hr).
Qed.

(** One turn of a parsing loop, by what [parse_file] did and how it
    ended. *)
Lemma parse_host_eq (st : dict * dict) (name path : str) :
  parse_host st (name, path) =
  match parse_file path name with
  | (out, Ret (Some (offset, delay))) =>
      (Print [Txt name] :: out ++ [Print []],
       Ret (dict_set (fst st) name offset, dict_set (snd st) name delay))
  | (out, Ret None) =>
      (Print [Txt name] :: out ++ [Print (error_line name unpack_none)],
       Ret st)
  | (out, Raise e) =>
      (Print [Txt name] :: out ++ [Print (error_line name e)], Ret st)
  end.
Proof.
  destruct st as [od dd]. unfold parse_host.
  destruct (parse_file path name) as [out [[[offset delay] |] | e]];
    [reflexivity | | reflexivity].
  simpl. now rewrite app_nil_r.
Qed.

Lemma parsed_samples (machine : str * str) :
  parsed machine = true ->
  outcome (parse_file (snd machine) (fst machine))
  = Ret (Some (samples (snd machine)))
  /\ fst (samples (snd machine)) <> [] /\ snd (samples (snd machine)) <> [].
Proof.
  destruct machine as [name path]. unfold parsed, samples. cbn [fst snd].
  destruct (outcome (parse_file path name)) as [[r |] | e] eqn:Hp;
    try discriminate.
  intros _.
  destruct (parse_file_returns path name r Hp) as (lines & Hr & Hm & -> & _).
  rewrite Hr. split; [reflexivity |].
  rewrite scan_matches. destruct (matches lines); [congruence |].
  split; discriminate.
Qed.

Lemma parse_host_spec (st : dict * dict) (machine : str * str) :
  outcome (parse_host st machine) = Ret (record_host st machine)
  /\ compared (output (parse_host st machine)) = [].
Proof.
  destruct machine as [name path].
  pose proof (parse_file_quiet path name) as Hq.
  pose proof (parsed_samples (name, path)) as Hs.
  unfold record_host, parsed in *. cbn [fst snd] in *.
  rewrite parse_host_eq.
  destruct (parse_file path name) as [out [[[offset delay] |] | e]];
    unfold outcome, output in *; cbn [fst snd] in *;
    (split; [| cbn [compared flat_map app]; fold (compared (out ++ [Print []]));
               rewrite ?compared_app, ?Hq; reflexivity]);
    try reflexivity.
  destruct (Hs eq_refl) as [Heq _]. injection Heq as <-. reflexivity.
Qed.

Lemma parse_loop (ms : list (str * str)) (st : dict * dict) :
  outcome (for_each ms parse_host st) = Ret (fold_left record_host ms st)
  /\ compared (output (for_each ms parse_host st)) = [].
Proof.
  revert st. induction ms as [| m ms IH]; intros st; [now split |].
  cbn [for_each fold_left].
  destruct (parse_host_spec st m) as [Hout Hquiet].
  destruct (IH (record_host st m)) as [IHout IHquiet].
  rewrite outcome_bind, output_bind, Hout, compared_app, Hquiet.
  now split.
Qed.

Lemma str_eqb_refl (a : str) : str_eqb a a = true.
Proof. unfold str_eqb. now destruct (list_eq_dec ascii_dec a a). Qed.

Lemma str_eqb_neq (a b : str) : a <> b -> str_eqb a b = false.
Proof. intros H. unfold str_eqb. now destruct (list_eq_dec ascii_dec a b). Qed.

Lemma dict_set_fresh (d : dict) (k : str) (v : list float) :
  ~ In k (keys d) -> dict_set d k v = d ++ [(k, v)].
Proof.
  induction d as [| [k' v'] d IH]; simpl; intros H; [reflexivity |].
  rewrite str_eqb_neq by tauto. f_equal. apply IH. tauto.
Qed.

Lemma keys_entries sel (ms : list (str * str)) :
  keys (entries sel ms) = map fst (filter parsed ms).
Proof. unfold keys, entries. rewrite map_map. reflexivity. Qed.

Lemma record_loop (ms : list (str * str)) (od dd : dict) :
  NoDup (map fst ms) ->
  (forall k, In k (map fst ms) -> ~ In k (keys od) /\ ~ In k (keys dd)) ->
  fold_left record_host ms (od, dd)
  = (od ++ entries fst ms, dd ++ entries snd ms).
Proof.
  revert od dd. induction ms as [| [name path] ms IH]; intros od dd Hnd Hfresh.
  - unfold entries. simpl. now rewrite !app_nil_r.
  - cbn [fold_left]. unfold record_host at 2. cbn [fst snd].
    inversion Hnd as [| ? ? Hnotin Hnd']; subst.
    destruct (Hfresh name (or_introl eq_refl)) as [Ho Hd].
    unfold entries. cbn [filter].
    destruct (parsed (name, path)) eqn:Hp.
    + rewrite (dict_set_fresh od name _ Ho), (dict_set_fresh dd name _ Hd).
      rewrite IH; [| exact Hnd' |].
      * unfold entries. cbn [map fst snd]. now rewrite <- !app_assoc.
      * intros k Hk. unfold keys. rewrite !map_app, !in_app_iff.
        destruct (Hfresh k (or_intror Hk)) as [Hko Hkd].
        cbn [map fst In]. split; intros [H | [H | []]]; try tauto;
          subst; contradiction.
    + apply IH; [exact Hnd' |].
      intros k Hk. apply Hfresh. now right.
Qed.

Lemma hosts_nodup (dir : str) : NoDup (map fst (machines dir)).
Proof.
  unfold machines. cbn [map fst].
  repeat constructor; simpl; intros H;
    repeat (destruct H as [H | H]; [discriminate |]); exact H.
Qed.

Lemma parse_loop_machines (dir : str) :
  outcome (for_each (machines dir) parse_host ([], []))
  = Ret (entries fst (machines dir), entries snd (machines dir))
  /\ compared (output (for_each (machines dir) parse_host ([], []))) = [].
Proof.
  destruct (parse_loop (machines dir) ([], [])) as [Hout Hquiet].
  rewrite Hout. split; [| exact Hquiet]. f_equal.
  apply (record_loop (machines dir) [] [] (hosts_nodup dir)).
  intros k _. simpl. tauto.
Qed.

Lemma dict_get_entries sel (ms : list (str * str)) (name : str) :
  (sel = fst \/ sel = snd) ->
  In name (keys (entries sel ms)) ->
  exists x xs, dict_get (entries sel ms) name = Ret (x :: xs).
Proof.
  intros Hsel. unfold entries.
  induction ms as [| [k path] ms IH]; simpl; [tauto |].
  destruct (parsed (k, path)) eqn:Hp; [| exact IH].
  cbn [map fst snd keys dict_get In].
  destruct (list_eq_dec ascii_dec k name) as [-> | Hne].
  - intros _. rewrite str_eqb_refl.
    destruct (parsed_samples (name, path) Hp) as (_ & Ho & Hd).
    cbn [fst snd] in Ho, Hd.
    destruct Hsel as [-> | ->];
      [destruct (fst (samples path)) as [| x xs]
      | destruct (snd (samples path)) as [| x xs]];
      try congruence; now exists x, xs.
  - rewrite (str_eqb_neq k name Hne). intros [H | H]; [contradiction |].
    apply IH, H.
Qed.

Lemma compare_host_spec (control experimental : dict * dict) (name : str)
  (co cos eo eos cd cds ed eds : _) :
  dict_get (fst control) name = Ret (co :: cos) ->
  dict_get (fst experimental) name = Ret (eo :: eos) ->
  dict_get (snd control) name = Ret (cd :: cds) ->
  dict_get (snd experimental) name = Ret (ed :: eds) ->
  outcome (compare_host control experimental name) = Ret tt
  /\ compared (output (compare_host control experimental name))
     = [name ++ s " Offsets"; name ++ s " Delays"].
Proof.
  intros H1 H2 H3 H4.
  destruct (mannwhitneyu_some co cos eo eos) as [[st1 p1] Ho].
  destruct (mannwhitneyu_some cd cds ed eds) as [[st2 p2] Hd].
  unfold compare_host, lift. rewrite H1, H2, H3, H4.
  repeat (rewrite ?outcome_bind, ?output_bind;
          rewrite ?(run_mannwhiteneyu_test_eq _ _ _ _ _ Ho),
                  ?(run_mannwhiteneyu_test_eq _ _ _ _ _ Hd);
          cbv beta iota; unfold outcome at 1; cbn [snd print emit]).
  split; [reflexivity |].
  unfold output. cbn [fst print emit app].
  destruct (flt p1 alpha), (flt p2 alpha);
    cbn [compared flat_map comparing mannwhitney_header test_line
         reject_null keep_null app];
    rewrite ?str_eqb_refl; reflexivity.
Qed.

Lemma compare_loop (control experimental : dict * dict) (names : list str) :
  (forall name, In name names ->
     outcome (compare_host control experimental name) = Ret tt
     /\ compared (output (compare_host control experimental name))
        = [name ++ s " Offsets"; name ++ s " Delays"]) ->
  outcome (for_each names
             (fun _ name => compare_host control experimental name) tt)
  = Ret tt
  /\ compared (output (for_each names
                (fun _ name => compare_host control experimental name) tt))
     = comparisons_of names.
Proof.
  induction names as [| name names IH]; intros H; [now split |].
  cbn [for_each].
  destruct (H name (or_introl eq_refl)) as [Hout Hcmp].
  destruct IH as [IHout IHcmp]; [intros n Hn; apply H; now right |].
  rewrite outcome_bind, output_bind, Hout, compared_app, Hcmp.
  cbv beta iota. rewrite IHout, IHcmp. now split.
Qed.

Lemma parse_host_failure (st : dict * dict) (name path : str) :
  parsed (name, path) = false ->
  exists before err,
    parse_host st (name, path)
    = (Print [Txt name] :: before ++ [Print (error_line name err)], Ret st).
Proof.
  unfold parsed. cbn [fst snd]. rewrite parse_host_eq.
  destruct (parse_file path name) as [out [[[offset delay] |] | e]];
    unfold outcome; cbn [snd]; [discriminate | |]; intros _.
  - now exists out, unpack_none.
  - now exists out, e.
Qed.

(** When a host counts as parsed: its log was read, a line of it matched
    and the report on its samples came to its end. *)
Lemma parsed_iff (name path : str) :
  parsed (name, path) = true
  <-> exists lines,
        readlines path = Ret lines
        /\ existsb matching lines = true
        /\ outcome (report name (fst (scan lines)) (snd (scan lines)))
           = Ret tt.
Proof.
  unfold parsed. cbn [fst snd]. split.
  - destruct (outcome (parse_file path name)) as [[r |] | e] eqn:Hp;
      try discriminate.
    intros _.
    destruct (parse_file_returns path name r Hp) as (lines & Hr & Hm & _ & Hrep).
    exists lines. rewrite existsb_matching.
    split; [exact Hr |]. split; [| exact Hrep].
    now destruct (matches lines).
  - intros (lines & Hr & Hm & Hrep).
    rewrite (parse_file_read path name lines Hr).
    rewrite existsb_matching in Hm. rewrite scan_matches in Hrep.
    cbn [fst snd] in Hrep.
    destruct (matches lines); [discriminate |].
    cbv zeta. unfold outcome at 1. cbn [snd]. now rewrite Hrep.
Qed.

(** The limits of the two plots of a parsed host were finite. *)
Lemma parsed_finite (name path : str) :
  parsed (name, path) = true ->
  finite_limits (fst (samples path)) = true
  /\ finite_limits (snd (samples path)) = true.
Proof.
  intros Hp. apply parsed_iff in Hp.
  destruct Hp as (lines & Hr & Hm & Hrep).
  unfold samples. rewrite Hr.
  rewrite existsb_matching in Hm. rewrite scan_matches in *.
  cbn [fst snd] in *.
  destruct (matches lines) as [| m ms]; [discriminate |].
  cbn [map] in *.
  destruct (report_done _ _ _ _ _ Hrep) as [Ho Hd].
  split; eapply create_plot_drawn; eassumption.
Qed.

End Batch.

(** C1, as the script has it. A host counts as parsed when [parse_file]
    returned its samples: its log was read, a line of it matched, and the
    report came to its end, for which the limits of both plots must be
    finite numbers. Each parsing loop goes through its four hosts and
    ends normally: a host that was not parsed gets its error logged and
    leaves the dictionaries as they were, so these hold the hosts that
    were parsed, in order. With an experimental directory in which every
    host parsed under the control directory was parsed too, [main] ends
    normally and the comparator printed, in host order, one offsets and
    one delays comparison for each host parsed under the control
    directory, and for no other host. *)
Theorem C1_comparisons_for_parsed_control_hosts
  {NP : NumPy} {SP : SciPy} {PP : PyPlot} {FS : FileSystem}
  (control experimental : str) :
  (forall name path,
     (parsed (name, path) = true
      <-> exists lines,
            readlines path = Ret lines
            /\ existsb matching lines = true
            /\ outcome (report name (fst (scan lines)) (snd (scan lines)))
               = Ret tt)
     /\ (parsed (name, path) = true ->
         finite_limits (fst (samples path)) = true
         /\ finite_limits (snd (samples path)) = true))
  /\ (forall st name path,
        parsed (name, path) = false ->
        exists before err,
          parse_host st (name, path)
          = (Print [Txt name] :: before ++ [Print (error_line name err)],
             Ret st))
  /\ (forall dir,
        exists st,
          outcome (for_each (machines dir) parse_host ([], [])) = Ret st
          /\ keys (fst st) = parsed_hosts dir
          /\ keys (snd st) = parsed_hosts dir)
  /\ outcome (main control None) = Ret tt
  /\ ((forall name,
         In name (parsed_hosts control) -> In name (parsed_hosts experimental)) ->
      outcome (main control (Some experimental)) = Ret tt
      /\ compared (output (main control (Some experimental)))
         = comparisons_of (parsed_hosts control)).
Proof.
  split.
  { intros name path. split; [apply parsed_iff | apply parsed_finite]. }
  split; [exact parse_host_failure |].
  split.
  { intros dir. destruct (parse_loop_machines dir) as [Hout _].
    eexists. split; [exact Hout |]. cbn [fst snd].
    now rewrite !keys_entries. }
  destruct (parse_loop_machines control) as [Hc Hcq].
  split.
  { unfold main. now rewrite outcome_bind, Hc. }
  intros Hsub.
  destruct (parse_loop_machines experimental) as [He Heq].
  unfold main.
  rewrite outcome_bind, output_bind, Hc. cbv beta iota.
  rewrite outcome_bind, output_bind, He. cbv beta iota.
  rewrite !compared_app, Hcq, Heq. cbn [app fst].
  rewrite keys_entries. fold (parsed_hosts control).
  apply compare_loop. intros name Hin.
  assert (Hc1 : In name (keys (entries fst (machines control))))
    by now rewrite keys_entries.
  assert (Hc2 : In name (keys (entries snd (machines control))))
    by now rewrite keys_entries.
  assert (He1 : In name (keys (entries fst (machines experimental))))
    by (rewrite keys_entries; now apply Hsub).
  assert (He2 : In name (keys (entries snd (machines experimental))))
    by (rewrite keys_entries; now apply Hsub).
  destruct (dict_get_entries fst _ name (or_introl eq_refl) Hc1)
    as (co & cos & Hco).
  destruct (dict_get_entries snd _ name (or_intror eq_refl) Hc2)
    as (cd & cds & Hcd).
  destruct (dict_get_entries fst _ name (or_introl eq_refl) He1)
    as (eo & eos & Heo).
  destruct (dict_get_entries snd _ name (or_intror eq_refl) He2)
    as (ed & eds & Hed).
  exact (compare_host_spec
           (entries fst (machines control), entries snd (machines control))
           (entries fst (machines experimental),
            entries snd (machines experimental))
           name _ _ _ _ _ _ _ _ Hco Heo Hcd Hed).
Qed.

Lemma C1_witness :
  outcome (@main seq_numpy (fixed_scipy one) plain_pyplot
             (table_fs paired_files) (s "ctl") (Some (s "exp"))) = Ret tt
  /\ compared (output (@main seq_numpy (fixed_scipy one) plain_pyplot
                         (table_fs paired_files) (s "ctl") (Some (s "exp"))))
     = comparisons_of [s "Beta"; s "Delta"].
Proof.
  apply (@C1_comparisons_for_parsed_control_hosts seq_numpy (fixed_scipy one)
           plain_pyplot (table_fs paired_files) (s "ctl") (s "exp")).
  intros name H. vm_compute in H. vm_compute.
  destruct H as [H | [H | []]]; [left | right; left]; exact H.
Defined.

(** C1, as it is worded, fails, in three ways. Where the control logs of
    Charlie and Echo do not parse, [main] ends normally and has compared
    Beta and Delta only. Where Beta's control log parses and there is no
    experimental log of Beta, the comparison loop raises [KeyError] at
    Beta, [main] ends there, and no comparison was printed for any host.
    The same happens where the experimental log of Beta is there and has
    a record, with an offset of 310 digits: the offset is an infinity,
    [ylim] raises, the error is logged, Beta is not stored, and the
    comparison loop raises [KeyError] at Beta. *)
Lemma C1_counterexample :
  (outcome (@main seq_numpy (fixed_scipy one) plain_pyplot
              (table_fs paired_files) (s "ctl") (Some (s "exp"))) = Ret tt
   /\ compared (output (@main seq_numpy (fixed_scipy one) plain_pyplot
                          (table_fs paired_files) (s "ctl") (Some (s "exp"))))
      = comparisons_of [s "Beta"; s "Delta"]
   /\ ~ @compares_every_host seq_numpy (fixed_scipy one) plain_pyplot
          (table_fs paired_files) (s "ctl") (s "exp"))
  /\ (outcome (@main seq_numpy (fixed_scipy one) plain_pyplot
                 (table_fs demo_files) (s "ctl") (Some (s "exp")))
      = Raise (KeyError (s "Beta"))
      /\ compared (output (@main seq_numpy (fixed_scipy one) plain_pyplot
                             (table_fs demo_files) (s "ctl") (Some (s "exp"))))
         = []
      /\ ~ @compares_every_host seq_numpy (fixed_scipy one) plain_pyplot
             (table_fs demo_files) (s "ctl") (s "exp"))
  /\ (outcome (@main seq_numpy (fixed_scipy one) plain_pyplot
                 (table_fs overflow_files) (s "ctl") (Some (s "exp")))
      = Raise (KeyError (s "Beta"))
      /\ In (Print (error_line (s "Beta") axis_limits))
            (output (@main seq_numpy (fixed_scipy one) plain_pyplot
                       (table_fs overflow_files) (s "ctl") (Some (s "exp"))))
      /\ compared (output (@main seq_numpy (fixed_scipy one) plain_pyplot
                             (table_fs overflow_files) (s "ctl")
                             (Some (s "exp"))))
         = []
      /\ ~ @compares_every_host seq_numpy (fixed_scipy one) plain_pyplot
             (table_fs overflow_files) (s "ctl") (s "exp")).
Proof.
  split; [| split].
  - split; [vm_compute; reflexivity |].
    split; [vm_compute; reflexivity |].
    intros [_ H]. vm_compute in H. discriminate.
  - split; [vm_compute; reflexivity |].
    split; [vm_compute; reflexivity |].
    intros [H _]. vm_compute in H. discriminate.
  - split; [vm_compute; reflexivity |].
    split; [vm_compute; tauto |].
    split; [vm_compute; reflexivity |].
    intros [H _]. vm_compute in H. discriminate.
Qed.

(** ** The frequency field *)

Lemma greedy_sound {R : Type} (cs : charset) (cont : str -> option R)
  (u : str) (r : R) :
  greedy cs cont u = Some r ->
  exists w u', u = w ++ u' /\ forallb (mem cs) w = true /\ cont u' = Some r.
Proof.
  induction u as [| c u IH]; simpl; intros H.
  - now exists [], [].
  - destruct (mem cs c) eqn:Hc.
    + destruct (greedy cs cont u) as [r' |] eqn:Hg.
      * injection H as ->. destruct (IH eq_refl) as (w & u' & -> & Hw & Hk).
        exists (c :: w), u'. simpl. now rewrite Hc, Hw.
      * now exists [], (c :: u).
    + now exists [], (c :: u).
Qed.

Lemma exec_split (p q : list node) (t : str) (mk : list str)
  (r : list str * str) :
  exec (p ++ q) t mk = Some r ->
  exists t' mk', steps p t mk t' mk' /\ exec q t' mk' = Some r.
Proof.
  revert t mk. induction p as [| n p IH]; intros t mk H.
  - now exists t, mk.
  - destruct n as [cs | cs | cs |]; cbn [app exec] in H.
    + destruct t as [| c t]; [discriminate |].
      destruct (mem cs c) eqn:Hc; [| discriminate].
      destruct (IH _ _ H) as (t' & mk' & Hs & Hq).
      exists t', mk'. split; [| exact Hq]. now exists c, t.
    + assert (Hskip : exec (p ++ q) t mk = Some r ->
                      exists t' mk',
                        steps (Optional cs :: p) t mk t' mk'
                        /\ exec q t' mk' = Some r).
      { intros H'. destruct (IH _ _ H') as (t' & mk' & Hs & Hq).
        exists t', mk'. split; [now right | exact Hq]. }
      destruct t as [| c t]; [now apply Hskip |].
      destruct (mem cs c) eqn:Hc; [| now apply Hskip].
      destruct (exec (p ++ q) t mk) as [r' |] eqn:He; [| now apply Hskip].
      injection H as ->.
      destruct (IH _ _ He) as (t' & mk' & Hs & Hq).
      exists t', mk'. split; [| exact Hq]. left. now exists c, t.
    + destruct t as [| c t]; [discriminate |].
      destruct (mem cs c) eqn:Hc; [| discriminate].
      destruct (greedy_sound _ _ _ _ H) as (w & u' & -> & Hw & Hk).
      destruct (IH _ _ Hk) as (t' & mk' & Hs & Hq).
      exists t', mk'. split; [| exact Hq]. now exists c, w, u'.
    + destruct (IH _ _ H) as (t' & mk' & Hs & Hq).
      exists t', mk'. now split.
Qed.

Lemma greedy_map {R R' : Type} (f : R -> R') (cs : charset)
  (cont : str -> option R) (cont' : str -> option R') (u : str) :
  (forall v, cont' v = option_map f (cont v)) ->
  greedy cs cont' u = option_map f (greedy cs cont u).
Proof.
  intros Hc. induction u as [| c u IH]; simpl; [apply Hc |].
  destruct (mem cs c); [| apply Hc].
  rewrite IH. destruct (greedy cs cont u); simpl; [reflexivity | apply Hc].
Qed.

(** The marks a run starts with stay below the ones it pushes. *)
Lemma exec_frame (p : list node) (t : str) (mk : list str) :
  exec p t mk
  = option_map (fun r => (fst r ++ mk, snd r)) (exec p t []).
Proof.
  revert t mk. induction p as [| n p IH]; intros t mk; [reflexivity |].
  destruct n as [cs | cs | cs |]; cbn [exec].
  - destruct t as [| c t]; [reflexivity |].
    destruct (mem cs c); [apply IH | reflexivity].
  - destruct t as [| c t]; [apply IH |].
    destruct (mem cs c); [| apply IH].
    rewrite (IH t mk). destruct (exec p t []); [reflexivity | apply IH].
  - destruct t as [| c t]; [reflexivity |].
    destruct (mem cs c); [| reflexivity].
    apply greedy_map. intros v. apply IH.
  - rewrite (IH t (t :: mk)), (IH t [t]).
    destruct (exec p t []) as [[ms r] |]; simpl; [| reflexivity].
    now rewrite <- app_assoc.
Qed.

Lemma search_from_exec (prog : list node) (line t : str) (pos : nat)
  (m : re_match) :
  search_from prog line t pos = Some m ->
  exists skipped t1,
    t = skipped ++ t1 /\ exec prog t1 [] = Some (m_marks m, m_rest m).
Proof.
  revert pos. induction t as [| c t IH]; intros pos; simpl.
  - destruct (exec prog [] []) as [[marks rest] |] eqn:He; [| discriminate].
    intros [= <-]. now exists [], [].
  - destruct (exec prog (c :: t) []) as [[marks rest] |] eqn:He.
    + intros [= <-]. now exists [], (c :: t).
    + intros H. destruct (IH _ H) as (sk & t1 & -> & Ht).
      now exists (c :: sk), t1.
Qed.

Lemma re_pattern_parts :
  re_pattern = pat_head ++ pat_offset ++ pat_freq ++ pat_delay.
Proof. reflexivity. Qed.

Lemma steps_consumes (p : list node) (t : str) (mk : list str) (t' : str)
  (mk' : list str) :
  steps p t mk t' mk' -> exists consumed, t = consumed ++ t'.
Proof.
  revert t mk. induction p as [| n p IH]; intros t mk H.
  - destruct H as [-> _]. now exists [].
  - destruct n as [cs | cs | cs |]; cbn [steps] in H.
    + destruct H as (c & u & -> & _ & H).
      destruct (IH _ _ H) as [x ->]. now exists (c :: x).
    + destruct H as [(c & u & -> & _ & H) | H].
      * destruct (IH _ _ H) as [x ->]. now exists (c :: x).
      * now apply IH in H.
    + destruct H as (c & w & u & -> & _ & _ & H).
      destruct (IH _ _ H) as [x ->]. exists (c :: w ++ x).
      simpl. now rewrite app_assoc.
    + now apply IH in H.
Qed.

Lemma steps_unmarked (p : list node) (t : str) (mk : list str) (t' : str)
  (mk' : list str) :
  forallb unmarked p = true -> steps p t mk t' mk' -> mk' = mk.
Proof.
  revert t mk. induction p as [| n p IH]; intros t mk Hp H.
  - now destruct H.
  - simpl in Hp. apply andb_true_iff in Hp. destruct Hp as [Hn Hp].
    destruct n as [cs | cs | cs |]; cbn [steps] in H; [| | | discriminate].
    + destruct H as (c & u & _ & _ & H). exact (IH _ _ Hp H).
    + destruct H as [(c & u & _ & _ & H) | H]; exact (IH _ _ Hp H).
    + destruct H as (c & w & u & _ & _ & _ & H). exact (IH _ _ Hp H).
Qed.

Ltac literal H :=
  repeat match type of H with
         | exists c u, _ = c :: u /\ Ascii.eqb c _ = true /\ _ =>
             let c := fresh "c" in
             let u := fresh "u" in
             let Hc := fresh "Hc" in
             destruct H as (c & u & -> & Hc & H);
             apply Ascii.eqb_eq in Hc; subst c
         end.

Lemma steps_pat_offset (t : str) (mk : list str) (t' : str) (mk' : list str) :
  steps pat_offset t mk t' mk' ->
  exists w1 sg dg w2 w3,
    run is_space w1 /\ sign_part sg /\ run is_digit dg
    /\ run is_space w2 /\ run is_space w3
    /\ t = w1 ++ (sg ++ dg) ++ w2 ++ s "s2 freq" ++ w3 ++ t'
    /\ mk' = [t'; w2 ++ s "s2 freq" ++ w3 ++ t';
              (sg ++ dg) ++ w2 ++ s "s2 freq" ++ w3 ++ t'] ++ mk.
Proof.
  unfold pat_offset, lit, s. cbn [list_ascii_of_string map app steps mem].
  intros H.
  destruct H as (a & wa & u & -> & Ha & Hwa & H).
  destruct H as [(c & u0 & -> & Hc & H) | H];
    destruct H as (d & wd & u1 & -> & Hd & Hwd
                   & b & wb & u2 & -> & Hb & Hwb & H);
    literal H;
    destruct H as (e & we & u9 & -> & He & Hwe & -> & <-).
  - exists (a :: wa), [c], (d :: wd), (b :: wb), (e :: we).
    repeat split; try discriminate;
      try (simpl; apply andb_true_iff; split; assumption).
    right. now exists c.
  - exists (a :: wa), [], (d :: wd), (b :: wb), (e :: we).
    repeat split; try discriminate;
      try (simpl; apply andb_true_iff; split; assumption).
    now left.
Qed.

Lemma steps_pat_freq (t : str) (mk : list str) (t' : str) (mk' : list str) :
  steps pat_freq t mk t' mk' -> exists g, t = g ++ t' /\ mk' = t' :: mk.
Proof.
  unfold pat_freq. cbn [steps]. intros H.
  destruct H as [(c & u & -> & _ & H) | H];
    destruct H as (d & wd & u1 & -> & _ & _ & -> & <-).
  - exists (c :: d :: wd). split; reflexivity.
  - exists (d :: wd). split; reflexivity.
Qed.

Lemma exec_pat_delay_marks (t : str) (new : list str) (rest : str) :
  exec pat_delay t [] = Some (new, rest) ->
  exists c3 o3, new = [c3; o3].
Proof.
  intros H. rewrite <- (app_nil_r pat_delay) in H.
  apply exec_split in H. destruct H as (t' & mk' & Hs & He).
  injection He as <- <-. revert Hs.
  unfold pat_delay, lit, s. cbn [list_ascii_of_string map app steps mem].
  intros H.
  destruct H as (a & wa & ua & -> & _ & _ & H).
  literal H.
  destruct H as (b & wb & ub & -> & _ & _ & d & wd & ud & -> & _ & _ & _ & <-).
  eexists. eexists. reflexivity.
Qed.

Lemma between_app (g c : str) : between (g ++ c) c = g.
Proof.
  unfold between. rewrite length_app, Nat.add_sub.
  rewrite firstn_app, Nat.sub_diag, firstn_all. simpl. apply app_nil_r.
Qed.

(** The shape of a line that matches, around its frequency field [g2]:
    in front of it an offset [sg ++ dg] between white space, the words
    ["s2 freq"] and white space; behind it the text [c2], on which the
    last part of the pattern runs by itself. *)
Lemma search_shape (line : str) (m : re_match) :
  search re_pattern line = Some m ->
  exists front w1 sg dg w2 w3 g2 c2 c3 o3,
    run is_space w1 /\ sign_part sg /\ run is_digit dg
    /\ run is_space w2 /\ run is_space w3
    /\ line = (front ++ w1 ++ (sg ++ dg) ++ w2 ++ s "s2 freq" ++ w3)
              ++ g2 ++ c2
    /\ group m 1 = sg ++ dg
    /\ group m 2 = g2
    /\ group_start m 2
       = length (front ++ w1 ++ (sg ++ dg) ++ w2 ++ s "s2 freq" ++ w3)
    /\ group m 3 = between o3 c3
    /\ exec pat_delay c2 [] = Some ([c3; o3], m_rest m).
Proof.
  intros Hs. pose proof (search_from_line _ _ _ _ _ Hs) as Hline.
  apply search_from_exec in Hs. destruct Hs as (skipped & t1 & Hl & He).
  rewrite re_pattern_parts in He.
  apply exec_split in He. destruct He as (t0 & mk0 & Hhead & He).
  pose proof (steps_unmarked pat_head _ _ _ _ eq_refl Hhead) as ->.
  apply steps_consumes in Hhead. destruct Hhead as [x ->].
  apply exec_split in He. destruct He as (ta & mka & Hoff & He).
  apply steps_pat_offset in Hoff.
  destruct Hoff as (w1 & sg & dg & w2 & w3 & Hw1 & Hsg & Hdg & Hw2 & Hw3
                    & -> & ->).
  apply exec_split in He. destruct He as (tb & mkb & Hfreq & He).
  apply steps_pat_freq in Hfreq. destruct Hfreq as (g2 & -> & ->).
  rewrite exec_frame in He.
  destruct (exec pat_delay tb []) as [[new r] |] eqn:Hd; [| discriminate].
  destruct (exec_pat_delay_marks _ _ _ Hd) as (c3 & o3 & ->).
  cbn [option_map fst snd app] in He. injection He as Hmarks Hrest.
  exists (skipped ++ x), w1, sg, dg, w2, w3, g2, tb, c3, o3.
  repeat (split; [assumption |]).
  assert (Heq : line = ((skipped ++ x) ++ w1 ++ (sg ++ dg) ++ w2
                        ++ s "s2 freq" ++ w3) ++ g2 ++ tb).
  { rewrite Hl, <- !app_assoc. reflexivity. }
  split; [exact Heq |].
  unfold group, group_start, mark. rewrite <- Hmarks, Hline. cbn [length Nat.sub Nat.mul Nat.add nth].
  split; [| split; [| split; [| split]]].
  - rewrite <- !app_assoc. rewrite !app_assoc. rewrite <- !app_assoc.
    rewrite (app_assoc sg dg). apply between_app.
  - apply between_app.
  - rewrite Heq at 1. rewrite (length_app _ (g2 ++ tb)). apply Nat.add_sub.
  - reflexivity.
  - now rewrite <- Hrest.
Qed.

Lemma span_unique (P : ascii -> bool) (a a' b b' : str) :
  forallb P a = true -> forallb P a' = true ->
  stops P b -> stops P b' ->
  a ++ b = a' ++ b' -> a = a' /\ b = b'.
Proof.
  revert a'. induction a as [| c a IH]; intros [| c' a'] Ha Ha' Hb Hb' H;
    simpl in *.
  - now split.
  - subst b. simpl in Hb. apply andb_true_iff in Ha'. destruct Ha'. congruence.
  - subst b'. simpl in Hb'. apply andb_true_iff in Ha. destruct Ha. congruence.
  - injection H as -> H.
    apply andb_true_iff in Ha, Ha'. destruct Ha as [_ Ha], Ha' as [_ Ha'].
    destruct (IH a' Ha Ha' Hb Hb' H) as [-> ->]. now split.
Qed.

Lemma forallb_rev (P : ascii -> bool) (w : str) :
  forallb P w = true -> forallb P (rev w) = true.
Proof.
  rewrite !forallb_forall. intros H c Hc. apply H. now apply in_rev.
Qed.

Lemma run_rev (P : ascii -> bool) (w : str) :
  run P w ->
  forallb P (rev w) = true /\ exists c r, rev w = c :: r /\ P c = true.
Proof.
  intros [Hne Hall]. apply forallb_rev in Hall. split; [exact Hall |].
  destruct (rev w) as [| c r] eqn:Hr.
  - apply (f_equal (@rev ascii)) in Hr. rewrite rev_involutive in Hr.
    contradiction.
  - simpl in Hall. apply andb_true_iff in Hall. now exists c, r.
Qed.

Lemma digit_not_space (c : ascii) : is_digit c = true -> is_space c = false.
Proof.
  unfold is_digit, is_space. intros H.
  apply andb_true_iff in H. destruct H as [H1 H2].
  apply Nat.leb_le in H1, H2.
  repeat match goal with
         | |- context [?a <=? ?b] => destruct (Nat.leb_spec a b)
         | |- context [?a =? ?b] => destruct (Nat.eqb_spec a b)
         end; simpl; try reflexivity; lia.
Qed.

Lemma space_not_digit (c : ascii) : is_space c = true -> is_digit c = false.
Proof.
  intros H. destruct (is_digit c) eqn:Hd; [| reflexivity].
  apply digit_not_space in Hd. congruence.
Qed.

Lemma sign_cases (c : ascii) :
  is_sign c = true -> is_digit c = false /\ is_space c = false.
Proof.
  unfold is_sign. intros H. apply orb_true_iff in H.
  destruct H as [H | H]; apply Ascii.eqb_eq in H; subst c; now split.
Qed.

(** The offset of a matching line can be read off the text in front of
    the frequency field. *)
Lemma offset_from_front
  (front w1 sg dg w2 w3 front' w1' sg' dg' w2' w3' : str) :
  run is_space w1 -> sign_part sg -> run is_digit dg ->
  run is_space w2 -> run is_space w3 ->
  run is_space w1' -> sign_part sg' -> run is_digit dg' ->
  run is_space w2' -> run is_space w3' ->
  front ++ w1 ++ (sg ++ dg) ++ w2 ++ s "s2 freq" ++ w3
  = front' ++ w1' ++ (sg' ++ dg') ++ w2' ++ s "s2 freq" ++ w3' ->
  sg ++ dg = sg' ++ dg'.
Proof.
  intros Hw1 Hsg Hdg Hw2 Hw3 Hw1' Hsg' Hdg' Hw2' Hw3' H.
  apply (f_equal (@rev ascii)) in H.
  rewrite !rev_app_distr, <- !app_assoc in H.
  apply run_rev in Hw1, Hdg, Hw2, Hw3, Hw1', Hdg', Hw2', Hw3'.
  destruct Hw1 as (Aw1 & c1 & r1 & E1 & P1), Hdg as (Adg & cd & rd & Ed & Pd),
    Hw2 as (Aw2 & c2 & r2 & E2 & P2), Hw3 as (Aw3 & _),
    Hw1' as (Aw1' & c1' & r1' & E1' & P1'),
    Hdg' as (Adg' & cd' & rd' & Ed' & Pd'),
    Hw2' as (Aw2' & c2' & r2' & E2' & P2'), Hw3' as (Aw3' & _).
  apply span_unique with (P := is_space) in H;
    [| assumption | assumption | reflexivity | reflexivity].
  destruct H as [_ H]. apply app_inv_head in H.
  apply span_unique with (P := is_space) in H;
    [| assumption | assumption
     | rewrite Ed; simpl; now apply digit_not_space
     | rewrite Ed'; simpl; now apply digit_not_space].
  destruct H as [_ H].
  assert (St : forall x cx rx y, sign_part x -> forall z,
             rev y = cx :: rx -> is_space cx = true ->
             stops is_digit (rev x ++ rev y ++ z)).
  { intros x cx rx y [-> | (c & -> & Hc)] z Ey Py; simpl.
    - rewrite Ey. simpl. now apply space_not_digit.
    - now apply sign_cases in Hc. }
  apply span_unique with (P := is_digit) in H;
    [| assumption | assumption | now apply (St sg c1 r1)
     | now apply (St sg' c1' r1')].
  destruct H as [Hd H].
  apply (f_equal (@rev ascii)) in Hd. rewrite !rev_involutive in Hd. subst dg'.
  f_equal.
  rewrite E1, E1' in H.
  destruct Hsg as [-> | (c & -> & Hc)], Hsg' as [-> | (c' & -> & Hc')];
    simpl in H; try reflexivity.
  - injection H as -> _. apply sign_cases in Hc'. destruct Hc'. congruence.
  - injection H as -> _. apply sign_cases in Hc. destruct Hc. congruence.
  - now injection H as ->.
Qed.

Lemma app_eq_length (a b a' b' : str) :
  a ++ b = a' ++ b' -> length a = length a' -> a = a' /\ b = b'.
Proof.
  revert a'. induction a as [| c a IH]; intros [| c' a'] H Hl;
    simpl in *; try discriminate.
  - now split.
  - injection H as -> H. injection Hl as Hl.
    destruct (IH a' H Hl) as [-> ->]. now split.
Qed.

Lemma freq_variant_groups (l1 l2 : str) (m1 m2 : re_match)
  (before after : str) :
  search re_pattern l1 = Some m1 ->
  search re_pattern l2 = Some m2 ->
  l1 = before ++ group m1 2 ++ after ->
  l2 = before ++ group m2 2 ++ after ->
  group_start m1 2 = length before ->
  group_start m2 2 = length before ->
  group m1 1 = group m2 1 /\ group m1 3 = group m2 3.
Proof.
  intros S1 S2 E1 E2 L1 L2.
  apply search_shape in S1, S2.
  destruct S1 as (f & w1 & sg & dg & w2 & w3 & g2 & c2 & c3 & o3
                  & Hw1 & Hsg & Hdg & Hw2 & Hw3 & Hl & G1 & G2 & Gs & G3 & Hd).
  destruct S2 as (f' & w1' & sg' & dg' & w2' & w3' & g2' & c2' & c3' & o3'
                  & Hw1' & Hsg' & Hdg' & Hw2' & Hw3' & Hl' & G1' & G2' & Gs'
                  & G3' & Hd').
  rewrite G2 in E1. rewrite G2' in E2.
  rewrite Gs in L1. rewrite Gs' in L2.
  rewrite E1 in Hl. rewrite E2 in Hl'.
  apply app_eq_length in Hl; [| now symmetry].
  apply app_eq_length in Hl'; [| now symmetry].
  destruct Hl as [Hb Ha], Hl' as [Hb' Ha'].
  apply app_inv_head in Ha, Ha'. subst c2 c2'.
  rewrite Hd in Hd'. injection Hd' as <- <- _.
  rewrite G1, G1', G3, G3'. split; [| reflexivity].
  rewrite Hb in Hb'.
  exact (offset_from_front _ _ _ _ _ _ _ _ _ _ _ _
           Hw1 Hsg Hdg Hw2 Hw3 Hw1' Hsg' Hdg' Hw2' Hw3' Hb').
Qed.

Lemma freq_variant_samples (ls1 ls2 : list str) :
  Forall2 freq_variant ls1 ls2 ->
  map offset_of (matches ls1) = map offset_of (matches ls2)
  /\ map delay_of (matches ls1) = map delay_of (matches ls2)
  /\ length (matches ls1) = length (matches ls2).
Proof.
  induction 1 as [| l1 l2 ls1 ls2 Hv _ IH]; [now repeat split |].
  destruct IH as (IHo & IHd & IHl). cbn [matches flat_map].
  fold (matches ls1). fold (matches ls2).
  unfold freq_variant in Hv.
  destruct (search re_pattern l1) as [m1 |] eqn:S1,
           (search re_pattern l2) as [m2 |] eqn:S2; try contradiction.
  - destruct Hv as (before & after & E1 & E2 & L1 & L2).
    destruct (freq_variant_groups _ _ _ _ _ _ S1 S2 E1 E2 L1 L2) as [G1 G3].
    cbn [app map length]. unfold offset_of at 1 3, delay_of at 1 3.
    rewrite G1, G3, IHo, IHd, IHl. now repeat split.
  - now repeat split.
Qed.

(** C9. Two files that were read and whose lines are the same but for
    the frequency field give the same offsets and the same delays, and
    [parse_file] does and returns the same on both: the same lines
    printed, the same plots drawn from the same data, the same pair of
    arrays. *)
Theorem C9_frequency_is_ignored {NP : NumPy} {SP : SciPy} {PP : PyPlot}
  (FS1 FS2 : FileSystem) (path1 path2 name : str) (ls1 ls2 : list str) :
  @readlines FS1 path1 = Ret ls1 ->
  @readlines FS2 path2 = Ret ls2 ->
  Forall2 freq_variant ls1 ls2 ->
  scan ls1 = scan ls2
  /\ @parse_file NP SP PP FS1 path1 name = @parse_file NP SP PP FS2 path2 name.
Proof.
  intros R1 R2 Hv.
  destruct (freq_variant_samples ls1 ls2 Hv) as (Ho & Hd & Hl).
  split.
  - now rewrite !scan_matches, Ho, Hd.
  - rewrite (@parse_file_read NP SP PP FS1 path1 name ls1 R1).
    rewrite (@parse_file_read NP SP PP FS2 path2 name ls2 R2).
    rewrite Ho, Hd.
    destruct (matches ls1), (matches ls2); try discriminate; reflexivity.
Qed.

Lemma C9_witness :
  scan good_log = scan retuned_log
  /\ @parse_file seq_numpy (fixed_scipy one) plain_pyplot
       (table_fs demo_files) (s "ctl/beta.log") (s "Beta")
     = @parse_file seq_numpy (fixed_scipy one) plain_pyplot
         (table_fs [(s "new/beta.log", retuned_log)])
         (s "new/beta.log") (s "Beta").
Proof.
  apply (@C9_frequency_is_ignored seq_numpy (fixed_scipy one) plain_pyplot
           (table_fs demo_files) (table_fs [(s "new/beta.log", retuned_log)])
           (s "ctl/beta.log") (s "new/beta.log") (s "Beta")
           good_log retuned_log).
  - reflexivity.
  - reflexivity.
  - repeat constructor.
    + exists (s "ptp4l[100]: ptp4l[1.5]: master offset   10 s2 freq   "),
        (s " path delay   20" ++ nl).
      vm_compute. repeat split.
    + exists (s "ptp4l[100]: ptp4l[1.5]: master offset   -3 s2 freq   "),
        (s " path delay   21" ++ nl).
      vm_compute. repeat split.
Defined.

(** * Further properties of the script *)

(** ** The dictionaries of [main] *)

Lemma dict_get_missing (d : dict) (k : str) :
  ~ In k (keys d) -> dict_get d k = Raise (KeyError k).
Proof.
  induction d as [| [k' v'] d IH]; simpl; intros H; [reflexivity |].
  rewrite str_eqb_neq by tauto. apply IH. tauto.
Qed.

Lemma dict_set_keys_known (d : dict) (k : str) (v : list float) :
  In k (keys d) -> keys (dict_set d k v) = keys d.
Proof.
  induction d as [| [k' v'] d IH]; simpl; [tauto |].
  intros H. destruct (list_eq_dec ascii_dec k' k) as [-> | Hne].
  - now rewrite str_eqb_refl.
  - rewrite (str_eqb_neq k' k Hne). simpl. f_equal. apply IH. tauto.
Qed.

(** X18. Storing under a key and reading back: the value stored is the
    value read, the other keys read as before, a key that is there keeps
    its place in the order of the keys and a new one goes last; reading
    a key that is not there raises [KeyError] with that key. *)
Theorem dict_store_then_read (d : dict) (k k' : str) (v : list float) :
  dict_get (dict_set d k v) k = Ret v
  /\ (k' <> k -> dict_get (dict_set d k v) k' = dict_get d k')
  /\ (In k (keys d) -> keys (dict_set d k v) = keys d)
  /\ (~ In k (keys d) -> keys (dict_set d k v) = keys d ++ [k])
  /\ (~ In k' (keys d) -> dict_get d k' = Raise (KeyError k')).
Proof.
  split; [| split; [| split; [| split]]].
  - induction d as [| [k0 v0] d IH]; simpl.
    + now rewrite str_eqb_refl.
    + destruct (list_eq_dec ascii_dec k0 k) as [-> | Hne].
      * rewrite str_eqb_refl. simpl. now rewrite str_eqb_refl.
      * rewrite (str_eqb_neq k0 k Hne). simpl.
        now rewrite (str_eqb_neq k0 k Hne).
  - intros Hk. induction d as [| [k0 v0] d IH]; simpl.
    + rewrite str_eqb_neq; [reflexivity | congruence].
    + destruct (list_eq_dec ascii_dec k0 k) as [-> | Hne].
      * rewrite str_eqb_refl. simpl. rewrite str_eqb_neq; congruence.
      * rewrite (str_eqb_neq k0 k Hne). simpl. now rewrite IH.
  - apply dict_set_keys_known.
  - intros H. rewrite (dict_set_fresh d k v H).
    unfold keys. now rewrite map_app.
  - apply dict_get_missing.
Qed.

(** ** The paths of the logs *)

Lemma path_join_relative (dir file : str) (c : ascii) (rest : str) :
  file = c :: rest -> c <> "/"%char ->
  path_join dir file =
  match dir with
  | [] => file
  | _ => if Ascii.eqb (last dir " "%char) "/"%char then dir ++ file
         else dir ++ "/"%char :: file
  end.
Proof.
  intros -> Hc. unfold path_join.
  destruct c as [[] [] [] [] [] [] [] []]; try reflexivity. congruence.
Qed.

(** X19. The directory may be given with or without a slash at its end:
    the four logs are looked up under the same paths. An empty directory
    stands for the working directory: the paths are the bare file
    names. *)
Theorem machines_trailing_slash (dir : str) :
  dir <> [] -> last dir " "%char <> "/"%char ->
  machines (dir ++ s "/") = machines dir
  /\ map snd (machines dir)
     = map (fun file => dir ++ s "/" ++ file)
         [s "beta.log"; s "charlie.log"; s "delta.log"; s "echo.log"]
  /\ map snd (machines [])
     = [s "beta.log"; s "charlie.log"; s "delta.log"; s "echo.log"].
Proof.
  intros Hne Hlast.
  assert (Hj : forall file c rest, file = c :: rest -> c <> "/"%char ->
                 path_join dir file = dir ++ s "/" ++ file
                 /\ path_join (dir ++ s "/") file = dir ++ s "/" ++ file).
  { intros file c rest Hf Hc.
    rewrite !(path_join_relative _ file c rest Hf Hc).
    destruct dir as [| a dir']; [congruence |].
    apply Ascii.eqb_neq in Hlast. rewrite Hlast.
    split; [reflexivity |].
    change (s "/") with ["/"%char].
    rewrite last_last, Ascii.eqb_refl, <- app_assoc.
    destruct ((a :: dir') ++ ["/"%char]) eqn:E; [| reflexivity].
    destruct dir'; discriminate. }
  unfold machines. cbn [map snd].
  destruct (Hj (s "beta.log") "b"%char (s "eta.log") eq_refl) as [-> ->];
    [discriminate |].
  destruct (Hj (s "charlie.log") "c"%char (s "harlie.log") eq_refl) as [-> ->];
    [discriminate |].
  destruct (Hj (s "delta.log") "d"%char (s "elta.log") eq_refl) as [-> ->];
    [discriminate |].
  destruct (Hj (s "echo.log") "e"%char (s "cho.log") eq_refl) as [-> ->];
    [discriminate |].
  repeat split.
Qed.

Lemma machines_trailing_slash_witness :
  machines (s "ctl" ++ s "/") = machines (s "ctl").
Proof.
  apply (machines_trailing_slash (s "ctl")); discriminate.
Defined.

(** ** The loop over the lines *)

Lemma matches_app (a b : list str) : matches (a ++ b) = matches a ++ matches b.
Proof. apply flat_map_app. Qed.

Lemma matches_filter (a : list str) : matches (filter matching a) = matches a.
Proof.
  induction a as [| l a IH]; simpl; [reflexivity |].
  unfold matching at 1.
  destruct (search re_pattern l) as [m |] eqn:Hs; simpl.
  - now rewrite Hs, IH.
  - exact IH.
Qed.

(** X10. The samples of two lists of lines, one after the other, are the
    samples of the first followed by those of the second; and the lines
    that do not match may be dropped: the samples stay the same. *)
Theorem scan_composes (a b : list str) :
  scan (a ++ b) = (fst (scan a) ++ fst (scan b), snd (scan a) ++ snd (scan b))
  /\ scan (filter matching a) = scan a.
Proof.
  rewrite !scan_matches, matches_app, matches_filter, !map_app.
  split; reflexivity.
Qed.

(** ** One host of a parsing loop *)

(** X5. What one turn of a parsing loop prints and keeps. A log that
    cannot be read: the host name and the error of the read, nothing
    stored. A log with no matching line: the host name, the "no valid
    data" line and then, as an error, the [TypeError] of unpacking
    [None]; nothing stored. A log with a matching line: the host name
    and what the report printed and did; then, when the report came to
    its end, an empty line, and the two samples are stored under the
    host name; when the report raised, the error, and nothing is stored.
    The report raises when the limits of the offsets are not finite
    numbers, as with an offset too large for binary64: with fewer than
    three offsets what is logged then is the [ValueError] of [ylim]. *)
Theorem parse_host_cases
  {NP : NumPy} {SP : SciPy} {PP : PyPlot} {FS : FileSystem}
  (offset_data delay_data : dict) (name path : str) :
  (forall e,
     readlines path = Raise e ->
     parse_host (offset_data, delay_data) (name, path)
     = ([Print [Txt name]; Print (error_line name e)],
        Ret (offset_data, delay_data)))
  /\ (forall lines,
        readlines path = Ret lines -> matches lines = [] ->
        parse_host (offset_data, delay_data) (name, path)
        = ([Print [Txt name]; Print no_valid_data;
            Print (error_line name unpack_none)],
           Ret (offset_data, delay_data)))
  /\ (forall lines,
        readlines path = Ret lines -> matches lines <> [] ->
        outcome (report name (fst (scan lines)) (snd (scan lines))) = Ret tt ->
        parse_host (offset_data, delay_data) (name, path)
        = (Print [Txt name]
             :: output (report name (fst (scan lines)) (snd (scan lines)))
             ++ [Print []],
           Ret (dict_set offset_data name (fst (scan lines)),
                dict_set delay_data name (snd (scan lines)))))
  /\ (forall lines e,
        readlines path = Ret lines -> matches lines <> [] ->
        outcome (report name (fst (scan lines)) (snd (scan lines))) = Raise e ->
        parse_host (offset_data, delay_data) (name, path)
        = (Print [Txt name]
             :: output (report name (fst (scan lines)) (snd (scan lines)))
             ++ [Print (error_line name e)],
           Ret (offset_data, delay_data)))
  /\ (forall lines,
        readlines path = Ret lines ->
        0 < length (matches lines) < 3 ->
        finite_limits (fst (scan lines)) = false ->
        parse_host (offset_data, delay_data) (name, path)
        = (Print [Txt name]
             :: output (stats_lines (tab ++ s "Offset Stats:")
                          (fst (scan lines)))
             ++ Print (not_enough (s "Offsets"))
             :: plot_setup (fst (scan lines)) name (s "Offset")
             ++ [Print (error_line name axis_limits)],
           Ret (offset_data, delay_data))).
Proof.
  split; [| split; [| split; [| split]]].
  - intros e Hr. rewrite parse_host_eq.
    now rewrite (parse_file_unread path name e Hr).
  - intros lines Hr Hm. rewrite parse_host_eq.
    now rewrite (parse_file_read path name lines Hr), Hm.
  - intros lines Hr Hm. rewrite parse_host_eq.
    rewrite (parse_file_read path name lines Hr), scan_matches.
    destruct (matches lines) as [| m ms]; [congruence |].
    cbv zeta. cbn [fst snd]. now intros ->.
  - intros lines e Hr Hm. rewrite parse_host_eq.
    rewrite (parse_file_read path name lines Hr), scan_matches.
    destruct (matches lines) as [| m ms]; [congruence |].
    cbv zeta. cbn [fst snd]. now intros ->.
  - intros lines Hr Hlen. rewrite parse_host_eq.
    rewrite (parse_file_read path name lines Hr), scan_matches.
    destruct (matches lines) as [| m ms] eqn:Hm; [simpl in Hlen; lia |].
    cbv zeta. cbn [fst snd map]. unfold finite_limits.
    destruct (np_min_some (offset_of m) (map offset_of ms)) as [lo Hlo].
    destruct (np_max_some (offset_of m) (map offset_of ms)) as [hi Hhi].
    rewrite Hlo, Hhi. intros Hfin.
    assert (Ho : length (offset_of m :: map offset_of ms) < 3)
      by (cbn [length] in *; rewrite length_map; lia).
    rewrite report_outcome, report_output.
    rewrite (run_shapiro_wilk_small _ (s "Offsets") Ho).
    rewrite (create_plot_not_finite _ name (s "Offset") lo hi Hlo Hhi Hfin).
    unfold outcome, output. cbn [fst snd]. cbn [app].
    rewrite app_nil_r, <- app_assoc. reflexivity.
Qed.

Lemma parse_host_cases_witness :
  @parse_host seq_numpy (fixed_scipy one) plain_pyplot
    (table_fs overflow_files) ([], []) (s "Beta", s "exp/beta.log")
  = (Print [Txt (s "Beta")]
       :: output (@stats_lines seq_numpy (tab ++ s "Offset Stats:")
                    [S754_infinity false])
       ++ Print (not_enough (s "Offsets"))
       :: plot_setup [S754_infinity false] (s "Beta") (s "Offset")
       ++ [Print (error_line (s "Beta") axis_limits)],
     Ret ([], [])).
Proof.
  destruct (@parse_host_cases seq_numpy (fixed_scipy one) plain_pyplot
              (table_fs overflow_files) [] [] (s "Beta") (s "exp/beta.log"))
    as (_ & _ & _ & _ & H).
  apply (H overflow_log).
  - reflexivity.
  - vm_compute. lia.
  - vm_compute. reflexivity.
Defined.

(** ** The comparison loop *)

Lemma known_in (names : list str) (name : str) :
  known names name = true <-> In name names.
Proof.
  unfold known. rewrite existsb_exists. split.
  - intros (x & Hx & He). unfold str_eqb in He.
    destruct (list_eq_dec ascii_dec name x); [now subst | discriminate].
  - intros H. exists name. split; [exact H | apply str_eqb_refl].
Qed.

Lemma until_missing_none (names have : list str) :
  snd (until_missing names have) = None
  <-> (forall name, In name names -> In name have).
Proof.
  induction names as [| n names IH]; simpl; [tauto |].
  destruct (known have n) eqn:Hk.
  - apply known_in in Hk.
    destruct (until_missing names have) as [done miss]. simpl in *.
    rewrite IH. split.
    + intros H name [<- | Hin]; auto.
    + intros H name Hin. apply H. now right.
  - simpl. split; [discriminate |].
    intros H. assert (Hin : In n have) by (apply H; now left).
    apply known_in in Hin. congruence.
Qed.

Section Comparisons.

Context {NP : NumPy} {SP : SciPy} {PP : PyPlot} {FS : FileSystem}.

Lemma compare_host_missing (control experimental : dict * dict) (name : str)
  (c : list float) :
  dict_get (fst control) name = Ret c ->
  ~ In name (keys (fst experimental)) ->
  compare_host control experimental name
  = ([Print (comparing name "Offsets"); Print []], Raise (KeyError name)).
Proof.
  intros Hc He. unfold compare_host, lift.
  rewrite Hc, (dict_get_missing _ _ He). reflexivity.
Qed.

Lemma compare_loop_until (control experimental : str) (names : list str) :
  (forall name, In name names -> In name (parsed_hosts control)) ->
  outcome (for_each names
             (fun _ name => compare_host (loaded control) (loaded experimental)
                              name) tt)
  = match snd (until_missing names (parsed_hosts experimental)) with
    | None => Ret tt
    | Some name => Raise (KeyError name)
    end
  /\ compared (output (for_each names
                 (fun _ name => compare_host (loaded control)
                                  (loaded experimental) name) tt))
     = comparisons_of (fst (until_missing names (parsed_hosts experimental))).
Proof.
  induction names as [| n names IH]; intros Hin; [now split |].
  cbn [for_each until_missing].
  assert (Hc1 : In n (keys (entries fst (machines control))))
    by (rewrite keys_entries; apply Hin; now left).
  assert (Hc2 : In n (keys (entries snd (machines control))))
    by (rewrite keys_entries; apply Hin; now left).
  destruct (dict_get_entries fst _ n (or_introl eq_refl) Hc1)
    as (co & cos & Hco).
  destruct (dict_get_entries snd _ n (or_intror eq_refl) Hc2)
    as (cd & cds & Hcd).
  rewrite outcome_bind, output_bind, compared_app.
  destruct (known (parsed_hosts experimental) n) eqn:Hk.
  - apply known_in in Hk.
    assert (He1 : In n (keys (entries fst (machines experimental))))
      by now rewrite keys_entries.
    assert (He2 : In n (keys (entries snd (machines experimental))))
      by now rewrite keys_entries.
    destruct (dict_get_entries fst _ n (or_introl eq_refl) He1)
      as (eo & eos & Heo).
    destruct (dict_get_entries snd _ n (or_intror eq_refl) He2)
      as (ed & eds & Hed).
    destruct (compare_host_spec (loaded control) (loaded experimental) n
                _ _ _ _ _ _ _ _ Hco Heo Hcd Hed) as [Hout Hcmp].
    rewrite Hout, Hcmp. cbv beta iota.
    destruct IH as [IHout IHcmp]; [intros x Hx; apply Hin; now right |].
    rewrite IHout, IHcmp.
    destruct (until_missing names (parsed_hosts experimental)) as [done miss].
    now split.
  - assert (Hne : ~ In n (keys (fst (loaded experimental)))).
    { cbn [loaded fst]. rewrite keys_entries. intros H.
      apply known_in in H. unfold parsed_hosts in Hk. congruence. }
    rewrite (compare_host_missing (loaded control) (loaded experimental) n
               _ Hco Hne).
    now split.
Qed.

Lemma main_run (control experimental : str) :
  outcome (main control (Some experimental))
  = match snd (until_missing (parsed_hosts control)
                 (parsed_hosts experimental)) with
    | None => Ret tt
    | Some name => Raise (KeyError name)
    end
  /\ compared (output (main control (Some experimental)))
     = comparisons_of (fst (until_missing (parsed_hosts control)
                              (parsed_hosts experimental))).
Proof.
  destruct (parse_loop_machines control) as [Hc Hcq].
  destruct (parse_loop_machines experimental) as [He Heq].
  unfold main.
  rewrite outcome_bind, output_bind, Hc. cbv beta iota.
  rewrite outcome_bind, output_bind, He. cbv beta iota.
  rewrite !compared_app, Hcq, Heq. cbn [app fst].
  rewrite keys_entries. fold (parsed_hosts control).
  apply (compare_loop_until control experimental (parsed_hosts control)).
  auto.
Qed.

End Comparisons.

(** X1. A run with both directories compares the hosts parsed under the
    control directory, those for which [parse_file] returned the samples,
    in order, until one of them was not parsed under the experimental
    directory: there [main] raises [KeyError] with that host's name, and
    the hosts after it are not compared. It ends normally exactly when
    there is no such host; so it does when no host was parsed under the
    control directory, as when the one log there holds an offset too
    large for binary64. *)
Theorem main_stops_at_missing_host
  {NP : NumPy} {SP : SciPy} {PP : PyPlot} {FS : FileSystem}
  (control experimental : str) :
  let (done, miss) :=
    until_missing (parsed_hosts control) (parsed_hosts experimental) in
  outcome (main control (Some experimental))
  = match miss with
    | None => Ret tt
    | Some name => Raise (KeyError name)
    end
  /\ compared (output (main control (Some experimental))) = comparisons_of done
  /\ (outcome (main control (Some experimental)) = Ret tt
      <-> forall name, In name (parsed_hosts control) ->
                       In name (parsed_hosts experimental)).
Proof.
  destruct (main_run control experimental) as [Hout Hcmp].
  pose proof (until_missing_none (parsed_hosts control)
                (parsed_hosts experimental)) as Hnone.
  destruct (until_missing (parsed_hosts control) (parsed_hosts experimental))
    as [done miss].
  cbn [fst snd] in *.
  split; [exact Hout |]. split; [exact Hcmp |].
  rewrite Hout, <- Hnone. destruct miss; split; congruence.
Qed.

Lemma main_stops_at_missing_host_witness :
  outcome (@main seq_numpy (fixed_scipy one) plain_pyplot
             (table_fs [(s "ctl/beta.log", overflow_log)])
             (s "ctl") (Some (s "exp"))) = Ret tt
  /\ compared (output (@main seq_numpy (fixed_scipy one) plain_pyplot
                         (table_fs [(s "ctl/beta.log", overflow_log)])
                         (s "ctl") (Some (s "exp")))) = [].
Proof.
  pose proof (@main_stops_at_missing_host seq_numpy (fixed_scipy one)
                plain_pyplot (table_fs [(s "ctl/beta.log", overflow_log)])
                (s "ctl") (s "exp")) as H.
  destruct (until_missing _ _) as [done miss] eqn:Hu.
  vm_compute in Hu. injection Hu as <- <-.
  destruct H as (Hout & Hcmp & _). split; [exact Hout | exact Hcmp].
Defined.

(** X3. The exit status. It is 0 exactly when the script got two to four
    arguments and, if there are more than two, every host parsed under
    the control directory, those for which [parse_file] returned the
    samples, was parsed under the experimental one too. A run on a
    control directory alone exits with 0 whatever the files are. *)
Theorem script_exit_status
  {NP : NumPy} {SP : SciPy} {PP : PyPlot} {FS : FileSystem}
  (argv : list str) :
  (snd (script argv) = 0%Z \/ snd (script argv) = 1%Z)
  /\ (snd (script argv) = 0%Z
      <-> 2 <= length argv <= 4
          /\ (length argv = 2
              \/ forall name,
                   In name (parsed_hosts (nth 1 argv [])) ->
                   In name (parsed_hosts (nth 2 argv [])))).
Proof.
  unfold script.
  destruct (Nat.ltb_spec 4 (length argv)) as [H4 | H4];
    [simpl; split; [now right | split; [discriminate | lia]] |].
  destruct (Nat.ltb_spec (length argv) 2) as [H2 | H2];
    [simpl; split; [now right | split; [discriminate | lia]] |].
  cbn [orb].
  destruct (Nat.eqb_spec (length argv) 2) as [He | He].
  - destruct (parse_loop_machines (nth 1 argv [])) as [Hc _].
    assert (Hm : outcome (main (nth 1 argv []) None) = Ret tt).
    { unfold main. now rewrite outcome_bind, Hc. }
    destruct (main (nth 1 argv []) None) as [out [[] | e]];
      [| discriminate].
    simpl. split; [now left |]. split; [intros _ | reflexivity].
    split; [lia | now left].
  - destruct (main_run (nth 1 argv []) (nth 2 argv [])) as [Hout _].
    pose proof (until_missing_none (parsed_hosts (nth 1 argv []))
                  (parsed_hosts (nth 2 argv []))) as Hnone.
    destruct (main (nth 1 argv []) (Some (nth 2 argv []))) as [out r].
    unfold outcome in Hout. cbn [snd] in Hout. subst r.
    destruct (snd (until_missing _ _)) as [name |].
    + simpl. split; [now right |]. split; [discriminate |].
      intros [_ [Hl | Hall]]; [contradiction |].
      apply Hnone in Hall. discriminate.
    + simpl. split; [now left |]. split; [intros _ | reflexivity].
      split; [lia | right; now apply Hnone].
Qed.

Lemma script_exit_status_witness :
  snd (@script seq_numpy (fixed_scipy one) plain_pyplot
         (table_fs [(s "ctl/beta.log", overflow_log)])
         [s "main.py"; s "ctl"; s "exp"]) = 0%Z.
Proof.
  apply (proj2 (proj2 (@script_exit_status seq_numpy (fixed_scipy one)
                         plain_pyplot
                         (table_fs [(s "ctl/beta.log", overflow_log)])
                         [s "main.py"; s "ctl"; s "exp"]))).
  split; [simpl; lia |]. right.
  intros name H. vm_compute in H. destruct H.
Defined.

(** ** The files of the plots *)

Section Files.

Context {NP : NumPy} {SP : SciPy} {PP : PyPlot} {FS : FileSystem}.

Lemma saved_app (a b : list effect) : saved (a ++ b) = saved a ++ saved b.
Proof. apply flat_map_app. Qed.

Lemma stats_lines_saves_nothing (title : str) (data : list float) :
  saved (output (stats_lines title data)) = [].
Proof.
  unfold stats_lines, lift, print, emit.
  destruct (np_min data), (np_max data); reflexivity.
Qed.

Lemma run_shapiro_wilk_saves_nothing (data : list float) (label : str) :
  saved (output (run_shapiro_wilk data label)) = [].
Proof.
  unfold run_shapiro_wilk, lift, print, emit.
  destruct (length data <? 3); [reflexivity |].
  destruct (shapiro data) as [[stat p] |]; [| reflexivity].
  simpl. now destruct (flt alpha p).
Qed.

(** [create_plot] saves its file when it returns, and no file when it
    raises. *)
Lemma create_plot_saves (data : list float) (dev ty : str) :
  saved (output (create_plot data dev ty))
  = match outcome (create_plot data dev ty) with
    | Ret _ => [plot_file dev ty]
    | Raise _ => []
    end.
Proof.
  destruct data as [| x xs].
  - rewrite create_plot_empty. unfold create_plot, lift, emit.
    now rewrite np_max_empty.
  - destruct (np_min_some x xs) as [lo Hlo].
    destruct (np_max_some x xs) as [hi Hhi].
    rewrite (create_plot_eq _ dev ty lo hi Hlo Hhi).
    destruct (plt_ylim lo hi) as [[] |]; [| reflexivity].
    destruct (plt_savefig _ _ _ _ _) as [[] |]; reflexivity.
Qed.

(** The files that a report saves: those of the plots that were drawn,
    the one of the offsets first. *)
Lemma report_saves (name : str) (o : float) (os : list float)
  (d : float) (ds : list float) :
  exists k,
    saved (output (report name (o :: os) (d :: ds)))
    = firstn k (plot_files name)
    /\ (outcome (report name (o :: os) (d :: ds)) = Ret tt -> k = 2).
Proof.
  rewrite report_outcome, report_output.
  rewrite !saved_app, !stats_lines_saves_nothing,
    !run_shapiro_wilk_saves_nothing.
  destruct (outcome (run_shapiro_wilk (o :: os) _)) as [[] |];
    [| exists 0; split; [reflexivity | discriminate]].
  rewrite !saved_app, !create_plot_saves.
  destruct (outcome (create_plot (o :: os) _ _)) as [[] |];
    [| exists 0; split; [reflexivity | discriminate]].
  rewrite !saved_app, !stats_lines_saves_nothing,
    !run_shapiro_wilk_saves_nothing.
  destruct (outcome (run_shapiro_wilk (d :: ds) _)) as [[] |];
    [| exists 1; split; [reflexivity | discriminate]].
  rewrite create_plot_saves.
  destruct (outcome (create_plot (d :: ds) _ _)) as [[] |];
    [exists 2 | exists 1]; split; try reflexivity; discriminate.
Qed.

Lemma host_files_prefix (machine : str * str) :
  exists k,
    host_files machine = firstn k (plot_files (fst machine))
    /\ (parsed machine = true -> k = 2).
Proof.
  destruct machine as [name path]. unfold host_files, parsed. cbn [fst snd].
  destruct (readlines path) as [lines | e] eqn:Hr.
  - rewrite (parse_file_read path name lines Hr).
    destruct (matches lines) as [| m ms];
      [exists 0; split; [reflexivity | discriminate] |].
    cbv zeta. unfold output at 1, outcome at 1. cbn [fst snd map].
    destruct (report_saves name (offset_of m) (map offset_of ms)
                (delay_of m) (map delay_of ms)) as (k & Hk & Hdone).
    exists k. split; [exact Hk |].
    destruct (outcome (report _ _ _)) as [[] |]; [| discriminate].
    intros _. now apply Hdone.
  - rewrite (parse_file_unread path name e Hr).
    exists 0. split; [reflexivity | discriminate].
Qed.

Lemma parse_host_saves (st : dict * dict) (machine : str * str) :
  saved (output (parse_host st machine)) = host_files machine.
Proof.
  destruct machine as [name path]. unfold host_files. cbn [fst snd].
  rewrite parse_host_eq.
  assert (H : forall (out : list effect) (line : list seg),
             saved (Print [Txt name] :: out ++ [Print line]) = saved out).
  { intros out line. change (Print [Txt name] :: out ++ [Print line])
      with ([Print [Txt name]] ++ out ++ [Print line]).
    rewrite !saved_app. apply app_nil_r. }
  destruct (parse_file path name) as [out [[[offset delay] |] | e]];
    unfold output; cbn [fst]; apply H.
Qed.

Lemma parse_loop_saves (ms : list (str * str)) (st : dict * dict) :
  saved (output (for_each ms parse_host st)) = flat_map host_files ms.
Proof.
  revert st. induction ms as [| m ms IH]; intros st; [reflexivity |].
  cbn [for_each flat_map].
  destruct (parse_host_spec st m) as [Hout _].
  now rewrite output_bind, Hout, saved_app, parse_host_saves, IH.
Qed.

Lemma compare_host_saves_nothing (control experimental : dict * dict)
  (name : str) :
  saved (output (compare_host control experimental name)) = [].
Proof.
  unfold compare_host, run_mannwhiteneyu_test, lift, print, emit.
  destruct (dict_get (fst control) name) as [c1 |]; [| reflexivity].
  destruct (dict_get (fst experimental) name) as [e1 |]; [| reflexivity].
  cbn [bind app].
  destruct (mannwhitneyu c1 e1) as [[st1 p1] |]; [| reflexivity].
  destruct (flt p1 alpha);
    (destruct (dict_get (snd control) name) as [c2 |]; [| reflexivity]);
    (destruct (dict_get (snd experimental) name) as [e2 |]; [| reflexivity]);
    cbn [bind app];
    (destruct (mannwhitneyu c2 e2) as [[st2 p2] |]; [| reflexivity]);
    destruct (flt p2 alpha); reflexivity.
Qed.

Lemma compare_loop_saves_nothing (control experimental : dict * dict)
  (names : list str) :
  saved (output (for_each names
           (fun _ name => compare_host control experimental name) tt)) = [].
Proof.
  induction names as [| n names IH]; [reflexivity |].
  cbn [for_each]. rewrite output_bind, saved_app, compare_host_saves_nothing.
  destruct (outcome (compare_host control experimental n)) as [[] |];
    [exact IH | reflexivity].
Qed.

End Files.

(** X6. The plot files of a run: those saved while the four logs of the
    control directory were parsed, host by host, then, with an
    experimental directory, those saved while its four logs were parsed;
    the comparisons save none, whether or not they go through. For a
    host that was parsed the files are its two plots, the one of the
    offsets first, so the plots of a host parsed under both directories
    are written twice, under the same names. For any other host they are
    none, or the plot of the offsets alone, where the report raised
    after it. *)
Theorem main_plot_files
  {NP : NumPy} {SP : SciPy} {PP : PyPlot} {FS : FileSystem}
  (control : str) (experimental : option str) :
  saved (output (main control experimental))
  = flat_map host_files (machines control)
    ++ match experimental with
       | Some dir => flat_map host_files (machines dir)
       | None => []
       end
  /\ (forall machine,
        parsed machine = true -> host_files machine = plot_files (fst machine))
  /\ (forall machine,
        host_files machine = []
        \/ host_files machine = [plot_file (fst machine) (s "Offset")]
        \/ host_files machine = plot_files (fst machine)).
Proof.
  split; [| split].
  - destruct (parse_loop_machines control) as [Hc _].
    unfold main. rewrite output_bind, Hc, saved_app, parse_loop_saves.
    f_equal.
    destruct experimental as [dir |]; [| reflexivity].
    destruct (parse_loop_machines dir) as [He _].
    rewrite output_bind, He, saved_app, parse_loop_saves,
      compare_loop_saves_nothing.
    apply app_nil_r.
  - intros machine Hp.
    destruct (host_files_prefix machine) as (k & -> & Hk).
    now rewrite (Hk Hp).
  - intros machine.
    destruct (host_files_prefix machine) as (k & -> & _).
    destruct k as [| [| k]]; [now left | right; now left | right; right].
    unfold plot_files. cbn [firstn]. now rewrite firstn_nil.
Qed.

Lemma main_plot_files_witness :
  saved (output (@main seq_numpy (fixed_scipy one) plain_pyplot
                   (table_fs overflow_files) (s "ctl") (Some (s "exp"))))
  = plot_files (s "Beta").
Proof.
  rewrite (proj1 (@main_plot_files seq_numpy (fixed_scipy one) plain_pyplot
                    (table_fs overflow_files) (s "ctl") (Some (s "exp")))).
  vm_compute. reflexivity.
Defined.

(** ** The matcher *)

Lemma greedy_never_gives_up {R : Type} (cs : charset)
  (cont : str -> option R) (u : str) :
  cont u <> None -> greedy cs cont u <> None.
Proof.
  destruct u as [| c u]; simpl; [auto |].
  destruct (mem cs c); [| auto].
  destruct (greedy cs cont u); [discriminate | auto].
Qed.

Lemma greedy_complete {R : Type} (cs : charset) (cont : str -> option R)
  (w u : str) :
  forallb (mem cs) w = true -> cont u <> None ->
  greedy cs cont (w ++ u) <> None.
Proof.
  induction w as [| c w IH]; simpl; intros Hw Hk.
  - now apply greedy_never_gives_up.
  - apply andb_true_iff in Hw. destruct Hw as [Hc Hw]. rewrite Hc.
    specialize (IH Hw Hk).
    destruct (greedy cs cont (w ++ u)); [discriminate | contradiction].
Qed.

Lemma exec_complete (p : list node) (t : str) (mk : list str) (t' : str)
  (mk' : list str) :
  steps p t mk t' mk' -> exec p t mk <> None.
Proof.
  revert t mk. induction p as [| n p IH]; intros t mk H; [discriminate |].
  destruct n as [cs | cs | cs |]; cbn [steps exec] in *.
  - destruct H as (c & u & -> & Hc & H). rewrite Hc. now apply IH in H.
  - destruct H as [(c & u & -> & Hc & H) | H].
    + rewrite Hc. apply IH in H.
      destruct (exec p u mk); [discriminate | contradiction].
    + apply IH in H. destruct t as [| c u]; [exact H |].
      destruct (mem cs c); [| exact H].
      destruct (exec p u mk); [discriminate | exact H].
  - destruct H as (c & w & u & -> & Hc & Hw & H). rewrite Hc.
    apply greedy_complete; [exact Hw | now apply IH in H].
  - now apply IH in H.
Qed.

Lemma exec_sound (p : list node) (t : str) (mk : list str) (mk' : list str)
  (t' : str) :
  exec p t mk = Some (mk', t') -> steps p t mk t' mk'.
Proof.
  intros H. rewrite <- (app_nil_r p) in H.
  apply exec_split in H. destruct H as (u & m & Hs & He).
  now injection He as -> ->.
Qed.

Lemma search_from_none (prog : list node) (line t : str) (pos : nat) :
  search_from prog line t pos = None
  <-> (forall a b, t = a ++ b -> exec prog b [] = None).
Proof.
  revert pos. induction t as [| c t IH]; intros pos; simpl.
  - destruct (exec prog [] []) as [[marks rest] |] eqn:He.
    + split; [discriminate |]. intros H.
      specialize (H [] [] eq_refl). congruence.
    + split; [| reflexivity]. intros _ a b Hab.
      symmetry in Hab. apply app_eq_nil in Hab. destruct Hab as [_ ->].
      exact He.
  - destruct (exec prog (c :: t) []) as [[marks rest] |] eqn:He.
    + split; [discriminate |]. intros H.
      specialize (H [] (c :: t) eq_refl). congruence.
    + rewrite IH. split.
      * intros H [| a0 a] b Hab; simpl in Hab.
        -- now subst b.
        -- injection Hab as _ ->. now apply (H a b).
      * intros H a b ->. now apply (H (c :: a) b).
Qed.

Lemma search_from_leftmost (prog : list node) (line t : str) (pos : nat)
  (m : re_match) :
  search_from prog line t pos = Some m ->
  exists a b,
    t = a ++ b /\ m_start m = pos + length a
    /\ exec prog b [] = Some (m_marks m, m_rest m)
    /\ (forall a' b', t = a' ++ b' -> length a' < length a ->
          exec prog b' [] = None).
Proof.
  revert pos. induction t as [| c t IH]; intros pos; simpl.
  - destruct (exec prog [] []) as [[marks rest] |] eqn:He; [| discriminate].
    intros [= <-]. exists [], []. simpl. repeat split; auto; lia.
  - destruct (exec prog (c :: t) []) as [[marks rest] |] eqn:He.
    + intros [= <-]. exists [], (c :: t). simpl.
      repeat split; auto; lia.
    + intros H. destruct (IH _ H) as (a & b & -> & Hs & Hb & Hleft).
      exists (c :: a), b. simpl. repeat split; [lia | exact Hb |].
      intros [| a0 a'] b' Hab Hlen; simpl in *.
      * now subst b'.
      * injection Hab as _ Hab. apply (Hleft a' b' Hab). lia.
Qed.

(** X14. A line is passed over exactly when the pattern has no run at any
    place of it: the matcher misses no match by the order in which it
    tries, and text in front of a record does no harm. *)
Theorem search_misses_nothing (line : str) :
  search re_pattern line = None
  <-> (forall a b, line = a ++ b -> ~ has_run re_pattern b).
Proof.
  unfold search. rewrite search_from_none. split.
  - intros H a b Hab (t' & mk' & Hs).
    apply exec_complete in Hs. now apply Hs, (H a b).
  - intros H a b Hab.
    destruct (exec re_pattern b []) as [[mk' t'] |] eqn:He; [| reflexivity].
    exfalso. apply (H a b Hab). exists t', mk'. now apply exec_sound.
Qed.

(** X15. Of a line that holds more than one record the first one from the
    left counts: the match starts where [match.start()] says, that text
    has a run of the pattern, and no earlier place of the line has
    one. *)
Theorem search_takes_the_leftmost (line : str) (m : re_match) :
  search re_pattern line = Some m ->
  exists a b,
    line = a ++ b /\ m_start m = length a
    /\ steps re_pattern b [] (m_rest m) (m_marks m)
    /\ (forall a' b', line = a' ++ b' -> length a' < length a ->
          ~ has_run re_pattern b').
Proof.
  intros H. apply search_from_leftmost in H.
  destruct H as (a & b & Hab & Hs & He & Hleft).
  exists a, b. repeat split; auto.
  - now apply exec_sound.
  - intros a' b' Hab' Hlen (t' & mk' & Hr).
    apply exec_complete in Hr. apply Hr. now apply (Hleft a' b').
Qed.

Lemma search_takes_the_leftmost_witness :
  exists m a b,
    search re_pattern two_records = Some m
    /\ group m 1 = s "1" /\ group m 3 = s "3"
    /\ two_records = a ++ b /\ m_start m = length a
    /\ steps re_pattern b [] (m_rest m) (m_marks m).
Proof.
  destruct (search re_pattern two_records) as [m |] eqn:Hs;
    [| vm_compute in Hs; discriminate].
  destruct (search_takes_the_leftmost two_records m Hs)
    as (a & b & Hab & Hst & Hrun & _).
  exists m, a, b.
  assert (Hm : Some m = search re_pattern two_records) by now symmetry.
  vm_compute in Hm. injection Hm as ->.
  repeat split; auto.
Defined.

(** ** The three groups *)

Lemma skip_spec (P : ascii -> bool) (u : str) :
  exists w,
    u = w ++ skip P u /\ forallb P w = true
    /\ match skip P u with
       | c :: _ => P c = false
       | [] => True
       end.
Proof.
  induction u as [| c u IH]; simpl.
  - now exists [].
  - destruct (P c) eqn:Hc.
    + destruct IH as (w & Hu & Hw & Hstop).
      exists (c :: w). simpl. rewrite Hc, Hw, <- Hu. now repeat split.
    + exists []. simpl. now rewrite Hc.
Qed.

Lemma greedy_takes_all {R : Type} (cs : charset) (cont : str -> option R)
  (f : str -> R) (u : str) :
  (forall v, cont v = Some (f v)) ->
  greedy cs cont u = Some (f (skip (mem cs) u)).
Proof.
  intros Hk. induction u as [| c u IH]; simpl; [apply Hk |].
  destruct (mem cs c); [| apply Hk]. now rewrite IH.
Qed.

Lemma exec_pat_delay_group (t : str) (mk : list str) (r : list str * str) :
  exec pat_delay_group t mk = Some r ->
  exists c t0,
    t = c :: t0 /\ is_digit c = true
    /\ r = (skip is_digit t0 :: t :: mk, skip is_digit t0).
Proof.
  unfold pat_delay_group. cbn [exec].
  destruct t as [| c t0]; [discriminate |].
  cbn [mem]. destruct (is_digit c) eqn:Hc; [| discriminate].
  intros H.
  rewrite (greedy_takes_all CsDigit _ (fun u => (u :: (c :: t0) :: mk, u)))
    in H by (intros; reflexivity).
  injection H as <-. now exists c, t0.
Qed.

Lemma steps_pat_freq_shape (t : str) (mk : list str) (t' : str)
  (mk' : list str) :
  steps pat_freq t mk t' mk' ->
  exists sg dg,
    sign_part sg /\ run is_digit dg /\ t = (sg ++ dg) ++ t' /\ mk' = t' :: mk.
Proof.
  unfold pat_freq. cbn [steps mem]. intros H.
  destruct H as [(c & u & -> & Hc & H) | H];
    destruct H as (d & wd & u1 & -> & Hd & Hwd & -> & <-).
  - exists [c], (d :: wd). repeat split; try discriminate.
    + right. now exists c.
    + simpl. now rewrite Hd.
  - exists [], (d :: wd). repeat split; try discriminate.
    + now left.
    + simpl. now rewrite Hd.
Qed.

Lemma search_anatomy (line : str) (m : re_match) :
  search re_pattern line = Some m ->
  exists sg1 dg1 sg2 dg2 before,
    sign_part sg1 /\ run is_digit dg1 /\ group m 1 = sg1 ++ dg1
    /\ sign_part sg2 /\ run is_digit dg2 /\ group m 2 = sg2 ++ dg2
    /\ run is_digit (group m 3)
    /\ line = before ++ group m 3 ++ m_rest m
    /\ no_digit_ahead (m_rest m).
Proof.
  intros Hs. apply search_from_exec in Hs.
  destruct Hs as (skipped & t1 & Hl & He).
  rewrite re_pattern_parts in He.
  apply exec_split in He. destruct He as (t0 & mk0 & Hhead & He).
  pose proof (steps_unmarked pat_head _ _ _ _ eq_refl Hhead) as ->.
  apply steps_consumes in Hhead. destruct Hhead as [x ->].
  apply exec_split in He. destruct He as (ta & mka & Hoff & He).
  apply steps_pat_offset in Hoff.
  destruct Hoff as (w1 & sg & dg & w2 & w3 & Hw1 & Hsg & Hdg & Hw2 & Hw3
                    & -> & ->).
  apply exec_split in He. destruct He as (tb & mkb & Hfreq & He).
  apply steps_pat_freq_shape in Hfreq.
  destruct Hfreq as (sg2 & dg2 & Hsg2 & Hdg2 & -> & ->).
  change pat_delay with (pat_delay_head ++ pat_delay_group) in He.
  apply exec_split in He. destruct He as (tc & mkc & Hdh & He).
  pose proof (steps_unmarked pat_delay_head _ _ _ _ eq_refl Hdh) as ->.
  apply steps_consumes in Hdh. destruct Hdh as [y ->].
  apply exec_pat_delay_group in He.
  destruct He as (c & tail & -> & Hc & He).
  injection He as Hmarks Hrest.
  destruct (skip_spec is_digit tail) as (w & Htail & Hw & Hstop).
  exists sg, dg, sg2, dg2.
  exists (skipped ++ x ++ w1 ++ (sg ++ dg) ++ w2 ++ s "s2 freq" ++ w3
          ++ (sg2 ++ dg2) ++ y).
  unfold group, mark. rewrite Hmarks, Hrest.
  cbn [length Nat.sub Nat.mul Nat.add nth app].
  assert (G3 : between (c :: tail) (skip is_digit tail) = c :: w).
  { rewrite Htail at 1. apply (between_app (c :: w)). }
  rewrite G3.
  repeat (split; [assumption |]).
  split; [| split; [assumption |]].
  { rewrite <- !app_assoc. rewrite !app_assoc. rewrite <- !app_assoc.
    rewrite (app_assoc sg dg). apply between_app. }
  repeat (split; [assumption |]).
  split; [| split; [| split]].
  - apply between_app.
  - split; [discriminate |]. simpl. now rewrite Hc.
  - rewrite Hl. rewrite <- !app_assoc. cbn [app]. now rewrite <- Htail.
  - unfold no_digit_ahead. exact Hstop.
Qed.

(** X13. What the three groups of a match hold: the first and the second
    an optional sign and digits, the third digits only, and all the
    digits there are (no digit follows the match), so that a delay is
    never negative and a fraction after it is cut off. The match ends
    with the third group. *)
Theorem match_groups_shape (line : str) (m : re_match) :
  search re_pattern line = Some m ->
  exists sg1 dg1 sg2 dg2 before,
    sign_part sg1 /\ run is_digit dg1 /\ group m 1 = sg1 ++ dg1
    /\ sign_part sg2 /\ run is_digit dg2 /\ group m 2 = sg2 ++ dg2
    /\ run is_digit (group m 3)
    /\ line = before ++ group m 3 ++ m_rest m
    /\ no_digit_ahead (m_rest m).
Proof. apply search_anatomy. Qed.

Lemma match_groups_shape_witness :
  exists m sg1 dg1 sg2 dg2 before,
    search re_pattern (log_line "-3" "+7" "21") = Some m
    /\ sign_part sg1 /\ run is_digit dg1 /\ group m 1 = sg1 ++ dg1
    /\ sign_part sg2 /\ run is_digit dg2 /\ group m 2 = sg2 ++ dg2
    /\ run is_digit (group m 3)
    /\ log_line "-3" "+7" "21" = before ++ group m 3 ++ m_rest m
    /\ no_digit_ahead (m_rest m).
Proof.
  destruct (search re_pattern (log_line "-3" "+7" "21")) as [m |] eqn:Hs;
    [| vm_compute in Hs; discriminate].
  destruct (match_groups_shape _ m Hs)
    as (sg1 & dg1 & sg2 & dg2 & before & H).
  now exists m, sg1, dg1, sg2, dg2, before.
Defined.

(** ** The conversion to floats *)

Lemma binary_round_opp (sx : bool) (m : positive) (e : Z) :
  binary_round prec emax (negb sx) m e
  = SFopp (binary_round prec emax sx m e).
Proof.
  unfold binary_round, binary_round_aux.
  destruct (shl_align _ _ _) as [mz ez].
  destruct (shr_fexp _ _ _ _ _) as [mrs e'].
  destruct (shr_fexp _ _ _ _ _) as [mrs' e''].
  destruct (shr_m mrs'); simpl; [reflexivity | | reflexivity].
  now destruct (Z.leb _ _).
Qed.

Lemma binary_round_sign (sx : bool) (m : positive) (e : Z) :
  is_negative (binary_round prec emax sx m e) = sx
  \/ binary_round prec emax sx m e = S754_nan.
Proof.
  unfold binary_round, binary_round_aux.
  destruct (shl_align _ _ _) as [mz ez].
  destruct (shr_fexp _ _ _ _ _) as [mrs e'].
  destruct (shr_fexp _ _ _ _ _) as [mrs' e''].
  destruct (shr_m mrs'); simpl; [now left | | now right].
  destruct (Z.leb _ _); now left.
Qed.

Lemma digit_val_range (c : ascii) :
  is_digit c = true -> (0 <= digit_val c <= 9)%Z.
Proof.
  unfold is_digit, digit_val. intros H.
  apply andb_true_iff in H. destruct H as [H1 H2].
  apply Nat.leb_le in H1, H2. lia.
Qed.

Lemma digits_val_from (t : str) (acc : Z) :
  forallb is_digit t = true -> (0 <= acc)%Z ->
  (0 <= fold_left (fun a c => 10 * a + digit_val c) t acc)%Z.
Proof.
  revert acc. induction t as [| c t IH]; intros acc Ht Hacc; cbn [fold_left];
    [lia |].
  simpl in Ht. apply andb_true_iff in Ht. destruct Ht as [Hc Ht].
  apply IH; [exact Ht |]. pose proof (digit_val_range c Hc). lia.
Qed.

Lemma digits_val_nonneg (t : str) :
  forallb is_digit t = true -> (0 <= digits_val t)%Z.
Proof. intros H. apply digits_val_from; [exact H | lia]. Qed.

Lemma float_of_str_digits (t : str) :
  run is_digit t -> float_of_str t = float_of_Z (digits_val t).
Proof.
  intros [Hne Hall]. destruct t as [| c t]; [congruence |].
  simpl in Hall. apply andb_true_iff in Hall. destruct Hall as [Hc _].
  destruct c as [[] [] [] [] [] [] [] []]; try discriminate Hc; reflexivity.
Qed.

(** X17. Signs in the conversion, for digits of any number: a minus sign
    in front negates the float (the negative zero for zero, minus
    infinity for a number too large for binary64), a plus sign changes
    nothing, and without a sign the float is not negative. *)
Theorem float_of_str_sign (digits : str) :
  run is_digit digits ->
  float_of_str ("-"%char :: digits) = SFopp (float_of_str digits)
  /\ float_of_str ("+"%char :: digits) = float_of_str digits
  /\ is_negative (float_of_str digits) = false.
Proof.
  intros Hrun. rewrite (float_of_str_digits digits Hrun).
  destruct Hrun as [_ Hall]. pose proof (digits_val_nonneg digits Hall) as Hz.
  cbn [float_of_str]. unfold float_of_Z, binary_normalize.
  destruct (digits_val digits) as [| p | p]; [now repeat split | | lia].
  cbn [Z.opp]. split; [apply (binary_round_opp false) |].
  split; [reflexivity |].
  destruct (binary_round_sign false p 0) as [H | H]; [exact H |].
  now rewrite H.
Qed.

Lemma float_of_str_sign_witness :
  float_of_str ("-"%char :: s "20") = SFopp (float_of_str (s "20"))
  /\ float_of_str ("+"%char :: s "20") = float_of_str (s "20")
  /\ is_negative (float_of_str (s "20")) = false.
Proof.
  apply (float_of_str_sign (s "20")). split; [discriminate | reflexivity].
Defined.

Lemma pos_iter_xO_val (k m : positive) :
  Zpos (Pos.iter xO m k) = (Zpos m * 2 ^ Zpos k)%Z.
Proof.
  induction k as [| k IH] using Pos.peano_ind.
  - simpl. lia.
  - rewrite Pos.iter_succ, Pos2Z.inj_xO, IH, Pos2Z.inj_succ.
    rewrite Z.pow_succ_r by lia. lia.
Qed.

Lemma digits2_iter_xO (k m : positive) :
  digits2_pos (Pos.iter xO m k) = (digits2_pos m + k)%positive.
Proof.
  induction k as [| k IH] using Pos.peano_ind.
  - simpl. lia.
  - rewrite Pos.iter_succ. cbn [digits2_pos]. rewrite IH. lia.
Qed.

Lemma digits2_pos_small (m : positive) :
  (Zpos m < 2 ^ 53)%Z -> (Zpos (digits2_pos m) <= 53)%Z.
Proof.
  intros H. pose proof (digits2_pos_lower m) as Hl.
  destruct (Z.le_gt_cases (Zpos (digits2_pos m)) 53) as [Hd | Hd];
    [exact Hd |].
  assert (Hp : (2 ^ 53 <= 2 ^ (Zpos (digits2_pos m) - 1))%Z)
    by (apply Z.pow_le_mono_r; lia).
  lia.
Qed.

Lemma binary_round_aux_exact (sx : bool) (mz : positive) (ez : Z) :
  Zpos (digits2_pos mz) = 53%Z -> (-1074 <= ez <= 971)%Z ->
  binary_round_aux prec emax sx (Zpos mz) ez loc_Exact
  = S754_finite sx mz ez.
Proof.
  intros Hd He.
  assert (Hf : fexp prec emax (Zdigits2 (Zpos mz) + ez) = ez).
  { unfold fexp, emin, prec, emax, Zdigits2. rewrite Hd. lia. }
  unfold binary_round_aux, shr_fexp.
  rewrite Hf, Z.sub_diag. cbn [shr shr_record_of_loc shr_m loc_of_shr_record
                                round_nearest_even].
  rewrite Hf, Z.sub_diag. cbn [shr shr_record_of_loc shr_m].
  unfold emax, prec.
  destruct (Z.leb_spec ez (1024 - 53)); [reflexivity | lia].
Qed.

Lemma binary_round_exact (sx : bool) (m : positive) :
  (Zpos m < 2 ^ 53)%Z ->
  Z_of_float (binary_round prec emax sx m 0) = Some (cond_Zopp sx (Zpos m)).
Proof.
  intros Hm. pose proof (digits2_pos_small m Hm) as Hd.
  unfold binary_round.
  assert (Hf : fexp prec emax (Zpos (digits2_pos m) + 0)
               = (Zpos (digits2_pos m) - 53)%Z).
  { unfold fexp, emin, prec, emax. lia. }
  rewrite Hf. unfold shl_align. rewrite Z.sub_0_r.
  destruct (Zpos (digits2_pos m) - 53)%Z as [| k | k] eqn:E; [| lia |].
  - rewrite binary_round_aux_exact by lia.
    cbn [Z_of_float]. f_equal. f_equal. lia.
  - rewrite binary_round_aux_exact;
      [| rewrite digits2_iter_xO; lia | lia].
    cbn [Z_of_float]. rewrite pos_iter_xO_val.
    rewrite Z.mod_mul by lia. rewrite Z.eqb_refl.
    rewrite Z.div_mul by lia. reflexivity.
Qed.

Lemma float_of_Z_exact (z : Z) :
  (Z.abs z < 2 ^ 53)%Z -> Z_of_float (float_of_Z z) = Some z.
Proof.
  intros H. unfold float_of_Z, binary_normalize.
  destruct z as [| p | p]; [reflexivity | |].
  - now rewrite binary_round_exact by lia.
  - now rewrite binary_round_exact by lia.
Qed.

(** X16. Below 2^53, about nine million billion, the conversion loses
    nothing: the float of a text is the integer the text denotes. *)
Theorem float_of_str_exact (t : str) :
  (Z.abs (int_of_str t) < 2 ^ 53)%Z ->
  Z_of_float (float_of_str t) = Some (int_of_str t).
Proof.
  unfold float_of_str, int_of_str. intros H.
  destruct t as [| c t]; [reflexivity |].
  destruct c as [[] [] [] [] [] [] [] []];
    try (apply float_of_Z_exact; exact H).
  - destruct (digits_val t) as [| p | p] eqn:E; [reflexivity | |];
      rewrite float_of_Z_exact; try reflexivity; lia.
Qed.

Lemma float_of_str_exact_witness :
  Z_of_float (float_of_str (s "-9007199254740991"))
  = Some (int_of_str (s "-9007199254740991")).
Proof.
  apply (float_of_str_exact (s "-9007199254740991")).
  vm_compute. reflexivity.
Defined.

(** ** The plot of one sample *)

Lemma lower_char_twice (c : ascii) : lower_char (lower_char c) = lower_char c.
Proof. destruct c as [[] [] [] [] [] [] [] []]; reflexivity. Qed.

Lemma lower_char_slash (c : ascii) :
  Ascii.eqb (lower_char c) "/"%char = Ascii.eqb c "/"%char.
Proof. destruct c as [[] [] [] [] [] [] [] []]; reflexivity. Qed.

Lemma lower_twice (t : str) : lower (lower t) = lower t.
Proof.
  unfold lower. rewrite map_map. apply map_ext. apply lower_char_twice.
Qed.

Lemma lower_no_slash (t : str) : no_slash (lower t) = no_slash t.
Proof.
  unfold no_slash, lower. induction t as [| c t IH]; simpl; [reflexivity |].
  now rewrite lower_char_slash, IH.
Qed.

Lemma head_rev_skips (a x : str) :
  no_slash a = true -> head_rev (a ++ "/"%char :: x) = "/"%char :: x.
Proof.
  unfold no_slash. induction a as [| c a IH]; simpl; [reflexivity |].
  intros H. apply andb_true_iff in H. destruct H as [Hc Ha].
  rewrite (IH Ha).
  destruct c as [[] [] [] [] [] [] [] []]; try reflexivity; discriminate.
Qed.

Lemma no_slash_app (a b : str) :
  no_slash (a ++ b) = no_slash a && no_slash b.
Proof. apply forallb_app. Qed.

Lemma no_slash_rev (a : str) : no_slash (rev a) = no_slash a.
Proof.
  induction a as [| c a IH]; simpl; [reflexivity |].
  rewrite no_slash_app, IH. simpl. rewrite andb_true_r. apply andb_comm.
Qed.

(** X8. The file of a plot is named in lower case, whatever the case of
    the device name and of the metric, so two devices whose names differ
    in case only share their files; and for names that hold no slash the
    directory that is made is [plots]. *)
Theorem plot_file_lower_case_under_plots (device_name plot_type : str) :
  plot_file (lower device_name) (lower plot_type)
  = plot_file device_name plot_type
  /\ (no_slash device_name = true -> no_slash plot_type = true ->
      dirname (plot_file device_name plot_type) = s "plots").
Proof.
  split.
  - unfold plot_file. now rewrite !lower_twice.
  - intros Hd Ht. unfold plot_file, dirname.
    change (s "plots/") with (s "plots" ++ ["/"%char]).
    rewrite !rev_app_distr, <- !app_assoc.
    change (rev ["/"%char] ++ rev (s "plots")) with ("/"%char :: rev (s "plots")).
    rewrite !app_assoc.
    rewrite head_rev_skips; [reflexivity |].
    rewrite !no_slash_app, !no_slash_rev, !lower_no_slash, Hd, Ht.
    reflexivity.
Qed.

(** X7. [create_plot] on an empty array has made the directory when
    [np.max] raises: no figure is opened and no file saved. On an array
    that is not empty it makes the directory first. With a limit that is
    not a finite number it ends at [ylim], with the [ValueError] of
    [ylim]: the figure has its plot, title and labels, and there is no
    grid, no file and no [close]. When [ylim] and [savefig] return it
    ends normally, having saved one file, the one named after the device
    and the metric, and closed the figure. In every case it has saved
    that one file when it returns and no file when it raises. *)
Theorem create_plot_effects {NP : NumPy} {PP : PyPlot}
  (device_name plot_type : str) :
  create_plot [] device_name plot_type
  = ([MakeDirs (dirname (plot_file device_name plot_type))],
     Raise (zero_size "maximum"))
  /\ (forall x xs,
        exists lo hi,
          np_min (x :: xs) = Ret lo
          /\ np_max (x :: xs) = Ret hi
          /\ hd_error (output (create_plot (x :: xs) device_name plot_type))
             = Some (MakeDirs (dirname (plot_file device_name plot_type)))
          /\ (is_finite lo && is_finite hi = false ->
              create_plot (x :: xs) device_name plot_type
              = (plot_setup (x :: xs) device_name plot_type,
                 Raise axis_limits))
          /\ (plt_ylim lo hi = Ret tt ->
              plt_savefig (x :: xs) (device_name ++ s " " ++ plot_type) lo hi
                (plot_file device_name plot_type) = Ret tt ->
              create_plot (x :: xs) device_name plot_type
              = (plot_setup (x :: xs) device_name plot_type
                 ++ [PltYlim lo hi; PltGrid;
                     PltSavefig (plot_file device_name plot_type); PltClose],
                 Ret tt)))
  /\ (forall data,
        saved (output (create_plot data device_name plot_type))
        = match outcome (create_plot data device_name plot_type) with
          | Ret _ => [plot_file device_name plot_type]
          | Raise _ => []
          end).
Proof.
  split; [| split].
  - unfold create_plot, lift, emit. rewrite np_max_empty. reflexivity.
  - intros x xs.
    destruct (np_min_some x xs) as [lo Hlo].
    destruct (np_max_some x xs) as [hi Hhi].
    exists lo, hi. split; [exact Hlo |]. split; [exact Hhi |].
    split; [unfold create_plot; rewrite output_bind; reflexivity |].
    split.
    + apply create_plot_not_finite; assumption.
    + intros Hy Hs.
      rewrite (create_plot_eq _ device_name plot_type lo hi Hlo Hhi).
      now rewrite Hy, Hs.
  - intros data. apply create_plot_saves.
Qed.

Lemma create_plot_effects_witness :
  @create_plot seq_numpy plain_pyplot [S754_infinity false] (s "Beta")
    (s "Offset")
  = (plot_setup [S754_infinity false] (s "Beta") (s "Offset"),
     Raise axis_limits)
  /\ @create_plot seq_numpy plain_pyplot [ten; twenty] (s "Beta") (s "Offset")
     = (plot_setup [ten; twenty] (s "Beta") (s "Offset")
        ++ [PltYlim ten twenty; PltGrid;
            PltSavefig (plot_file (s "Beta") (s "Offset")); PltClose],
        Ret tt).
Proof.
  destruct (@create_plot_effects seq_numpy plain_pyplot (s "Beta")
              (s "Offset")) as (_ & H & _).
  split.
  - destruct (H (S754_infinity false) []) as (lo & hi & Hlo & Hhi & _ & Hbad & _).
    injection Hlo as <-. injection Hhi as <-. now apply Hbad.
  - destruct (H ten [twenty]) as (lo & hi & Hlo & Hhi & _ & _ & Hgood).
    vm_compute in Hlo, Hhi. injection Hlo as <-. injection Hhi as <-.
    now apply Hgood.
Defined.

(** ** Small samples *)



(** X4. A run on a control directory alone goes through the four hosts,
    ends normally and runs no comparison. *)
Theorem main_control_only
  {NP : NumPy} {SP : SciPy} {PP : PyPlot} {FS : FileSystem}
  (control : str) :
  outcome (main control None) = Ret tt
  /\ output (main control None)
     = output (for_each (machines control) parse_host ([], []))
  /\ compared (output (main control None)) = [].
Proof.
  destruct (parse_loop_machines control) as [Hc Hq].
  unfold main. rewrite outcome_bind, output_bind, Hc. cbv beta iota.
  unfold ret, output, outcome. cbn [fst snd]. rewrite app_nil_r.
  repeat split. exact Hq.
Qed.

(** ** The shape of a matching line *)

Lemma steps_pat_head (t : str) (mk : list str) (t' : str) (mk' : list str) :
  steps pat_head t mk t' mk' ->
  exists d1 d2 c d3,
    run is_digit d1 /\ run is_digit d2 /\ c <> "010"%char /\ run is_digit d3
    /\ t = s "ptp4l[" ++ d1 ++ s "]: ptp4l[" ++ d2 ++ c :: d3
           ++ s "]: master offset" ++ t'.
Proof.
  unfold pat_head, lit, s. cbn [list_ascii_of_string map app steps mem].
  intros H. literal H.
  destruct H as (a & wa & ua & -> & Ha & Hwa & H). literal H.
  destruct H as (b & wb & ub & -> & Hb & Hwb & c & uc & -> & Hc
                 & d & wd & ud & -> & Hd & Hwd & H).
  literal H. destruct H as [-> _].
  exists (a :: wa), (b :: wb), c, (d :: wd).
  repeat split; try discriminate;
    try (simpl; apply andb_true_iff; split; assumption).
  intros ->. discriminate.
Qed.

Lemma steps_pat_delay_head (t : str) (mk : list str) (t' : str)
  (mk' : list str) :
  steps pat_delay_head t mk t' mk' ->
  exists w4 w5,
    run is_space w4 /\ run is_space w5
    /\ t = w4 ++ s "path delay" ++ w5 ++ t'.
Proof.
  unfold pat_delay_head, lit, s. cbn [list_ascii_of_string map app steps mem].
  intros H.
  destruct H as (a & wa & ua & -> & Ha & Hwa & H). literal H.
  destruct H as (b & wb & ub & -> & Hb & Hwb & -> & _).
  exists (a :: wa), (b :: wb).
  repeat split; try discriminate;
    simpl; apply andb_true_iff; split; assumption.
Qed.

Lemma search_grammar (line : str) (m : re_match) :
  search re_pattern line = Some m ->
  exists skipped d1 d2 c d3 w1 w2 w3 w4 w5,
    is_record d1 d2 c d3 w1 (group m 1) w2 w3 (group m 2) w4 w5 (group m 3)
    /\ line = skipped
              ++ record_text d1 d2 c d3 w1 (group m 1) w2 w3 (group m 2)
                   w4 w5 (group m 3)
              ++ m_rest m
    /\ m_start m = length skipped.
Proof.
  intros Hs. unfold search in Hs. apply search_from_leftmost in Hs.
  destruct Hs as (skipped & t1 & Hl & Hstart & He & _).
  rewrite re_pattern_parts in He.
  apply exec_split in He. destruct He as (t0 & mk0 & Hhead & He).
  pose proof (steps_unmarked pat_head _ _ _ _ eq_refl Hhead) as ->.
  apply steps_pat_head in Hhead.
  destruct Hhead as (d1 & d2 & c & d3 & Hd1 & Hd2 & Hc & Hd3 & ->).
  apply exec_split in He. destruct He as (ta & mka & Hoff & He).
  apply steps_pat_offset in Hoff.
  destruct Hoff as (w1 & sg & dg & w2 & w3 & Hw1 & Hsg & Hdg & Hw2 & Hw3
                    & -> & ->).
  apply exec_split in He. destruct He as (tb & mkb & Hfreq & He).
  apply steps_pat_freq_shape in Hfreq.
  destruct Hfreq as (sg2 & dg2 & Hsg2 & Hdg2 & -> & ->).
  change pat_delay with (pat_delay_head ++ pat_delay_group) in He.
  apply exec_split in He. destruct He as (tc & mkc & Hdh & He).
  pose proof (steps_unmarked pat_delay_head _ _ _ _ eq_refl Hdh) as ->.
  apply steps_pat_delay_head in Hdh.
  destruct Hdh as (w4 & w5 & Hw4 & Hw5 & ->).
  apply exec_pat_delay_group in He.
  destruct He as (c3 & tail & -> & Hc3 & He).
  injection He as Hmarks Hrest.
  destruct (skip_spec is_digit tail) as (w & Htail & Hw & Hstop).
  assert (G1 : group m 1 = sg ++ dg).
  { unfold group, mark. rewrite Hmarks.
    cbn [length Nat.sub Nat.mul Nat.add nth app]. apply between_app. }
  assert (G2 : group m 2 = sg2 ++ dg2).
  { unfold group, mark. rewrite Hmarks.
    cbn [length Nat.sub Nat.mul Nat.add nth app]. apply between_app. }
  assert (G3 : group m 3 = c3 :: w).
  { unfold group, mark. rewrite Hmarks.
    cbn [length Nat.sub Nat.mul Nat.add nth app].
    rewrite Htail at 1. apply (between_app (c3 :: w)). }
  exists skipped, d1, d2, c, d3, w1, w2, w3, w4, w5.
  rewrite G1, G2, G3, Hrest.
  split; [| split].
  - unfold is_record, signed_digits.
    repeat (split; [assumption |]).
    split; [now exists sg, dg |].
    repeat (split; [assumption |]).
    split; [now exists sg2, dg2 |].
    repeat (split; [assumption |]).
    split; [discriminate |]. simpl. now rewrite Hc3.
  - rewrite Hl. unfold record_text. f_equal.
    rewrite <- !app_assoc. cbn [app]. rewrite <- !app_assoc.
    change ((c3 :: w) ++ skip is_digit tail)
      with (c3 :: w ++ skip is_digit tail).
    now rewrite <- Htail.
  - rewrite Hstart. apply Nat.add_0_l.
Qed.

(** X11. A line that matches reads, from where the match starts: the two
    bracketed stamps (digits, and digits with one character of any kind
    among them), ["master offset"], the offset, ["s2 freq"], the
    frequency, ["path delay"], the delay, with white space between the
    words and the numbers; the groups are the three numbers. *)
Theorem match_line_grammar (line : str) (m : re_match) :
  search re_pattern line = Some m ->
  exists skipped d1 d2 c d3 w1 w2 w3 w4 w5,
    is_record d1 d2 c d3 w1 (group m 1) w2 w3 (group m 2) w4 w5 (group m 3)
    /\ line = skipped
              ++ record_text d1 d2 c d3 w1 (group m 1) w2 w3 (group m 2)
                   w4 w5 (group m 3)
              ++ m_rest m
    /\ m_start m = length skipped.
Proof. apply search_grammar. Qed.

Lemma match_line_grammar_witness :
  exists m skipped d1 d2 c d3 w1 w2 w3 w4 w5,
    search re_pattern sample_line = Some m
    /\ is_record d1 d2 c d3 w1 (group m 1) w2 w3 (group m 2) w4 w5
         (group m 3)
    /\ sample_line
       = skipped
         ++ record_text d1 d2 c d3 w1 (group m 1) w2 w3 (group m 2)
              w4 w5 (group m 3)
         ++ m_rest m
    /\ m_start m = length skipped.
Proof.
  destruct (search re_pattern sample_line) as [m |] eqn:Hs;
    [| vm_compute in Hs; discriminate].
  destruct (match_line_grammar sample_line m Hs)
    as (skipped & d1 & d2 & c & d3 & w1 & w2 & w3 & w4 & w5 & H).
  now exists m, skipped, d1, d2, c, d3, w1, w2, w3, w4, w5.
Defined.

Lemma steps_app (p q : list node) (t : str) (mk : list str) (t1 : str)
  (mk1 : list str) (t2 : str) (mk2 : list str) :
  steps p t mk t1 mk1 -> steps q t1 mk1 t2 mk2 ->
  steps (p ++ q) t mk t2 mk2.
Proof.
  revert t mk. induction p as [| n p IH]; intros t mk Hp Hq.
  - destruct Hp as [-> ->]. exact Hq.
  - destruct n as [cs | cs | cs |]; cbn [app steps] in *.
    + destruct Hp as (c & u & -> & Hc & Hp). exists c, u. auto.
    + destruct Hp as [(c & u & -> & Hc & Hp) | Hp].
      * left. exists c, u. auto.
      * right. auto.
    + destruct Hp as (c & w & u & -> & Hc & Hw & Hp). exists c, w, u. auto.
    + auto.
Qed.

Lemma steps_literal (l t : str) (mk : list str) :
  steps (map (fun c => One (CsChar c)) l) (l ++ t) mk t mk.
Proof.
  induction l as [| c l IH]; simpl; [now split |].
  exists c, (l ++ t). repeat split; [apply Ascii.eqb_refl | exact IH].
Qed.

Lemma steps_repeat (cs : charset) (w t : str) (mk : list str) :
  run (mem cs) w -> steps [Repeat1 cs] (w ++ t) mk t mk.
Proof.
  intros [Hne Hall]. destruct w as [| c w]; [congruence |].
  simpl in Hall. apply andb_true_iff in Hall. destruct Hall as [Hc Hw].
  cbn [steps]. exists c, w, t. now repeat split.
Qed.

Lemma steps_signed (g t : str) (mk : list str) :
  signed_digits g ->
  steps [Mark; Optional CsSign; Repeat1 CsDigit; Mark] (g ++ t) mk
    t (t :: (g ++ t) :: mk).
Proof.
  intros (sg & dg & Hsg & [Hne Hall] & ->).
  destruct dg as [| d dg]; [congruence |].
  simpl in Hall. apply andb_true_iff in Hall. destruct Hall as [Hd Hdg].
  cbn [steps]. destruct Hsg as [-> | (c & -> & Hc)].
  - right. exists d, dg, t. now repeat split.
  - left. exists c, (d :: dg ++ t). repeat split; [exact Hc |].
    exists d, dg, t. now repeat split.
Qed.

Lemma record_has_run (d1 d2 : str) (c : ascii)
  (d3 w1 g1 w2 w3 g2 w4 w5 g3 rest : str) :
  is_record d1 d2 c d3 w1 g1 w2 w3 g2 w4 w5 g3 ->
  has_run re_pattern
    (record_text d1 d2 c d3 w1 g1 w2 w3 g2 w4 w5 g3 ++ rest).
Proof.
  intros (Hd1 & Hd2 & Hc & Hd3 & Hw1 & Hg1 & Hw2 & Hw3 & Hg2 & Hw4 & Hw5
          & Hg3).
  unfold has_run, record_text. rewrite <- !app_assoc. cbn [app].
  rewrite <- !app_assoc.
  change re_pattern with
    (lit "ptp4l[" ++ [Repeat1 CsDigit] ++ lit "]: ptp4l["
     ++ [Repeat1 CsDigit] ++ [One CsAny] ++ [Repeat1 CsDigit]
     ++ lit "]: master offset" ++ [Repeat1 CsSpace]
     ++ [Mark; Optional CsSign; Repeat1 CsDigit; Mark]
     ++ [Repeat1 CsSpace] ++ lit "s2 freq" ++ [Repeat1 CsSpace]
     ++ [Mark; Optional CsSign; Repeat1 CsDigit; Mark]
     ++ [Repeat1 CsSpace] ++ lit "path delay" ++ [Repeat1 CsSpace]
     ++ [Mark] ++ [Repeat1 CsDigit] ++ [Mark]).
  eexists. eexists.
  eapply steps_app; [apply steps_literal |].
  eapply steps_app; [apply steps_repeat; exact Hd1 |].
  eapply steps_app; [apply steps_literal |].
  eapply steps_app; [apply steps_repeat; exact Hd2 |].
  eapply steps_app.
  { cbn [steps]. exists c, (d3 ++ s "]: master offset" ++ w1 ++ g1 ++ w2
      ++ s "s2 freq" ++ w3 ++ g2 ++ w4 ++ s "path delay" ++ w5 ++ g3 ++ rest).
    repeat split. simpl. apply Ascii.eqb_neq in Hc. now rewrite Hc. }
  eapply steps_app; [apply steps_repeat; exact Hd3 |].
  eapply steps_app; [apply steps_literal |].
  eapply steps_app; [apply steps_repeat; exact Hw1 |].
  eapply steps_app; [apply steps_signed; exact Hg1 |].
  eapply steps_app; [apply steps_repeat; exact Hw2 |].
  eapply steps_app; [apply steps_literal |].
  eapply steps_app; [apply steps_repeat; exact Hw3 |].
  eapply steps_app; [apply steps_signed; exact Hg2 |].
  eapply steps_app; [apply steps_repeat; exact Hw4 |].
  eapply steps_app; [apply steps_literal |].
  eapply steps_app; [apply steps_repeat; exact Hw5 |].
  eapply steps_app; [cbn [steps]; split; reflexivity |].
  eapply steps_app; [apply steps_repeat; exact Hg3 |].
  cbn [steps]. split; reflexivity.
Qed.

(** X12. Every line that holds, anywhere, the text of a record is taken:
    the search finds a match in it, at that place or before it. *)
Theorem record_lines_match (skipped rest d1 d2 : str) (c : ascii)
  (d3 w1 g1 w2 w3 g2 w4 w5 g3 : str) :
  is_record d1 d2 c d3 w1 g1 w2 w3 g2 w4 w5 g3 ->
  exists m,
    search re_pattern
      (skipped ++ record_text d1 d2 c d3 w1 g1 w2 w3 g2 w4 w5 g3 ++ rest)
    = Some m
    /\ m_start m <= length skipped.
Proof.
  intros Hrec.
  pose proof (record_has_run d1 d2 c d3 w1 g1 w2 w3 g2 w4 w5 g3 rest Hrec)
    as (t' & mk' & Hrun).
  apply exec_complete in Hrun.
  destruct (search re_pattern
              (skipped ++ record_text d1 d2 c d3 w1 g1 w2 w3 g2 w4 w5 g3
               ++ rest)) as [m |] eqn:Hs.
  - exists m. split; [reflexivity |].
    unfold search in Hs. apply search_from_leftmost in Hs.
    destruct Hs as (a & b & Hab & Hstart & _ & Hleft).
    rewrite Hstart, Nat.add_0_l.
    destruct (Nat.le_gt_cases (length a) (length skipped)) as [H | H];
      [exact H |].
    exfalso. apply Hrun. exact (Hleft skipped _ eq_refl H).
  - exfalso. unfold search in Hs.
    apply (proj1 (search_from_none _ _ _ _)) with (a := skipped)
      (b := record_text d1 d2 c d3 w1 g1 w2 w3 g2 w4 w5 g3 ++ rest) in Hs;
      [| reflexivity].
    contradiction.
Qed.

Lemma record_lines_match_witness :
  exists m,
    search re_pattern
      (s "Mar  3 10:00:01 host " ++
       record_text (s "100") (s "1") "."%char (s "5") (s "   ") (s "10")
         (s " ") (s "   ") (s "5") (s " ") (s "   ") (s "20") ++ nl)
    = Some m
    /\ m_start m <= length (s "Mar  3 10:00:01 host ").
Proof.
  apply (record_lines_match (s "Mar  3 10:00:01 host ") nl
           (s "100") (s "1") "."%char (s "5") (s "   ") (s "10")
           (s " ") (s "   ") (s "5") (s " ") (s "   ") (s "20")).
  unfold is_record, signed_digits, run.
  repeat split; try discriminate.
  - exists [], (s "10"). repeat split; try discriminate. now left.
  - exists [], (s "5"). repeat split; try discriminate. now left.
Defined.

(** ** The last lines before the [KeyError] *)

Lemma compare_loop_last
  {NP : NumPy} {SP : SciPy} {PP : PyPlot} {FS : FileSystem}
  (control experimental : str) (names : list str) (name : str) :
  (forall n, In n names -> In n (parsed_hosts control)) ->
  snd (until_missing names (parsed_hosts experimental)) = Some name ->
  exists before,
    output (for_each names
              (fun _ n => compare_host (loaded control) (loaded experimental)
                            n) tt)
    = before ++ [Print (comparing name "Offsets"); Print []].
Proof.
  induction names as [| n names IH]; intros Hin Hmiss; [discriminate |].
  cbn [for_each until_missing] in *.
  assert (Hc1 : In n (keys (entries fst (machines control))))
    by (rewrite keys_entries; apply Hin; now left).
  assert (Hc2 : In n (keys (entries snd (machines control))))
    by (rewrite keys_entries; apply Hin; now left).
  destruct (dict_get_entries fst _ n (or_introl eq_refl) Hc1)
    as (co & cos & Hco).
  destruct (dict_get_entries snd _ n (or_intror eq_refl) Hc2)
    as (cd & cds & Hcd).
  rewrite output_bind.
  destruct (known (parsed_hosts experimental) n) eqn:Hk.
  - apply known_in in Hk.
    assert (He1 : In n (keys (entries fst (machines experimental))))
      by now rewrite keys_entries.
    assert (He2 : In n (keys (entries snd (machines experimental))))
      by now rewrite keys_entries.
    destruct (dict_get_entries fst _ n (or_introl eq_refl) He1)
      as (eo & eos & Heo).
    destruct (dict_get_entries snd _ n (or_intror eq_refl) He2)
      as (ed & eds & Hed).
    destruct (compare_host_spec (loaded control) (loaded experimental) n
                _ _ _ _ _ _ _ _ Hco Heo Hcd Hed) as [Hout _].
    rewrite Hout.
    destruct (until_missing names (parsed_hosts experimental))
      as [done miss].
    cbn [snd] in *.
    destruct IH as [before Hb]; [intros x Hx; apply Hin; now right
                                | exact Hmiss |].
    rewrite Hb. eexists. apply app_assoc.
  - cbn [snd] in Hmiss. injection Hmiss as <-.
    assert (Hne : ~ In n (keys (fst (loaded experimental)))).
    { cbn [loaded fst]. rewrite keys_entries. intros H.
      apply known_in in H. unfold parsed_hosts in Hk. congruence. }
    rewrite (compare_host_missing (loaded control) (loaded experimental) n
               _ Hco Hne).
    exists []. reflexivity.
Qed.

(** X2. When [main] ends with a [KeyError], the last thing it printed is
    the heading of the offsets comparison of that host and the empty
    line after it: the failure comes before any test of the host. *)
Theorem main_last_lines_before_key_error
  {NP : NumPy} {SP : SciPy} {PP : PyPlot} {FS : FileSystem}
  (control experimental name : str) :
  outcome (main control (Some experimental)) = Raise (KeyError name) ->
  exists before,
    output (main control (Some experimental))
    = before ++ [Print (comparing name "Offsets"); Print []].
Proof.
  intros Hout.
  destruct (main_run control experimental) as [Hrun _].
  rewrite Hrun in Hout.
  destruct (snd (until_missing (parsed_hosts control)
                   (parsed_hosts experimental))) as [missing |] eqn:Hm;
    [| discriminate].
  injection Hout as ->.
  destruct (parse_loop_machines control) as [Hc _].
  destruct (parse_loop_machines experimental) as [He _].
  unfold main.
  rewrite output_bind, Hc. cbv beta iota.
  rewrite output_bind, He. cbv beta iota.
  cbn [fst]. rewrite keys_entries. fold (parsed_hosts control).
  destruct (compare_loop_last control experimental (parsed_hosts control)
              name (fun n H => H) Hm) as [before Hb].
  fold (loaded control). fold (loaded experimental).
  rewrite Hb. eexists. rewrite !app_assoc. reflexivity.
Qed.

Lemma main_last_lines_before_key_error_witness :
  exists before,
    output (@main seq_numpy (fixed_scipy one) plain_pyplot
              (table_fs demo_files) (s "ctl") (Some (s "exp")))
    = before ++ [Print (comparing (s "Beta") "Offsets"); Print []].
Proof.
  apply (@main_last_lines_before_key_error seq_numpy (fixed_scipy one)
           plain_pyplot (table_fs demo_files) (s "ctl") (s "exp") (s "Beta")).
  vm_compute. reflexivity.
Defined.
